(** * lpcap: the lightweight packet-capture container, verified

    A shallow embedding of the Go package [lpcap] (file header codec,
    packet header codec, and the [PCAP] reader/writer session) together
    with the properties of its on-disk format and of its state machine.

    Conventions of the embedding:
    - Go's fixed-width integers are [Z] with the wrap-around written out
      ([uint32], [int32], [int64] below); [uint8] is [byte].
    - A run-time panic (nil dereference, index or slice bound violation)
      is the [Panics] outcome; a normal return is [Returns].
    - Go's [error] interface values are the inductive [error]; a
      [nil] error or pointer is [None].
    - The mutexes of [PCAP] and the atomics guard against concurrent
      callers; the embedding is sequential and leaves them out. *)

From Stdlib Require Import String ZArith List Lia Bool DecimalString.
From coqutil Require Import Byte Word.LittleEndianList.
Import ListNotations.

Local Open Scope string_scope.
Local Open Scope list_scope.
Local Open Scope Z_scope.

(** ** Outcomes of Go calls *)

Inductive outcome (A : Type) : Type :=
| Returns (a : A)
| Panics (why : string).
Arguments Returns {A} a.
Arguments Panics {A} why.

Definition bind {A B : Type} (c : outcome A) (k : A -> outcome B) : outcome B :=
  match c with
  | Returns a => k a
  | Panics why => Panics why
  end.

Notation "x <- c ;; k" := (bind c (fun x => k))
  (at level 61, c at next level, right associativity).

(** ** Fixed-width integers *)

Definition uint32 (z : Z) : Z := z mod 2 ^ 32.
Definition int32 (z : Z) : Z := (z + 2 ^ 31) mod 2 ^ 32 - 2 ^ 31.
Definition int64 (z : Z) : Z := (z + 2 ^ 63) mod 2 ^ 64 - 2 ^ 63.

Definition is_uint32 (z : Z) : Prop := 0 <= z < 2 ^ 32.

(** ** Byte slices

    A Go slice is a window of [slen] elements on a backing array; the
    backing array is kept from the slice's first element on, so its
    length is the slice's capacity. *)

Definition len {A : Type} (l : list A) : Z := Z.of_nat (length l).

Record slice : Type := mkslice { backing : list byte; slen : Z }.

Definition cap (s : slice) : Z := len (backing s).

(** The elements in the window, [b[0]..b[len(b)-1]]. *)
Definition elems (s : slice) : list byte :=
  firstn (Z.to_nat (slen s)) (backing s).

(** [overlay l off bs]: [l] with the bytes from [off] on replaced by [bs]. *)
Definition overlay (l : list byte) (off : Z) (bs : list byte) : list byte :=
  firstn (Z.to_nat off) l ++ bs ++ skipn (Z.to_nat (off + len bs)) l.

(** [b[:n]] *)
Definition reslice (s : slice) (n : Z) : outcome slice :=
  if (0 <=? n) && (n <=? cap s)
  then Returns (mkslice (backing s) n)
  else Panics "slice bounds out of range".

(** [b[i] = v] *)
Definition store_index (s : slice) (i : Z) (v : byte) : outcome slice :=
  if (0 <=? i) && (i <? slen s)
  then Returns (mkslice (overlay (backing s) i [v]) (slen s))
  else Panics "index out of range".

(** [b[off:]] on a plain byte sequence (used where the callee only reads). *)
Definition from (b : list byte) (off : Z) : outcome (list byte) :=
  if (0 <=? off) && (off <=? len b)
  then Returns (skipn (Z.to_nat off) b)
  else Panics "slice bounds out of range".

(** [copy(b[off:], src)]: copies [min(len(b)-off, len(src))] bytes. *)
Definition copy_from (s : slice) (off : Z) (src : list byte) : outcome slice :=
  if (0 <=? off) && (off <=? slen s)
  then
    let n := Z.min (slen s - off) (len src) in
    Returns (mkslice (overlay (backing s) off (firstn (Z.to_nat n) src)) (slen s))
  else Panics "slice bounds out of range".

(** ** encoding/binary, little endian *)

Module binary.

(** [binary.LittleEndian.Uint16(b)] *)
Definition Uint16 (b : list byte) : outcome Z :=
  match b with
  | b0 :: b1 :: _ =>
      Returns (Z.lor (byte.unsigned b0) (Z.shiftl (byte.unsigned b1) 8))
  | _ => Panics "index out of range"
  end.

(** [binary.LittleEndian.Uint32(b)] *)
Definition Uint32 (b : list byte) : outcome Z :=
  match b with
  | b0 :: b1 :: b2 :: b3 :: _ =>
      Returns (Z.lor (Z.lor (Z.lor (byte.unsigned b0)
                                   (Z.shiftl (byte.unsigned b1) 8))
                            (Z.shiftl (byte.unsigned b2) 16))
                     (Z.shiftl (byte.unsigned b3) 24))
  | _ => Panics "index out of range"
  end.

(** The bytes [binary.LittleEndian.PutUint16] stores. *)
Definition bytes16 (v : Z) : list byte :=
  [byte.of_Z v; byte.of_Z (Z.shiftr v 8)].

(** The bytes [binary.LittleEndian.PutUint32] stores. *)
Definition bytes32 (v : Z) : list byte :=
  [byte.of_Z v; byte.of_Z (Z.shiftr v 8);
   byte.of_Z (Z.shiftr v 16); byte.of_Z (Z.shiftr v 24)].

(** [binary.LittleEndian.PutUint16(b[off:], v)] *)
Definition PutUint16 (s : slice) (off : Z) (v : Z) : outcome slice :=
  if (0 <=? off) && (off <=? slen s)
  then
    if 2 <=? slen s - off
    then Returns (mkslice (overlay (backing s) off (bytes16 v)) (slen s))
    else Panics "index out of range"
  else Panics "slice bounds out of range".

(** [binary.LittleEndian.PutUint32(b[off:], v)] *)
Definition PutUint32 (s : slice) (off : Z) (v : Z) : outcome slice :=
  if (0 <=? off) && (off <=? slen s)
  then
    if 4 <=? slen s - off
    then Returns (mkslice (overlay (backing s) off (bytes32 v)) (slen s))
    else Panics "index out of range"
  else Panics "slice bounds out of range".

End binary.

(** ** errors.go *)

(** Go [error] values: [errors.New], the sentinel [io.EOF], the errors of
    package [os], and this package's [*ParseError]. *)
Inductive error : Type :=
| errors_New (msg : string)
| io_EOF
| os_PathError (op : string) (msg : string)
| ParseError (Offset : Z) (Err : error).

Definition ErrorCode : Type := Z.

(** [const ( ErrOk ErrorCode = 0; ErrRead ErrorCode = 1 << iota; ... )]:
    [iota] counts the lines of the block, so [ErrRead] is on line 1. *)
Definition ErrOk : ErrorCode := 0.
Definition ErrRead : ErrorCode := Z.shiftl 1 1.
Definition ErrWrite : ErrorCode := Z.shiftl 1 2.
Definition ErrInvalidHeader : ErrorCode := Z.shiftl 1 3.
Definition ErrSizeOverflow : ErrorCode := Z.shiftl 1 4.
Definition ErrNoMorePacket : ErrorCode := Z.shiftl 1 5.

(** ** lpcap.go: constants *)

Definition MajorVer : Z := 1.
Definition MinorVer : Z := 0.

Definition LinkType : Type := Z.

(** [const ( LinkTypeNull LinkType = 0; LinkTypeEthernet2 LinkType = 2 << iota;
    LinkTypeEthernet80211; LinkTypeFDDI )]: [LinkTypeEthernet2] is on
    line 1 of its block. *)
Definition LinkTypeNull : LinkType := 0.
Definition LinkTypeEthernet2 : LinkType := Z.shiftl 2 1.
Definition LinkTypeEthernet80211 : LinkType := Z.shiftl 2 2.
Definition LinkTypeFDDI : LinkType := Z.shiftl 2 3.

Definition MaxSnapLength : Z := Z.shiftl 1 14 - 1.

(** [const ( PacketTypeBroadcast = 2 << iota; PacketTypeUnicast;
    PacketTypeMulticast )], the block starts at line 0.  The codec names
    them [PtypeBroadcast], [PtypeUnicast], [PtypeMulticast]. *)
Definition PacketTypeBroadcast : Z := Z.shiftl 2 0.
Definition PacketTypeUnicast : Z := Z.shiftl 2 1.
Definition PacketTypeMulticast : Z := Z.shiftl 2 2.

(** ** The codecs *)

Definition lpcapmx : Z := 0x4f3e.
Definition minFileSize : Z := 14.
Definition minPacketSize : Z := 10.

Record fileHeader : Type := mkFileHeader {
  mx : Z;        (* uint16, magic number *)
  majorVer : Z;  (* uint16 *)
  minorVer : Z;  (* uint16 *)
  snapLen : Z;   (* uint32 *)
  link : LinkType
}.

(** [&fileHeader{}], every field at its zero value. *)
Definition zero_fileHeader : fileHeader := mkFileHeader 0 0 0 0 0.

Definition with_mx (h : fileHeader) (v : Z) : fileHeader :=
  mkFileHeader v (majorVer h) (minorVer h) (snapLen h) (link h).
Definition with_majorVer (h : fileHeader) (v : Z) : fileHeader :=
  mkFileHeader (mx h) v (minorVer h) (snapLen h) (link h).
Definition with_minorVer (h : fileHeader) (v : Z) : fileHeader :=
  mkFileHeader (mx h) (majorVer h) v (snapLen h) (link h).
Definition with_snapLen (h : fileHeader) (v : Z) : fileHeader :=
  mkFileHeader (mx h) (majorVer h) (minorVer h) v (link h).
Definition with_link (h : fileHeader) (lt : LinkType) : fileHeader :=
  mkFileHeader (mx h) (majorVer h) (minorVer h) (snapLen h) lt.

(** [unmarshalFileHeader(b)].  The result is the pointer (or nil), the
    error offset and the error (or nil). *)
Definition unmarshalFileHeader (b : list byte)
  : outcome (option fileHeader * Z * option error) :=
  let erroffset := 0 in
  let h := zero_fileHeader in
  m <- binary.Uint16 b ;;
  if negb (m =? lpcapmx)
  then Returns (None, erroffset,
                Some (errors_New "cannot parse PCAP file, invalid magix number"))
  else
    let h := with_mx h m in
    b2 <- from b 2 ;;
    major <- binary.Uint16 b2 ;;
    let h := with_majorVer h major in
    if majorVer h =? 0
    then Returns (None, erroffset + 2,
                  Some (errors_New "cannot parse PCAP file, invalid major version (is nil)"))
    else
      b4 <- from b 4 ;;
      minor <- binary.Uint16 b4 ;;
      let h := with_minorVer h minor in
      if minorVer h =? 0
      then Returns (None, erroffset + 4,
                    Some (errors_New "cannot parse PCAP file, invalid minor version (is nil)"))
      else
        b6 <- from b 6 ;;
        snap <- binary.Uint32 b6 ;;
        let h := with_snapLen h snap in
        b10 <- from b 10 ;;
        linkType <- binary.Uint32 b10 ;;
        if negb (linkType =? LinkTypeEthernet2)
           && negb (linkType =? LinkTypeEthernet80211)
        then Returns (None, erroffset + 10,
                      Some (errors_New "cannot parse PCAP file, link type is undefined"))
        else Returns (Some h, 0, None).

Record packetHeader : Type := mkPacketHeader {
  ifindex : byte;
  ptype : byte;
  timestamp : Z;  (* uint32 *)
  plen : Z        (* uint32, the field [len]; the field [p] is never used
                     by the functions embedded here *)
}.

(** [b[i]] on a plain byte sequence. *)
Definition index (b : list byte) (i : nat) : outcome byte :=
  match nth_error b i with
  | Some v => Returns v
  | None => Panics "index out of range"
  end.

(** [unmarshalPacketHeader(b, maxLen)] *)
Definition unmarshalPacketHeader (b : list byte) (maxLen : Z)
  : outcome (option packetHeader * Z * option error) :=
  let erroffset := 0 in
  i <- index b 0 ;;
  pt <- index b 1 ;;
  if negb (byte.unsigned pt =? PacketTypeBroadcast)
     && negb (byte.unsigned pt =? PacketTypeUnicast)
     && negb (byte.unsigned pt =? PacketTypeMulticast)
  then Returns (None, erroffset, Some (errors_New "undefined packet type"))
  else
    b2 <- from b 2 ;;
    t <- binary.Uint32 b2 ;;
    if t =? 0
    then Returns (None, erroffset + 2, Some (errors_New "invalid timestamp value"))
    else
      b6 <- from b 6 ;;
      l <- binary.Uint32 b6 ;;
      if l >? maxLen
      then Returns (None, erroffset + 6,
                    Some (errors_New "snap length of packet is overflow"))
      else Returns (Some (mkPacketHeader i pt t l), 0, None).

(** ** The byte store

    [ReaderWriterCloser] is the interface the session holds.  [ReadAt]
    is given the length of the destination and the offset and answers
    with the bytes it read and the error; [Write] and [Close] answer
    with the store afterwards. [Read] is never called. *)

Class ReaderWriterCloser (F : Type) : Type := {
  ReadAt : F -> Z -> Z -> list byte * option error;
  Write : F -> list byte -> F * Z * option error;
  CloseStore : F -> F * option error
}.

(** [rd.ReadAt(b, off)]: the bytes read land at the front of [b]; the
    count is what the store reports, at most [len(b)]. *)
Definition read_into {F : Type} `{ReaderWriterCloser F}
  (rd : F) (b : slice) (off : Z) : slice * Z * option error :=
  let '(got, err) := ReadAt rd (slen b) off in
  let got := firstn (Z.to_nat (slen b)) got in
  (mkslice (overlay (backing b) 0 got) (slen b), len got, err).

(** ** lpcap.go: the session *)

Record Packet : Type := mkPacket {
  Index : byte;
  PacketType : byte;
  Timestamp : Z;  (* uint32 *)
  Len : Z;        (* uint32 *)
  Data : list byte
}.

(** What [packetPool.Get()] may hand out: a slice of the capacity the
    pool allocates with, whatever its length and stale contents. *)
Definition pooled (b : slice) : Prop :=
  cap b = MaxSnapLength /\ 0 <= slen b <= cap b.

(** [packetPool.New()], [make([]byte, 0, MaxSnapLength)]. *)
Definition packetPool_New : slice :=
  mkslice (repeat Byte.x00 (Z.to_nat MaxSnapLength)) 0.

Section Session.
Context {F : Type} `{ReaderWriterCloser F}.

Record PCAP : Type := mkPCAP {
  h : option fileHeader;  (* pointer, nil after Close *)
  rd : F;
  count : Z;              (* int32, the field [len] *)
  offset : Z;             (* int64 *)
  isClosed : bool;
  lasterr : ErrorCode;
  fsize : Z               (* int64 *)
}.

Definition with_h (p : PCAP) (v : option fileHeader) : PCAP :=
  mkPCAP v (rd p) (count p) (offset p) (isClosed p) (lasterr p) (fsize p).
Definition with_rd (p : PCAP) (v : F) : PCAP :=
  mkPCAP (h p) v (count p) (offset p) (isClosed p) (lasterr p) (fsize p).
Definition with_count (p : PCAP) (v : Z) : PCAP :=
  mkPCAP (h p) (rd p) v (offset p) (isClosed p) (lasterr p) (fsize p).
Definition with_offset (p : PCAP) (v : Z) : PCAP :=
  mkPCAP (h p) (rd p) (count p) v (isClosed p) (lasterr p) (fsize p).
Definition with_isClosed (p : PCAP) (v : bool) : PCAP :=
  mkPCAP (h p) (rd p) (count p) (offset p) v (lasterr p) (fsize p).
Definition with_lasterr (p : PCAP) (v : ErrorCode) : PCAP :=
  mkPCAP (h p) (rd p) (count p) (offset p) (isClosed p) v (fsize p).
Definition with_fsize (p : PCAP) (v : Z) : PCAP :=
  mkPCAP (h p) (rd p) (count p) (offset p) (isClosed p) (lasterr p) v.

(** [pcap.h.f]: dereferencing the header pointer. *)
Definition deref (hp : option fileHeader) : outcome fileHeader :=
  match hp with
  | Some hd => Returns hd
  | None => Panics "invalid memory address or nil pointer dereference"
  end.

(** The classification of a failed [ReadAt]. *)
Definition read_failure (err : error) : ErrorCode :=
  match err with
  | io_EOF => ErrNoMorePacket
  | _ => ErrRead
  end.

(** [pcap.ReadPacket(p)], with [b0] the slice [packetPool.Get()] handed
    out.  The result is the session afterwards, the packet stored
    through [p] (if any), [n] and [err]. *)
Definition ReadPacket (b0 : slice) (pcap : PCAP)
  : outcome (PCAP * option Packet * Z * option error) :=
  b <- reslice b0 0 ;;
  b <- reslice b minPacketSize ;;
  let '(b, n, err) := read_into (rd pcap) b (offset pcap) in
  match err with
  | Some e => Returns (with_lasterr pcap (read_failure e), None, 0, Some e)
  | None =>
      let pcap := with_offset pcap (int64 (offset pcap + n)) in
      hd <- deref (h pcap) ;;
      r <- unmarshalPacketHeader (elems b) (snapLen hd) ;;
      let '(ph, erroffset, err) := r in
      match err, ph with
      | Some e, _ =>
          let erroffset := int64 (erroffset + offset pcap) in
          Returns (with_lasterr pcap ErrInvalidHeader, None, 0,
                   Some (ParseError erroffset e))
      | None, None => Panics "invalid memory address or nil pointer dereference"
      | None, Some ph =>
          b <- reslice b (plen ph) ;;
          let '(b, n, err) := read_into (rd pcap) b (offset pcap) in
          match err with
          | Some e => Returns (with_lasterr pcap (read_failure e), None, 0, Some e)
          | None =>
              let p := mkPacket (ifindex ph) (ptype ph) (timestamp ph)
                                (plen ph) (elems b) in
              let pcap := with_count pcap (int32 (count pcap + 1)) in
              let pcap := with_offset pcap (int64 (offset pcap + n)) in
              Returns (pcap, Some p, minPacketSize + n, None)
          end
      end
  end.

(** [pcap.WritePacket(p)], with [b0] the slice [packetPool.Get()]
    handed out. The result is the session afterwards, [n] and [err]. *)
Definition WritePacket (b0 : slice) (pcap : PCAP) (p : Packet)
  : outcome (PCAP * Z * option error) :=
  hd <- deref (h pcap) ;;
  let isOverflow := len (Data p) + minPacketSize >? snapLen hd in
  if isOverflow
  then Returns (with_lasterr pcap ErrSizeOverflow, 0,
                Some (errors_New "cannot write packet to PCAP, because length of packet greater than snap length"))
  else
    let off := 0 in
    b <- reslice b0 0 ;;
    b <- reslice b (uint32 (minPacketSize + Len p)) ;;
    b <- store_index b 0 (Index p) ;;
    b <- store_index b 1 (PacketType p) ;;
    let off := off + 2 in
    b <- binary.PutUint32 b off (Timestamp p) ;;
    let off := off + 4 in
    b <- binary.PutUint32 b off (Len p) ;;
    let off := off + 4 in
    b <- copy_from b off (Data p) ;;
    let '(rd', n, err) := Write (rd pcap) (elems b) in
    let pcap := with_rd pcap rd' in
    match err with
    | Some e => Returns (with_lasterr pcap ErrWrite, 0, Some e)
    | None => Returns (with_fsize pcap (int64 (fsize pcap + n)), n, None)
    end.

(** [pcap.Next()] *)
Definition Next (pcap : PCAP) : bool := offset pcap <? fsize pcap.

(** [pcap.Close()] *)
Definition Close (pcap : PCAP) : PCAP * option error :=
  if isClosed pcap
  then (pcap, Some (errors_New "file is already closed"))
  else
    let pcap := with_h pcap None in
    let pcap := with_count pcap 0 in
    let pcap := with_offset pcap 0 in
    let pcap := with_isClosed pcap true in
    let pcap := with_lasterr pcap ErrOk in
    let pcap := with_fsize pcap 0 in
    let '(rd', err) := CloseStore (rd pcap) in
    (with_rd pcap rd', err).

(** [pcap.Len()] *)
Definition Len_ (pcap : PCAP) : Z := count pcap.

(** [pcap.LinkType()] *)
Definition LinkType_ (pcap : PCAP) : outcome LinkType :=
  hd <- deref (h pcap) ;; Returns (link hd).

(** [pcap.SetLinkType(lt)] *)
Definition SetLinkType (pcap : PCAP) (lt : LinkType) : outcome PCAP :=
  hd <- deref (h pcap) ;; Returns (with_h pcap (Some (with_link hd lt))).

(** [pcap.LastError()] *)
Definition LastError (pcap : PCAP) : ErrorCode := lasterr pcap.

End Session.

Arguments PCAP F : clear implicits.

(** ** The file behind a session: [*os.File]

    A regular file is its contents; a handle adds the position of the
    next sequential write, the access mode it was opened with, and
    whether it has been closed. [ReadAt] reads at an absolute offset and
    leaves the position alone; [Write] writes at the position (neither
    [Create] nor [Open] asks for append mode) and extends the file where
    it runs past the end. *)

Record File : Type := mkFile {
  content : list byte;
  fpos : Z;
  readable : bool;
  writable : bool;
  closed : bool
}.

Definition File_ReadAt (f : File) (n off : Z) : list byte * option error :=
  if off <? 0 then ([], Some (os_PathError "readat" "negative offset"))
  else if n <=? 0 then ([], None)
  else if closed f then ([], Some (os_PathError "read" "file already closed"))
  else if negb (readable f) then ([], Some (os_PathError "read" "bad file descriptor"))
  else
    let got := firstn (Z.to_nat n) (skipn (Z.to_nat off) (content f)) in
    if len got <? n then (got, Some io_EOF) else (got, None).

(** The contents after writing [b] at position [pos]; a gap between the
    end of the file and [pos] reads as zeros. *)
Definition write_at (c : list byte) (pos : Z) (b : list byte) : list byte :=
  overlay (c ++ repeat Byte.x00 (Z.to_nat (pos - len c))) pos b.

Definition File_Write (f : File) (b : list byte) : File * Z * option error :=
  if closed f then (f, 0, Some (os_PathError "write" "file already closed"))
  else if negb (writable f) then (f, 0, Some (os_PathError "write" "bad file descriptor"))
  else (mkFile (write_at (content f) (fpos f) b) (fpos f + len b)
               (readable f) (writable f) (closed f),
        len b, None).

Definition File_Close (f : File) : File * option error :=
  if closed f then (f, Some (os_PathError "close" "file already closed"))
  else (mkFile (content f) (fpos f) (readable f) (writable f) true, None).

#[export] Instance File_ReaderWriterCloser : ReaderWriterCloser File := {
  ReadAt := File_ReadAt;
  Write := File_Write;
  CloseStore := File_Close
}.

(** What a path names when it is opened. *)
Inductive path_state : Type :=
| NoFile
| RegularFile (c : list byte)
| Unopenable (e : error).

(** [os.OpenFile(path, os.O_RDWR|os.O_CREATE, os.ModePerm)]: an existing
    file keeps its contents, there is no truncation. *)
Definition os_OpenFile_RDWR_CREATE (path : path_state) : File + error :=
  match path with
  | NoFile => inl (mkFile [] 0 true true false)
  | RegularFile c => inl (mkFile c 0 true true false)
  | Unopenable e => inr e
  end.

(** [os.Open(path)], read only. *)
Definition os_Open (path : path_state) : File + error :=
  match path with
  | NoFile => inr (os_PathError "open" "no such file or directory")
  | RegularFile c => inl (mkFile c 0 true false false)
  | Unopenable e => inr e
  end.

(** What the path names once a session has written through its handle. *)
Definition on_disk (pcap : PCAP File) : path_state :=
  RegularFile (content (rd pcap)).

(** [make([]byte, n)] *)
Definition make (n : Z) : slice :=
  mkslice (repeat Byte.x00 (Z.to_nat n)) n.

(** [Create(path)] *)
Definition Create (path : path_state)
  : outcome (option (PCAP File) * option error) :=
  match os_OpenFile_RDWR_CREATE path with
  | inr err => Returns (None, Some err)
  | inl f =>
      let hd := mkFileHeader lpcapmx MajorVer MinorVer MaxSnapLength
                             LinkTypeEthernet2 in
      let p := mkPCAP (Some hd) f 0 0 false ErrOk 0 in
      let b := make minFileSize in
      hd <- deref (h p) ;;
      b <- binary.PutUint16 b 0 (mx hd) ;;
      b <- binary.PutUint16 b 2 (majorVer hd) ;;
      b <- binary.PutUint16 b 4 (minorVer hd) ;;
      b <- binary.PutUint32 b 6 (snapLen hd) ;;
      b <- binary.PutUint32 b 10 (uint32 (link hd)) ;;
      let '(f, n, err) := Write f (elems b) in
      match err with
      | Some e => Returns (None, Some e)
      | None =>
          let p := with_rd p f in
          let p := with_offset p (int64 (offset p + n)) in
          let p := with_fsize p minFileSize in
          Returns (Some p, None)
      end
  end.

(** [Open(path)].  The session it builds leaves [isClosed] and
    [lasterr] at their zero values, [false] and 0. *)
Definition Open (path : path_state)
  : outcome (option (PCAP File) * option error) :=
  match os_Open path with
  | inr err => Returns (None, Some err)
  | inl f =>
      let fileSize := len (content f) in
      if fileSize <? minFileSize
      then Returns (None, Some (errors_New "file length too small, cannot read file header"))
      else
        let b := make minFileSize in
        let '(b, n, err) := read_into f b 0 in
        match err with
        | Some e => Returns (None, Some e)
        | None =>
            r <- unmarshalFileHeader (elems b) ;;
            let '(header, erroffset, err) := r in
            match err with
            | Some e => Returns (None, Some (ParseError erroffset e))
            | None => Returns (Some (mkPCAP header f 0 n false 0 fileSize), None)
            end
        end
  end.

(** A caller's loop of [WritePacket] calls, each with the buffer the
    pool hands out for it; a failed write is reported and the loop goes
    on, a panic ends it. *)
Fixpoint WritePackets {F : Type} `{ReaderWriterCloser F}
  (pcap : PCAP F) (ws : list (slice * Packet)) : outcome (PCAP F) :=
  match ws with
  | [] => Returns pcap
  | (b0, p) :: ws =>
      r <- WritePacket b0 pcap p ;;
      let '(pcap, _, _) := r in
      WritePackets pcap ws
  end.

(** One read or write, as a caller issues them in sequence. *)
Inductive op : Type :=
| OpRead (b0 : slice)
| OpWrite (b0 : slice) (p : Packet).

Definition step {F : Type} `{ReaderWriterCloser F}
  (pcap : PCAP F) (o : op) : outcome (PCAP F * option error) :=
  match o with
  | OpRead b0 =>
      r <- ReadPacket b0 pcap ;;
      let '(pcap, _, _, err) := r in Returns (pcap, err)
  | OpWrite b0 p =>
      r <- WritePacket b0 pcap p ;;
      let '(pcap, _, err) := r in Returns (pcap, err)
  end.

(** ** Vocabulary of the statements *)

(** The packet classes the format knows. *)
Definition is_packet_class (pt : byte) : Prop :=
  byte.unsigned pt = PacketTypeBroadcast \/
  byte.unsigned pt = PacketTypeUnicast \/
  byte.unsigned pt = PacketTypeMulticast.

(** The little-endian value of the [n] bytes at offset [off] of [b]. *)
Definition field (b : list byte) (off n : nat) : Z :=
  le_combine (firstn n (skipn off b)).

(** The fourteen bytes [Create] writes. *)
Definition created_header : list byte :=
  [Byte.x3e; Byte.x4f; Byte.x01; Byte.x00; Byte.x00; Byte.x00; Byte.xff;
   Byte.x3f; Byte.x00; Byte.x00; Byte.x04; Byte.x00; Byte.x00; Byte.x00].

(** A header that differs from [created_header] in its minor version, 1. *)
Definition readable_header : list byte :=
  [Byte.x3e; Byte.x4f; Byte.x01; Byte.x00; Byte.x01; Byte.x00; Byte.xff;
   Byte.x3f; Byte.x00; Byte.x00; Byte.x04; Byte.x00; Byte.x00; Byte.x00].

(** The same with a snap length of zero. *)
Definition zero_snap_header : list byte :=
  [Byte.x3e; Byte.x4f; Byte.x01; Byte.x00; Byte.x01; Byte.x00; Byte.x00;
   Byte.x00; Byte.x00; Byte.x00; Byte.x04; Byte.x00; Byte.x00; Byte.x00].

(** The same with the other link type the decoder lets through. *)
Definition wifi_header : list byte :=
  [Byte.x3e; Byte.x4f; Byte.x01; Byte.x00; Byte.x01; Byte.x00; Byte.xff;
   Byte.x3f; Byte.x00; Byte.x00; Byte.x08; Byte.x00; Byte.x00; Byte.x00].

(** A packet header: interface 4, broadcast, timestamp 77, length 3. *)
Definition sample_packet_header : list byte :=
  [Byte.x04; Byte.x02; Byte.x4d; Byte.x00; Byte.x00; Byte.x00; Byte.x03;
   Byte.x00; Byte.x00; Byte.x00].

(** The bytes a path held before it was opened. *)
Definition prior_content (path : path_state) : list byte :=
  match path with
  | RegularFile c => c
  | _ => []
  end.

(** The file still starts with the header [hdr], and writes go behind it. *)
Definition keeps_header (f : File) (hdr : list byte) : Prop :=
  14 <= fpos f /\ 14 <= len (content f) /\ firstn 14 (content f) = hdr.

(** A broadcast packet of three bytes, and one whose [Len] understates
    its payload. *)
Definition packet_abc : Packet :=
  mkPacket Byte.x04 Byte.x02 77 3 [Byte.x61; Byte.x62; Byte.x63].
Definition packet_short_len : Packet :=
  mkPacket Byte.x04 Byte.x02 77 0 [Byte.x61].
(** The frame of a packet on disk: interface index, class, timestamp
    and length in little-endian order, then the payload. *)
Definition frame (p : Packet) : list byte :=
  [Index p; PacketType p] ++ binary.bytes32 (Timestamp p)
    ++ binary.bytes32 (Len p) ++ Data p.

(** The ten header bytes of a frame. *)
Definition frame_header (p : Packet) : list byte :=
  [Index p; PacketType p] ++ binary.bytes32 (Timestamp p)
    ++ binary.bytes32 (Len p).

(** A packet whose payload is nine bytes short of the largest snap
    length, one byte more than a frame can take. *)
Definition packet_too_big : Packet :=
  mkPacket Byte.x04 Byte.x02 77 (MaxSnapLength - 9)
           (repeat Byte.x00 (Z.to_nat (MaxSnapLength - 9))).
(** The session [Create] returns on a path that names no file. *)
Definition fresh_session : PCAP File :=
  mkPCAP (Some (mkFileHeader lpcapmx 1 0 MaxSnapLength LinkTypeEthernet2))
         (mkFile created_header 14 true true false)
         0 14 false ErrOk 14.
(** The error codes a failed read or write can leave behind. *)
Definition failure_codes : list ErrorCode :=
  [ErrRead; ErrWrite; ErrInvalidHeader; ErrSizeOverflow; ErrNoMorePacket].
(** A packet without payload whose [Len] is one more than fits. *)
Definition packet_long_len : Packet :=
  mkPacket Byte.x04 Byte.x02 77 (MaxSnapLength - 9) [].

(** ** errors.go: the text of an error code *)

(** [strconv.Itoa]: the decimal digits, with a minus sign for a
    negative number. *)
Definition strconv_Itoa (z : Z) : string :=
  NilZero.string_of_int (Z.to_int z).

(** [ErrorCode.Error()]: a [switch] over the six constants, and the
    decimal value for anything else. *)
Definition ErrorCode_Error (e : ErrorCode) : string :=
  if e =? ErrOk then "Ok"
  else if e =? ErrRead then "Read Error"
  else if e =? ErrWrite then "Write Error"
  else if e =? ErrInvalidHeader then "Invalid Packet Header"
  else if e =? ErrSizeOverflow then "Size Overflow"
  else if e =? ErrNoMorePacket then "No More Packets"
  else strconv_Itoa e.

(** The messages [ErrorCode.Error()] has a name for. *)
Definition error_names : list string :=
  ["Ok"; "Read Error"; "Write Error"; "Invalid Packet Header";
   "Size Overflow"; "No More Packets"].

(** ** Callers' loops and what they work on *)

(** A packet a caller fills in consistently: a known class, a nonzero
    timestamp, [Len] the length of the payload, and a payload that fits
    a frame of the largest snap length. *)
Definition valid_packet (p : Packet) : Prop :=
  is_packet_class (PacketType p) /\
  is_uint32 (Timestamp p) /\ Timestamp p <> 0 /\
  Len p = len (Data p) /\ len (Data p) <= MaxSnapLength - 10.

(** The frames of a sequence of packets, one after the other. *)
Definition frames (ps : list Packet) : list byte := concat (map frame ps).


(** The header a session made by [Create] holds. *)
Definition created_fileHeader : fileHeader :=
  mkFileHeader lpcapmx MajorVer MinorVer MaxSnapLength LinkTypeEthernet2.

(** A file of a readable header and one frame whose declared length,
    20000, is within the header's snap length, 65535, and beyond what
    a pooled buffer holds. *)
Definition wide_snap_header : list byte :=
  [Byte.x3e; Byte.x4f; Byte.x01; Byte.x00; Byte.x01; Byte.x00; Byte.xff;
   Byte.xff; Byte.x00; Byte.x00; Byte.x04; Byte.x00; Byte.x00; Byte.x00].
Definition packet_wide : Packet :=
  mkPacket Byte.x04 Byte.x02 77 20000 [].

(** A packet whose [Len] field overstates its payload by two bytes. *)
Definition packet_over_len : Packet :=
  mkPacket Byte.x04 Byte.x02 77 3 [Byte.x61].

(** A pooled buffer with bytes left in it by an earlier use. *)
Definition used_buffer : slice :=
  mkslice (repeat Byte.x2a (Z.to_nat MaxSnapLength)) 0.

(** The session [Open] returns on a file of [wide_snap_header] and the
    header of [packet_wide]. *)
Definition wide_session : PCAP File :=
  mkPCAP (Some (mkFileHeader lpcapmx 1 1 65535 0))
         (mkFile (wide_snap_header ++ frame_header packet_wide) 0 true false false)
         0 14 false 0 24.

(** A session on a file that ends one byte into the payload of
    [packet_abc]. *)
Definition truncated_session : PCAP File :=
  mkPCAP (Some created_fileHeader)
         (mkFile (created_header ++ frame_header packet_abc ++ [Byte.x61])
                 25 true true false)
         0 14 false ErrOk 25.

(** A session on a file with ten zero bytes where a frame should be. *)
Definition garbage_session : PCAP File :=
  mkPCAP (Some created_fileHeader)
         (mkFile (created_header ++ repeat Byte.x00 10 ++ []) 24 true true false)
         0 14 false ErrOk 24.

(** The session [Open] builds on a file whose first fourteen bytes the
    decoder accepts. *)
Definition opened (c : list byte) : PCAP File :=
  mkPCAP (Some (mkFileHeader (field c 0 2) (field c 2 2) (field c 4 2)
                             (field c 6 4) LinkTypeNull))
         (mkFile c 0 true false false) 0 14 false ErrOk (len c).

(** A session made by [Create] whose file so far is [X], followed by
    whatever an older file left behind, with the handle at the end of
    [X], the cursor at [o] and [c] packets counted. *)
Definition written (pcap : PCAP File) (X : list byte) (o c : Z) : Prop :=
  h pcap = Some created_fileHeader /\
  closed (rd pcap) = false /\ readable (rd pcap) = true /\
  writable (rd pcap) = true /\
  (exists post, content (rd pcap) = X ++ post) /\
  fpos (rd pcap) = len X /\ fsize pcap = len X /\
  offset pcap = o /\ count pcap = c.

(** ** Which failure gets which code

    The classification of a failed call in the words of the error
    taxonomy, to compare [ReadPacket] and [WritePacket] with: a write
    whose payload with the ten header bytes exceeds the snap length is a
    size overflow, any other failed write a write failure; a read whose
    ten bytes at the cursor fail the packet header decoder is an invalid
    header; any other failed read is "no more packets" when the error it
    returns is [io.EOF], and a read failure otherwise. *)

(** The ten bytes at the cursor arrive and the decoder turns them down. *)
Definition header_rejected {F : Type} `{ReaderWriterCloser F}
  (pcap : PCAP F) (b0 : slice) : bool :=
  match read_into (rd pcap) (mkslice (backing b0) minPacketSize) (offset pcap),
        h pcap with
  | (b, _, None), Some hd =>
      match unmarshalPacketHeader (elems b) (snapLen hd) with
      | Returns (_, _, Some _) => true
      | _ => false
      end
  | _, _ => false
  end.

Definition classification {F : Type} `{ReaderWriterCloser F}
  (pcap : PCAP F) (o : op) (e : error) : ErrorCode :=
  match o with
  | OpWrite _ p =>
      match h pcap with
      | Some hd =>
          if len (Data p) + 10 >? snapLen hd then ErrSizeOverflow else ErrWrite
      | None => ErrOk
      end
  | OpRead b0 =>
      if header_rejected pcap b0 then ErrInvalidHeader
      else match e with
           | io_EOF => ErrNoMorePacket
           | _ => ErrRead
           end
  end.

(** ** Memory: slices that share an array

    A [Packet] is passed to [WritePacket] by value, but its [Data] is a
    slice: a window on an array that other slices can share.
    [ReadPacket] hands out [Data] on the array of the pooled buffer it
    has just put back, and [WritePacket] stores the header into the
    array of the pooled buffer it is given before it copies the payload;
    where the two are the same array the stores are seen through [Data].
    Here a slice is a reference into a heap of arrays, and the two
    operations read and write that heap. *)

Definition outcome_map {A B : Type} (f : A -> B) (c : outcome A) : outcome B :=
  match c with
  | Returns a => Returns (f a)
  | Panics why => Panics why
  end.

(** A packet with its payload bytes read off: the [Packet] of the
    sections above. *)
Definition PacketValue : Type := Packet.

Module Mem.

Definition heap : Type := list (list byte).

(** A Go slice value: the array it points into, where it starts, its
    length and its capacity. *)
Record sref : Type := mkref { arr : nat; soff : Z; rlen : Z; rcap : Z }.

Definition array (m : heap) (a : nat) : list byte := nth a m [].

Fixpoint set_array (m : heap) (a : nat) (v : list byte) : heap :=
  match m, a with
  | [], _ => []
  | _ :: m', O => v :: m'
  | x :: m', S a' => x :: set_array m' a' v
  end.

(** The slice as the operations on byte slices see it: the array from
    the slice's start to its capacity, and the length. *)
Definition view (m : heap) (r : sref) : slice :=
  mkslice (firstn (Z.to_nat (rcap r))
                  (skipn (Z.to_nat (soff r)) (array m (arr r))))
          (rlen r).

(** The heap once the stores made through the slice are in its array. *)
Definition put (m : heap) (r : sref) (s : slice) : heap :=
  let a := array m (arr r) in
  set_array m (arr r)
    (firstn (Z.to_nat (soff r)) a ++ backing s
       ++ skipn (Z.to_nat (soff r + rcap r)) a).

(** The slice value after [b = b[:n]]: the same array and start. *)
Definition resliced (r : sref) (s : slice) : sref :=
  mkref (arr r) (soff r) (slen s) (rcap r).

(** The bytes a slice shows at the moment. *)
Definition bytes (m : heap) (r : sref) : list byte := elems (view m r).

(** The slice lies within an array of the heap. *)
Definition wf (m : heap) (r : sref) : Prop :=
  (arr r < length m)%nat /\ 0 <= soff r /\ 0 <= rlen r <= rcap r /\
  soff r + rcap r <= len (array m (arr r)).

(** What [packetPool.Get()] may hand out: a slice at the start of an
    array, with the capacity the pool allocates with. *)
Definition pooled (m : heap) (r : sref) : Prop :=
  wf m r /\ soff r = 0 /\ rcap r = MaxSnapLength.

(** [m'] is [m] after stores into the array [a]: the other arrays are
    as they were, and no array has changed its size. *)
Definition stores_to (a : nat) (m m' : heap) : Prop :=
  length m' = length m /\
  (forall a', len (array m' a') = len (array m a')) /\
  (forall a', a' <> a -> array m' a' = array m a').

(** [Packet], with [Data] a slice into the heap. *)
Record Packet : Type := mk {
  Index : byte;
  PacketType : byte;
  Timestamp : Z;
  Len : Z;
  Data : sref
}.

(** The packet as a caller reads it off at the moment. *)
Definition value (m : heap) (p : Packet) : PacketValue :=
  mkPacket (Index p) (PacketType p) (Timestamp p) (Len p) (bytes m (Data p)).

(** [*Packet]: nil or the address of a packet variable. *)
Inductive ptr : Type :=
| nilptr
| addr (a : nat).

Section Calls.
Context {F : Type} `{ReaderWriterCloser F}.

(** [pcap.WritePacket(p)], with [b0] the slice [packetPool.Get()]
    handed out. The header stores go to the array of [b0]; [copy] then
    reads the payload through [p.Data] from the heap as it is by
    then. *)
Definition WritePacket (m : heap) (b0 : sref) (pcap : PCAP F) (p : Packet)
  : outcome (heap * PCAP F * Z * option error) :=
  hd <- deref (h pcap) ;;
  let isOverflow := rlen (Data p) + minPacketSize >? snapLen hd in
  if isOverflow
  then Returns (m, with_lasterr pcap ErrSizeOverflow, 0,
                Some (errors_New "cannot write packet to PCAP, because length of packet greater than snap length"))
  else
    let off := 0 in
    b <- reslice (view m b0) 0 ;;
    b <- reslice b (uint32 (minPacketSize + Len p)) ;;
    b <- store_index b 0 (Index p) ;;
    b <- store_index b 1 (PacketType p) ;;
    let off := off + 2 in
    b <- binary.PutUint32 b off (Timestamp p) ;;
    let off := off + 4 in
    b <- binary.PutUint32 b off (Len p) ;;
    let off := off + 4 in
    let m := put m b0 b in
    b <- copy_from b off (bytes m (Data p)) ;;
    let m := put m b0 b in
    let '(rd', n, err) := Write (rd pcap) (elems b) in
    let pcap := with_rd pcap rd' in
    match err with
    | Some e => Returns (m, with_lasterr pcap ErrWrite, 0, Some e)
    | None => Returns (m, with_fsize pcap (int64 (fsize pcap + n)), n, None)
    end.

(** [pcap.ReadPacket(p)], with [b0] the slice [packetPool.Get()] handed
    out. Both reads land in the array of [b0]; the packet stored
    through [p] has its [Data] on that array. *)
Definition ReadPacket (m : heap) (b0 : sref) (pcap : PCAP F) (p : ptr)
  : outcome (heap * PCAP F * option Packet * Z * option error) :=
  b <- reslice (view m b0) 0 ;;
  b <- reslice b minPacketSize ;;
  let '(b, n, err) := read_into (rd pcap) b (offset pcap) in
  let m := put m b0 b in
  match err with
  | Some e => Returns (m, with_lasterr pcap (read_failure e), None, 0, Some e)
  | None =>
      let pcap := with_offset pcap (int64 (offset pcap + n)) in
      hd <- deref (h pcap) ;;
      r <- unmarshalPacketHeader (elems b) (snapLen hd) ;;
      let '(ph, erroffset, err) := r in
      match err, ph with
      | Some e, _ =>
          let erroffset := int64 (erroffset + offset pcap) in
          Returns (m, with_lasterr pcap ErrInvalidHeader, None, 0,
                   Some (ParseError erroffset e))
      | None, None => Panics "invalid memory address or nil pointer dereference"
      | None, Some ph =>
          b <- reslice b (plen ph) ;;
          let '(b, n, err) := read_into (rd pcap) b (offset pcap) in
          let m := put m b0 b in
          match err with
          | Some e =>
              Returns (m, with_lasterr pcap (read_failure e), None, 0, Some e)
          | None =>
              match p with
              | nilptr => Panics "invalid memory address or nil pointer dereference"
              | addr _ =>
                  let q := mk (ifindex ph) (ptype ph) (timestamp ph) (plen ph)
                              (resliced b0 b) in
                  let pcap := with_count pcap (int32 (count pcap + 1)) in
                  let pcap := with_offset pcap (int64 (offset pcap + n)) in
                  Returns (m, pcap, Some q, minPacketSize + n, None)
              end
          end
      end
  end.

(** A caller's loop of [WritePacket] calls, as [WritePackets] above. *)
Fixpoint WritePackets (m : heap) (pcap : PCAP F) (ws : list (sref * Packet))
  : outcome (heap * PCAP F) :=
  match ws with
  | [] => Returns (m, pcap)
  | (b0, p) :: ws =>
      r <- WritePacket m b0 pcap p ;;
      let '(m, pcap, _, _) := r in
      WritePackets m pcap ws
  end.

(** A caller's read loop, [for pcap.Next() { pcap.ReadPacket(p); ... }],
    that takes each packet's fields and payload bytes as they stand when
    its call returns, before the next call; [bs] are the buffers the
    pool hands out, one for each call, and the loop ends at the first
    error. *)
Fixpoint ReadWhileNext (m : heap) (pcap : PCAP F) (bs : list sref) (p : ptr)
  : outcome (heap * PCAP F * list PacketValue * option error) :=
  match bs with
  | [] => Returns (m, pcap, [], None)
  | b0 :: bs =>
      if Next pcap
      then
        r <- ReadPacket m b0 pcap p ;;
        let '(m, pcap, q, _, err) := r in
        match err, q with
        | Some e, _ => Returns (m, pcap, [], Some e)
        | None, None => Returns (m, pcap, [], None)
        | None, Some q =>
            let v := value m q in
            r <- ReadWhileNext m pcap bs p ;;
            let '(m, pcap, vs, err) := r in
            Returns (m, pcap, v :: vs, err)
        end
      else Returns (m, pcap, [], None)
  end.

End Calls.

(** What a call shows once the heap is set aside. *)
Definition written_result {F : Type}
  (r : heap * PCAP F * Z * option error) : PCAP F * Z * option error :=
  let '(_, pcap, n, err) := r in (pcap, n, err).

Definition read_result {F : Type}
  (r : heap * PCAP F * option Packet * Z * option error)
  : PCAP F * option PacketValue * Z * option error :=
  let '(m, pcap, q, n, err) := r in (pcap, option_map (value m) q, n, err).

End Mem.

(** A heap of two arrays: the one the pool allocated, and a caller's
    array of three bytes. *)
Definition sample_heap : Mem.heap :=
  [repeat Byte.x00 (Z.to_nat MaxSnapLength); [Byte.x61; Byte.x62; Byte.x63]].

(** The slice [packetPool.New()] returns, on the pool's array. *)
Definition pool_buffer : Mem.sref := Mem.mkref 0 0 0 MaxSnapLength.

(** [packet_abc] and [packet_short_len] with their payloads in the
    caller's array. *)
Definition abc_on_heap : Mem.Packet :=
  Mem.mk Byte.x04 Byte.x02 77 3 (Mem.mkref 1 0 3 3).
Definition short_len_on_heap : Mem.Packet :=
  Mem.mk Byte.x04 Byte.x02 77 0 (Mem.mkref 1 0 1 3).

(** The pool's array with bytes left in it by an earlier use, and a
    packet whose [Len] field overstates its payload, the first byte of
    the caller's array, by two. *)
Definition used_heap : Mem.heap :=
  [repeat Byte.x2a (Z.to_nat MaxSnapLength); [Byte.x61; Byte.x62; Byte.x63]].
Definition over_len_on_heap : Mem.Packet :=
  Mem.mk Byte.x04 Byte.x02 77 3 (Mem.mkref 1 0 1 3).

(** ** A file on a device that can fail a write part way

    [os.File.Write] can return an error after some of the bytes have
    been written. [fails f b] says, for a write of [b] to the file [f],
    whether the device takes all of it ([None]) or answers with an error
    after the first [k] bytes ([Some (k, e)]). Reads and closing are
    those of the file. *)

Record Device : Type := mkDevice {
  file : File;
  fails : File -> list byte -> option (Z * error)
}.

Definition Device_ReadAt (d : Device) (n off : Z) : list byte * option error :=
  File_ReadAt (file d) n off.

Definition Device_Write (d : Device) (b : list byte)
  : Device * Z * option error :=
  if closed (file d) || negb (writable (file d))
  then let '(f', n, err) := File_Write (file d) b in
       (mkDevice f' (fails d), n, err)
  else
    match fails d (file d) b with
    | None =>
        let '(f', n, err) := File_Write (file d) b in
        (mkDevice f' (fails d), n, err)
    | Some (k, e) =>
        let '(f', n, _) := File_Write (file d) (firstn (Z.to_nat k) b) in
        (mkDevice f' (fails d), n, Some e)
    end.

Definition Device_Close (d : Device) : Device * option error :=
  let '(f', err) := File_Close (file d) in (mkDevice f' (fails d), err).

#[export] Instance Device_ReaderWriterCloser : ReaderWriterCloser Device := {
  ReadAt := Device_ReadAt;
  Write := Device_Write;
  CloseStore := Device_Close
}.

(** The session's counters describe the file on the device, as
    [tracks_file] above. *)
Definition tracks_device (pcap : PCAP Device) : Prop :=
  0 <= offset pcap <= fsize pcap /\
  fsize pcap = len (content (file (rd pcap))) /\
  (writable (file (rd pcap)) = true ->
   fpos (file (rd pcap)) = len (content (file (rd pcap)))).

(** A device that takes five bytes of any write and then reports that
    it is full. *)
Definition full_device (f : File) : Device :=
  mkDevice f (fun _ _ => Some (5, os_PathError "write" "no space left on device")).

(** A session made by [Create] on a full device, and the session and
    file a write of [packet_abc] leaves there: five bytes of the frame
    are in the file, and the tracked size is still 14. *)
Definition full_session : PCAP Device :=
  mkPCAP (Some created_fileHeader)
         (full_device (mkFile created_header 14 true true false))
         0 14 false ErrOk 14.
Definition torn_session : PCAP Device :=
  mkPCAP (Some created_fileHeader)
         (full_device (mkFile (created_header ++ firstn 5 (frame packet_abc))
                              19 true true false))
         0 14 false ErrWrite 14.

(** * Properties *)

(** ** Lists and slices *)

Lemma len_nonneg {A : Type} (l : list A) : 0 <= len l.
Proof. unfold len; lia. Qed.

Lemma len_app {A : Type} (l1 l2 : list A) : len (l1 ++ l2) = len l1 + len l2.
Proof. unfold len; rewrite length_app; lia. Qed.

Lemma overlay_after (pre rest bs : list byte) (off : Z) :
  len pre = off ->
  overlay (pre ++ rest) off bs = pre ++ bs ++ skipn (length bs) rest.
Proof.
  unfold overlay, len; intros Hoff.
  assert (Hn : Z.to_nat off = length pre) by lia.
  rewrite Hn, firstn_app, firstn_all, Nat.sub_diag, firstn_O, app_nil_r.
  replace (Z.to_nat (off + Z.of_nat (length bs)))
    with (length pre + length bs)%nat by lia.
  rewrite skipn_app, skipn_all2 by lia.
  replace (length pre + length bs - length pre)%nat with (length bs) by lia.
  reflexivity.
Qed.

Lemma overlay_front (l bs : list byte) :
  overlay l 0 bs = bs ++ skipn (length bs) l.
Proof. apply (overlay_after [] l bs 0); reflexivity. Qed.

Lemma firstn_exact {A : Type} (l1 l2 : list A) (n : nat) :
  n = length l1 -> firstn n (l1 ++ l2) = l1.
Proof.
  intros ->. rewrite firstn_app, firstn_all, Nat.sub_diag, firstn_O.
  apply app_nil_r.
Qed.

Lemma skipn_exact {A : Type} (l1 l2 : list A) (n : nat) :
  n = length l1 -> skipn n (l1 ++ l2) = l2.
Proof.
  intros ->. rewrite skipn_app, skipn_all, Nat.sub_diag. reflexivity.
Qed.

(** ** Fixed-width integers *)

Lemma int64_small (z : Z) : - 2 ^ 63 <= z < 2 ^ 63 -> int64 z = z.
Proof. intros Hz. unfold int64. rewrite Z.mod_small; lia. Qed.

Lemma uint32_small (z : Z) : is_uint32 z -> uint32 z = z.
Proof. intros Hz. apply Z.mod_small. exact Hz. Qed.

(** ** encoding/binary *)

Lemma Uint16_field (b0 b1 : byte) (t : list byte) :
  binary.Uint16 (b0 :: b1 :: t) = Returns (le_combine [b0; b1]).
Proof.
  cbv [binary.Uint16]. f_equal.
  change (le_combine [b0; b1])
    with (Z.lor (byte.unsigned b0)
            (Z.shiftl (Z.lor (byte.unsigned b1) (Z.shiftl 0 8)) 8)).
  rewrite Z.shiftl_0_l, Z.lor_0_r. reflexivity.
Qed.

Lemma Uint32_field (b0 b1 b2 b3 : byte) (t : list byte) :
  binary.Uint32 (b0 :: b1 :: b2 :: b3 :: t) = Returns (le_combine [b0; b1; b2; b3]).
Proof.
  cbv [binary.Uint32]. f_equal.
  change (le_combine [b0; b1; b2; b3])
    with (Z.lor (byte.unsigned b0)
            (Z.shiftl (Z.lor (byte.unsigned b1)
               (Z.shiftl (Z.lor (byte.unsigned b2)
                  (Z.shiftl (Z.lor (byte.unsigned b3) (Z.shiftl 0 8)) 8)) 8)) 8)).
  rewrite Z.shiftl_0_l, Z.lor_0_r.
  rewrite !Z.shiftl_lor, !Z.shiftl_shiftl, !Z.lor_assoc by lia.
  reflexivity.
Qed.

Lemma Uint32_bytes32 (v : Z) (t : list byte) :
  is_uint32 v -> binary.Uint32 (binary.bytes32 v ++ t) = Returns v.
Proof.
  intros Hv. unfold binary.bytes32. cbn [app].
  rewrite Uint32_field. f_equal.
  change [byte.of_Z v; byte.of_Z (Z.shiftr v 8); byte.of_Z (Z.shiftr v 16);
          byte.of_Z (Z.shiftr v 24)] with (le_split 4 v).
  rewrite le_combine_split. apply Z.mod_small. exact Hv.
Qed.

(** ** Byte sequences of a known length *)

Ltac explode b H :=
  let rec go _ :=
    lazymatch type of H with
    | length ?l = O => destruct l; [clear H | discriminate H]
    | length ?l = S _ =>
        destruct l as [|? ?]; [discriminate H|];
        simpl in H; apply Nat.succ_inj in H; go tt
    end in
  go tt.

Lemma from_skipn (b : list byte) (off : Z) :
  0 <= off <= len b -> from b off = Returns (skipn (Z.to_nat off) b).
Proof.
  intros [H0 H1]. unfold from.
  destruct (Z.leb_spec 0 off); [|lia].
  destruct (Z.leb_spec off (len b)); [|lia].
  reflexivity.
Qed.

(** One step through a decoder on an input of known shape. *)
Ltac decode_step :=
  first
    [ rewrite from_skipn by (unfold len; simpl; lia);
      match goal with
      | |- context [Z.to_nat ?z] =>
          let n := eval compute in (Z.to_nat z) in
          change (Z.to_nat z) with n
      end;
      cbn [skipn bind]
    | rewrite Uint16_field; cbn [bind]
    | rewrite Uint32_field; cbn [bind] ].

(** ** The file header decoder *)

(** The decoder on fourteen bytes, branch by branch, in terms of the
    little-endian fields of its input. *)
Lemma unmarshalFileHeader_cases (b : list byte) :
  length b = 14%nat ->
  unmarshalFileHeader b =
    if negb (field b 0 2 =? lpcapmx)
    then Returns (None, 0,
           Some (errors_New "cannot parse PCAP file, invalid magix number"))
    else if field b 2 2 =? 0
    then Returns (None, 2,
           Some (errors_New "cannot parse PCAP file, invalid major version (is nil)"))
    else if field b 4 2 =? 0
    then Returns (None, 4,
           Some (errors_New "cannot parse PCAP file, invalid minor version (is nil)"))
    else if negb (field b 10 4 =? LinkTypeEthernet2)
            && negb (field b 10 4 =? LinkTypeEthernet80211)
    then Returns (None, 10,
           Some (errors_New "cannot parse PCAP file, link type is undefined"))
    else Returns (Some (mkFileHeader (field b 0 2) (field b 2 2) (field b 4 2)
                                     (field b 6 4) 0), 0, None).
Proof.
  intros Hlen. explode b Hlen.
  unfold unmarshalFileHeader, field. cbn [skipn firstn].
  repeat decode_step.
  destruct (negb _); [reflexivity|].
  repeat decode_step.
  cbn [with_mx with_majorVer with_minorVer with_snapLen
       mx majorVer minorVer snapLen link zero_fileHeader].
  destruct (_ =? 0); [reflexivity|].
  repeat decode_step.
  destruct (_ =? 0); [reflexivity|].
  repeat decode_step.
  destruct (negb _ && negb _); reflexivity.
Qed.

(** C7: on every fourteen-byte input it accepts, the file header decoder
    returns offset 0 and a header whose magic, versions and snap length
    are the decoded little-endian fields, but whose link type is the
    zero value [LinkTypeNull] and not the decoded link-type word: the
    link type is validated and then dropped. *)
Theorem unmarshalFileHeader_drops_link (b : list byte) (hd : fileHeader) :
  length b = 14%nat ->
  unmarshalFileHeader b = Returns (Some hd, 0, None) ->
  mx hd = field b 0 2 /\ majorVer hd = field b 2 2 /\
  minorVer hd = field b 4 2 /\ snapLen hd = field b 6 4 /\
  link hd = LinkTypeNull /\ field b 10 4 <> link hd.
Proof.
  intros Hlen Hok. rewrite (unmarshalFileHeader_cases b Hlen) in Hok.
  destruct (negb (field b 0 2 =? lpcapmx)); [discriminate|].
  destruct (field b 2 2 =? 0); [discriminate|].
  destruct (field b 4 2 =? 0); [discriminate|].
  destruct (Z.eqb_spec (field b 10 4) LinkTypeEthernet2) as [E2|N2];
    destruct (Z.eqb_spec (field b 10 4) LinkTypeEthernet80211) as [E8|N8];
    cbn [negb andb] in Hok; try discriminate;
    injection Hok as <-; cbn [mx majorVer minorVer snapLen link];
    repeat split; try reflexivity; try rewrite E2; try rewrite E8; discriminate.
Qed.

Lemma unmarshalFileHeader_drops_link_witness :
  link (mkFileHeader lpcapmx 1 1 MaxSnapLength 0) = LinkTypeNull /\
  field readable_header 10 4 <> link (mkFileHeader lpcapmx 1 1 MaxSnapLength 0).
Proof.
  apply (unmarshalFileHeader_drops_link readable_header
           (mkFileHeader lpcapmx 1 1 MaxSnapLength 0)).
  - reflexivity.
  - vm_compute. reflexivity.
Defined.

(** C9: the file header decoder never looks at the snap length it
    reads: every fourteen-byte input with the magic number, nonzero
    versions and an accepted link type decodes, whatever its snap-length
    word, zero included. *)
Theorem unmarshalFileHeader_ignores_snapLen (b : list byte) :
  length b = 14%nat ->
  field b 0 2 = lpcapmx ->
  field b 2 2 <> 0 ->
  field b 4 2 <> 0 ->
  field b 10 4 = LinkTypeEthernet2 \/ field b 10 4 = LinkTypeEthernet80211 ->
  exists hd, unmarshalFileHeader b = Returns (Some hd, 0, None) /\
             snapLen hd = field b 6 4.
Proof.
  intros Hlen Hmx Hmaj Hmin Hlink.
  rewrite (unmarshalFileHeader_cases b Hlen).
  destruct (Z.eqb_spec (field b 0 2) lpcapmx); [|contradiction].
  destruct (Z.eqb_spec (field b 2 2) 0); [contradiction|].
  destruct (Z.eqb_spec (field b 4 2) 0); [contradiction|].
  cbn [negb].
  destruct (Z.eqb_spec (field b 10 4) LinkTypeEthernet2);
    destruct (Z.eqb_spec (field b 10 4) LinkTypeEthernet80211);
    cbn [negb andb]; try (eexists; split; reflexivity).
  destruct Hlink; contradiction.
Qed.

Lemma unmarshalFileHeader_ignores_snapLen_witness :
  field zero_snap_header 6 4 = 0 /\
  exists hd, unmarshalFileHeader zero_snap_header = Returns (Some hd, 0, None) /\
             snapLen hd = field zero_snap_header 6 4.
Proof.
  split; [reflexivity|].
  apply (unmarshalFileHeader_ignores_snapLen zero_snap_header).
  - reflexivity.
  - reflexivity.
  - vm_compute. discriminate.
  - vm_compute. discriminate.
  - left. reflexivity.
Defined.

(** ** The packet header decoder *)

(** C8: on ten bytes and a bound [maxLen] the packet header decoder
    fails at offset 0 when the type byte is none of the three packet
    classes, else at offset 2 when the timestamp is zero, else at offset
    6 when the declared length exceeds [maxLen], and else succeeds with
    offset 0 and the decoded interface index, type, timestamp and
    length. *)
Theorem unmarshalPacketHeader_spec (b : list byte) (maxLen : Z) :
  length b = 10%nat ->
  (~ is_packet_class (nth 1 b Byte.x00) ->
   exists e, unmarshalPacketHeader b maxLen = Returns (None, 0, Some e)) /\
  (is_packet_class (nth 1 b Byte.x00) -> field b 2 4 = 0 ->
   exists e, unmarshalPacketHeader b maxLen = Returns (None, 2, Some e)) /\
  (is_packet_class (nth 1 b Byte.x00) -> field b 2 4 <> 0 ->
   field b 6 4 > maxLen ->
   exists e, unmarshalPacketHeader b maxLen = Returns (None, 6, Some e)) /\
  (is_packet_class (nth 1 b Byte.x00) -> field b 2 4 <> 0 ->
   field b 6 4 <= maxLen ->
   unmarshalPacketHeader b maxLen =
     Returns (Some (mkPacketHeader (nth 0 b Byte.x00) (nth 1 b Byte.x00)
                                   (field b 2 4) (field b 6 4)), 0, None)).
Proof.
  intros Hlen. explode b Hlen.
  unfold unmarshalPacketHeader, field, is_packet_class, index.
  cbn [nth nth_error skipn firstn bind].
  destruct (Z.eqb_spec (byte.unsigned b0) PacketTypeBroadcast) as [Eb|Nb];
    destruct (Z.eqb_spec (byte.unsigned b0) PacketTypeUnicast) as [Eu|Nu];
    destruct (Z.eqb_spec (byte.unsigned b0) PacketTypeMulticast) as [Em|Nm];
    cbn [negb andb];
    try (repeat split; intros;
         solve [ eexists; reflexivity | tauto ]);
    repeat decode_step;
    (destruct (Z.eqb_spec (le_combine [b1; b2; b3; b4]) 0) as [Et|Nt];
     [ repeat split; intros; solve [ eexists; reflexivity | tauto ] | ]);
    repeat decode_step;
    (destruct (Z.gtb_spec (le_combine [b5; b6; b7; b8]) maxLen) as [Hl|Hl];
     repeat split; intros;
     solve [ eexists; reflexivity | tauto | reflexivity | lia ]).
Qed.

Lemma unmarshalPacketHeader_spec_witness :
  unmarshalPacketHeader sample_packet_header MaxSnapLength =
    Returns (Some (mkPacketHeader Byte.x04 Byte.x02 77 3), 0, None).
Proof.
  apply (unmarshalPacketHeader_spec sample_packet_header MaxSnapLength eq_refl).
  - left. reflexivity.
  - vm_compute. discriminate.
  - vm_compute. discriminate.
Defined.

(** ** Create and Open *)

Lemma write_at_front (c b : list byte) :
  write_at c 0 b = b ++ skipn (length b) c.
Proof.
  unfold write_at.
  replace (Z.to_nat (0 - len c)) with 0%nat by (unfold len; lia).
  cbn [repeat]. rewrite app_nil_r. apply overlay_front.
Qed.

(** What [Create] puts together before it writes. *)
Lemma Create_unfold (path : path_state) :
  Create path =
    match os_OpenFile_RDWR_CREATE path with
    | inr err => Returns (None, Some err)
    | inl f =>
        let hd := mkFileHeader lpcapmx MajorVer MinorVer MaxSnapLength
                               LinkTypeEthernet2 in
        let '(f', n, err) := Write f created_header in
        match err with
        | Some e => Returns (None, Some e)
        | None => Returns (Some (mkPCAP (Some hd) f' 0 (int64 (0 + n)) false
                                        ErrOk minFileSize), None)
        end
    end.
Proof.
  unfold Create. destruct (os_OpenFile_RDWR_CREATE path) as [f|e]; reflexivity.
Qed.

(** A session that [Create] returned: the header it holds, the file
    behind it, and its counters. *)
Lemma Create_spec (path : path_state) (p : PCAP File) :
  Create path = Returns (Some p, None) ->
  p = mkPCAP (Some (mkFileHeader lpcapmx 1 0 MaxSnapLength LinkTypeEthernet2))
             (mkFile (created_header ++ skipn 14 (prior_content path))
                     14 true true false)
             0 14 false ErrOk 14.
Proof.
  rewrite Create_unfold.
  destruct path as [|c|e]; cbn [os_OpenFile_RDWR_CREATE]; [| |discriminate];
    cbv [Write File_ReaderWriterCloser File_Write closed writable negb
         content fpos readable];
    rewrite write_at_front; intros Hp; injection Hp as <-; reflexivity.
Qed.

Lemma Create_NoFile :
  Create NoFile =
    Returns (Some (mkPCAP (Some (mkFileHeader lpcapmx 1 0 MaxSnapLength
                                              LinkTypeEthernet2))
                          (mkFile created_header 14 true true false)
                          0 14 false ErrOk 14), None).
Proof. vm_compute. reflexivity. Qed.

(** [Open] on a file of at least fourteen bytes is the header decoder
    on its first fourteen bytes, a failure wrapped with its offset. *)
Lemma Open_RegularFile (c : list byte) :
  14 <= len c ->
  Open (RegularFile c) =
    r <- unmarshalFileHeader (firstn 14 c) ;;
    let '(header, erroffset, err) := r in
    match err with
    | Some e => Returns (None, Some (ParseError erroffset e))
    | None => Returns (Some (mkPCAP header (mkFile c 0 true false false)
                                    0 14 false 0 (len c)), None)
    end.
Proof.
  intros Hc. unfold Open. cbn [os_Open content].
  destruct (Z.ltb_spec (len c) minFileSize) as [Hlt|_];
    [unfold minFileSize in Hlt; lia|].
  assert (Hgot : length (firstn 14 c) = 14%nat)
    by (rewrite length_firstn; unfold len in Hc; lia).
  unfold read_into.
  cbv [ReadAt File_ReaderWriterCloser File_ReadAt closed readable content negb].
  change (slen (make minFileSize)) with 14.
  change (0 <? 0) with false. change (14 <=? 0) with false. cbv iota.
  change (Z.to_nat 14) with 14%nat. change (Z.to_nat 0) with 0%nat.
  cbn [skipn].
  destruct (Z.ltb_spec (len (firstn 14 c)) 14) as [Hlt|_];
    [unfold len in Hlt; lia|].
  rewrite firstn_firstn. cbn [Nat.min].
  unfold elems. cbn [backing slen].
  change (Z.to_nat minFileSize) with 14%nat.
  rewrite overlay_front, Hgot. cbn [repeat skipn]. rewrite app_nil_r.
  rewrite firstn_all2 by lia.
  replace (len (firstn 14 c)) with 14 by (unfold len; lia).
  reflexivity.
Qed.

(** C1: the link-type constants are Null=0, Ethernet2=4, Ethernet80211=8
    and FDDI=16; the header [Create] writes carries the word 4
    ([LinkTypeEthernet2]), and a fourteen-byte input the file header
    decoder accepts carries the word 4 or 8. *)
Theorem LinkType_on_disk (path : path_state) (p : PCAP File)
    (b : list byte) (hd : fileHeader) :
  Create path = Returns (Some p, None) ->
  length b = 14%nat ->
  unmarshalFileHeader b = Returns (Some hd, 0, None) ->
  (LinkTypeNull = 0 /\ LinkTypeEthernet2 = 4 /\
   LinkTypeEthernet80211 = 8 /\ LinkTypeFDDI = 16) /\
  field (content (rd p)) 10 4 = LinkTypeEthernet2 /\
  (field b 10 4 = LinkTypeEthernet2 \/ field b 10 4 = LinkTypeEthernet80211).
Proof.
  intros Hc Hlen Hok. split; [repeat split|split].
  - rewrite (Create_spec path p Hc). reflexivity.
  - rewrite (unmarshalFileHeader_cases b Hlen) in Hok.
    destruct (negb (field b 0 2 =? lpcapmx)); [discriminate|].
    destruct (field b 2 2 =? 0); [discriminate|].
    destruct (field b 4 2 =? 0); [discriminate|].
    destruct (Z.eqb_spec (field b 10 4) LinkTypeEthernet2) as [E2|N2];
      [left; exact E2|].
    destruct (Z.eqb_spec (field b 10 4) LinkTypeEthernet80211) as [E8|N8];
      [right; exact E8|].
    discriminate.
Qed.

Lemma LinkType_on_disk_witness :
  field created_header 10 4 = LinkTypeEthernet2 /\
  (field wifi_header 10 4 = LinkTypeEthernet2 \/
   field wifi_header 10 4 = LinkTypeEthernet80211).
Proof.
  apply (LinkType_on_disk NoFile
           (mkPCAP (Some (mkFileHeader lpcapmx 1 0 MaxSnapLength LinkTypeEthernet2))
                   (mkFile created_header 14 true true false)
                   0 14 false ErrOk 14)
           wifi_header (mkFileHeader lpcapmx 1 1 MaxSnapLength 0)).
  - vm_compute. reflexivity.
  - reflexivity.
  - vm_compute. reflexivity.
Defined.

(** The link-type word of a created header is not 2, the decoder turns
    the word 2 down at offset 10, and it lets the word 8 through. *)
Lemma LinkType_on_disk_counterexample :
  (exists p, Create NoFile = Returns (Some p, None) /\
             field (content (rd p)) 10 4 <> 2) /\
  ~ (LinkTypeNull = 0 /\ LinkTypeEthernet2 = 2 /\
     LinkTypeEthernet80211 = 4 /\ LinkTypeFDDI = 8) /\
  (exists hd, unmarshalFileHeader wifi_header = Returns (Some hd, 0, None) /\
              field wifi_header 10 4 <> 2 /\ field wifi_header 10 4 <> 4).
Proof.
  split; [|split].
  - eexists. split; [apply Create_NoFile|]. vm_compute. discriminate.
  - intros (_ & H2 & _). vm_compute in H2. discriminate.
  - eexists. split; [vm_compute; reflexivity|].
    split; vm_compute; discriminate.
Qed.

(** ** Writing behind the header *)

Lemma write_at_keeps_front (c b : list byte) (pos : Z) :
  14 <= pos -> 14 <= len c ->
  firstn 14 (write_at c pos b) = firstn 14 c /\ 14 <= len (write_at c pos b).
Proof.
  intros Hpos Hc. unfold write_at, overlay.
  set (X := c ++ repeat Byte.x00 (Z.to_nat (pos - len c))).
  assert (HX : (Z.to_nat pos <= length X)%nat).
  { subst X. rewrite length_app, repeat_length. unfold len in *. lia. }
  assert (Hpre : length (firstn (Z.to_nat pos) X) = Z.to_nat pos)
    by (rewrite length_firstn; lia).
  split.
  - rewrite firstn_app, Hpre, firstn_firstn.
    replace (14 - Z.to_nat pos)%nat with 0%nat by lia.
    replace (Nat.min 14 (Z.to_nat pos)) with 14%nat by lia.
    rewrite firstn_O, app_nil_r. subst X.
    rewrite firstn_app.
    replace (14 - length c)%nat with 0%nat by (unfold len in Hc; lia).
    rewrite firstn_O. apply app_nil_r.
  - unfold len. rewrite length_app, Hpre. lia.
Qed.

Lemma File_Write_keeps_header (f f' : File) (hdr b : list byte) (n : Z)
    (err : option error) :
  keeps_header f hdr -> File_Write f b = (f', n, err) -> keeps_header f' hdr.
Proof.
  intros (Hpos & Hc & Hhdr). unfold File_Write.
  destruct (closed f); [intros [= <- _ _]; repeat split; assumption|].
  destruct (negb (writable f)); [intros [= <- _ _]; repeat split; assumption|].
  intros [= <- _ _]. unfold keeps_header. cbn [fpos content].
  destruct (write_at_keeps_front (content f) b (fpos f) Hpos Hc) as [H1 H2].
  pose proof (len_nonneg b).
  repeat split; [lia | exact H2 | rewrite H1; exact Hhdr].
Qed.

(** Peeling the calls off a run that returned. *)
Ltac returned H :=
  repeat
    match type of H with
    | bind ?c _ = Returns _ =>
        let E := fresh "E" in
        destruct c eqn:E; cbn [bind] in H; [|discriminate H]
    | (if ?c then _ else _) = Returns _ =>
        let E := fresh "E" in destruct c eqn:E
    | (let '(_, _) := ?c in _) = Returns _ =>
        let E := fresh "E" in destruct c eqn:E
    | match ?c with Some _ => _ | None => _ end = Returns _ =>
        let E := fresh "E" in destruct c eqn:E
    end.

Lemma WritePacket_keeps_header (b0 : slice) (pcap pcap' : PCAP File)
    (p : Packet) (n : Z) (err : option error) (hdr : list byte) :
  keeps_header (rd pcap) hdr ->
  WritePacket b0 pcap p = Returns (pcap', n, err) ->
  keeps_header (rd pcap') hdr.
Proof.
  intros Hk Hw. unfold WritePacket in Hw. returned Hw;
    injection Hw as <- _ _; cbn [rd with_lasterr with_rd with_fsize];
    try exact Hk;
    match goal with
    | E : Write _ _ = _ |- _ => exact (File_Write_keeps_header _ _ _ _ _ _ Hk E)
    end.
Qed.

Lemma WritePackets_keeps_header (ws : list (slice * Packet))
    (pcap pcap' : PCAP File) (hdr : list byte) :
  keeps_header (rd pcap) hdr ->
  WritePackets pcap ws = Returns pcap' ->
  keeps_header (rd pcap') hdr.
Proof.
  revert pcap. induction ws as [|[b0 p] ws IH]; intros pcap Hk Hw.
  - injection Hw as <-. exact Hk.
  - cbn [WritePackets] in Hw.
    destruct (WritePacket b0 pcap p) as [[[pcap1 n] err]|] eqn:E;
      cbn [bind] in Hw; [|discriminate].
    apply (IH pcap1); [|exact Hw].
    exact (WritePacket_keeps_header _ _ _ _ _ _ _ Hk E).
Qed.

(** C2: a file that [Create] made, with whatever packets written to it
    afterwards, is turned down by [Open]: the header [Create] writes has
    minor version [MinorVer] = 0, which the file header decoder rejects
    at offset 4. *)
Theorem Open_rejects_created (path : path_state) (ws : list (slice * Packet))
    (pcap pcap' : PCAP File) :
  Create path = Returns (Some pcap, None) ->
  WritePackets pcap ws = Returns pcap' ->
  Open (on_disk pcap') =
    Returns (None,
             Some (ParseError 4
                     (errors_New "cannot parse PCAP file, invalid minor version (is nil)"))).
Proof.
  intros Hc Hw.
  assert (Hk : keeps_header (rd pcap) created_header).
  { rewrite (Create_spec path pcap Hc). unfold keeps_header. cbn [rd fpos content].
    split; [lia|split].
    - rewrite len_app. change (len created_header) with 14.
      pose proof (len_nonneg (skipn 14 (prior_content path))). lia.
    - apply firstn_exact. reflexivity. }
  destruct (WritePackets_keeps_header ws pcap pcap' created_header Hk Hw)
    as (_ & Hlen & Hhdr).
  unfold on_disk. rewrite (Open_RegularFile _ Hlen), Hhdr.
  vm_compute. reflexivity.
Qed.

Lemma Open_rejects_created_witness :
  exists pcap pcap',
    Create NoFile = Returns (Some pcap, None) /\
    WritePackets pcap [(packetPool_New, packet_abc)] = Returns pcap' /\
    len (content (rd pcap')) = 27 /\
    Open (on_disk pcap') =
      Returns (None,
               Some (ParseError 4
                       (errors_New "cannot parse PCAP file, invalid minor version (is nil)"))).
Proof.
  eexists. eexists.
  split; [apply Create_NoFile|].
  split; [vm_compute; reflexivity|].
  split; [vm_compute; reflexivity|].
  eapply (Open_rejects_created NoFile [(packetPool_New, packet_abc)]).
  - apply Create_NoFile.
  - vm_compute. reflexivity.
Defined.

(** ** The session over any byte store *)

Section SessionProperties.
Context {F : Type} `{ReaderWriterCloser F}.

(** C6: a packet whose payload with the ten header bytes exceeds the
    snap length of the session's header is refused: [WritePacket]
    returns 0 and an error, records [ErrSizeOverflow], and leaves the
    store, the tracked size and every other field as they were. *)
Theorem WritePacket_overflow (b0 : slice) (pcap : PCAP F) (hd : fileHeader)
    (p : Packet) :
  h pcap = Some hd ->
  len (Data p) + 10 > snapLen hd ->
  exists pcap' e,
    WritePacket b0 pcap p = Returns (pcap', 0, Some e) /\
    LastError pcap' = ErrSizeOverflow /\
    rd pcap' = rd pcap /\ fsize pcap' = fsize pcap /\
    offset pcap' = offset pcap /\ count pcap' = count pcap /\
    h pcap' = h pcap /\ isClosed pcap' = isClosed pcap.
Proof.
  intros Hh Hbig. unfold WritePacket. rewrite Hh. cbn [deref bind].
  destruct (Z.gtb_spec (len (Data p) + minPacketSize) (snapLen hd)) as [_|Hle];
    [|unfold minPacketSize in Hle; lia].
  eexists. eexists. split; [reflexivity|].
  cbn. rewrite Hh. repeat split; reflexivity.
Qed.

(** C10: the overflow check of [WritePacket] looks at the payload
    only. A packet that passes it and whose [Len] field exceeds
    [MaxSnapLength] - 10 makes [WritePacket] panic; unless [10 + Len]
    wraps around in 32 bits, the panic is the reslice of the pooled
    buffer beyond its capacity. *)
Theorem WritePacket_long_Len_panics (b0 : slice) (pcap : PCAP F)
    (hd : fileHeader) (p : Packet) :
  pooled b0 ->
  h pcap = Some hd ->
  len (Data p) + 10 <= snapLen hd ->
  is_uint32 (Len p) ->
  MaxSnapLength - 10 < Len p ->
  (exists why, WritePacket b0 pcap p = Panics why) /\
  (10 + Len p < 2 ^ 32 ->
   WritePacket b0 pcap p = Panics "slice bounds out of range").
Proof.
  intros [Hcap Hslen] Hh Hfits [HL0 HL1] Hlong.
  unfold WritePacket. rewrite Hh. cbn [deref bind].
  destruct (Z.gtb_spec (len (Data p) + minPacketSize) (snapLen hd)) as [Hgt|_];
    [unfold minPacketSize in Hgt; lia|].
  assert (Hre : reslice b0 0 = Returns (mkslice (backing b0) 0)).
  { unfold reslice. rewrite Hcap. reflexivity. }
  rewrite Hre. cbn [bind]. unfold reslice, cap in *. cbn [backing].
  rewrite Hcap. unfold minPacketSize, uint32.
  change MaxSnapLength with 16383 in *.
  destruct (Z.lt_ge_cases (10 + Len p) (2 ^ 32)) as [Hnowrap|Hwrap].
  - rewrite Z.mod_small by lia.
    destruct (Z.leb_spec 0 (10 + Len p)); [|lia].
    destruct (Z.leb_spec (10 + Len p) 16383); [lia|].
    cbn [andb bind]. split; [eexists|intros _]; reflexivity.
  - split; [|lia].
    replace ((10 + Len p) mod 2 ^ 32) with (10 + Len p - 2 ^ 32)
      by (apply Z.mod_unique with (q := 1); lia).
    set (v := 10 + Len p - 2 ^ 32).
    assert (Hv : 0 <= v < 10) by (subst v; lia). clearbody v.
    destruct (Z.leb_spec 0 v); [|lia].
    destruct (Z.leb_spec v 16383); [|lia].
    cbn [andb bind]. unfold store_index, binary.PutUint32. cbn [slen bind].
    repeat
      match goal with
      | |- exists why, Panics _ = Panics why => eexists; reflexivity
      | |- context [?a <=? ?b] =>
          destruct (Z.leb_spec a b); cbn [andb bind slen]
      | |- context [?a <? ?b] =>
          destruct (Z.ltb_spec a b); cbn [andb bind slen]
      end;
      lia.
Qed.

(** C3: once [Close] has succeeded the session holds no header, and
    [WritePacket] dereferences it: the call panics instead of
    returning an error.  A second [Close] does return the error that
    the file is already closed. *)
Theorem WritePacket_after_Close_panics (b0 : slice) (pcap : PCAP F)
    (p : Packet) :
  isClosed pcap = false ->
  isClosed (fst (Close pcap)) = true /\
  h (fst (Close pcap)) = None /\
  WritePacket b0 (fst (Close pcap)) p =
    Panics "invalid memory address or nil pointer dereference" /\
  snd (Close (fst (Close pcap))) = Some (errors_New "file is already closed").
Proof.
  intros Hopen. unfold Close at 1 2 3 5. rewrite Hopen.
  cbn [rd with_h with_count with_offset with_isClosed with_lasterr with_fsize].
  destruct (CloseStore (rd pcap)) as [rd' err].
  cbn [fst isClosed h with_rd]. repeat split.
Qed.

(** *** The last error *)

Lemma read_failure_code (e : error) : In (read_failure e) failure_codes.
Proof. destruct e; cbn; auto 6. Qed.

Lemma ReadPacket_lasterr (b0 : slice) (pcap pcap' : PCAP F)
    (pk : option Packet) (n : Z) (err : option error) :
  ReadPacket b0 pcap = Returns (pcap', pk, n, err) ->
  (err = None -> lasterr pcap' = lasterr pcap) /\
  (err <> None -> In (lasterr pcap') failure_codes).
Proof.
  intros Hr. unfold ReadPacket in Hr. returned Hr; try discriminate Hr;
    injection Hr as <- _ _ <-; cbn [lasterr with_lasterr with_offset with_count];
    (split; [intros; try discriminate; reflexivity | intros Hn]);
    try (exfalso; apply Hn; reflexivity);
    try apply read_failure_code; cbn; auto 6.
Qed.

Lemma WritePacket_lasterr (b0 : slice) (pcap pcap' : PCAP F) (p : Packet)
    (n : Z) (err : option error) :
  WritePacket b0 pcap p = Returns (pcap', n, err) ->
  (err = None -> lasterr pcap' = lasterr pcap) /\
  (err <> None -> In (lasterr pcap') failure_codes).
Proof.
  intros Hw. unfold WritePacket in Hw. returned Hw; try discriminate Hw;
    injection Hw as <- _ <-;
    cbn [lasterr with_lasterr with_rd with_fsize];
    (split; [intros; try discriminate; reflexivity | intros Hn]);
    try (exfalso; apply Hn; reflexivity); cbn; auto 6.
Qed.

(** Neither operation reads the last error: started from another
    value of it, a call takes the same path, and a call that succeeds
    carries the value along. *)
Lemma ReadPacket_forgets (b0 : slice) (pcap : PCAP F) (e0 : ErrorCode) :
  ReadPacket b0 (with_lasterr pcap e0) =
    match ReadPacket b0 pcap with
    | Returns (pcap', pk, n, Some e) => Returns (pcap', pk, n, Some e)
    | Returns (pcap', pk, n, None) => Returns (with_lasterr pcap' e0, pk, n, None)
    | Panics why => Panics why
    end.
Proof.
  unfold ReadPacket, bind.
  cbn [rd offset h with_lasterr with_offset].
  repeat
    match goal with
    | |- context [match ?c with _ => _ end] =>
        lazymatch c with
        | context [match _ with _ => _ end] => fail
        | _ => destruct c
        end
    end; reflexivity.
Qed.

Lemma WritePacket_forgets (b0 : slice) (pcap : PCAP F) (p : Packet)
    (e0 : ErrorCode) :
  WritePacket b0 (with_lasterr pcap e0) p =
    match WritePacket b0 pcap p with
    | Returns (pcap', n, Some e) => Returns (pcap', n, Some e)
    | Returns (pcap', n, None) => Returns (with_lasterr pcap' e0, n, None)
    | Panics why => Panics why
    end.
Proof.
  unfold WritePacket, bind.
  cbn [rd fsize h with_lasterr].
  repeat
    match goal with
    | |- context [match ?c with _ => _ end] =>
        lazymatch c with
        | context [match _ with _ => _ end] => fail
        | _ => destruct c
        end
    end; reflexivity.
Qed.

Lemma reslice_inv (s s' : slice) (n : Z) :
  reslice s n = Returns s' -> s' = mkslice (backing s) n.
Proof.
  unfold reslice. destruct ((0 <=? n) && (n <=? cap s)); [|discriminate].
  intros [= <-]. reflexivity.
Qed.

(** A failed read records the code the taxonomy gives its failure. *)
Lemma ReadPacket_class (b0 : slice) (pcap pcap' : PCAP F)
    (pk : option Packet) (n : Z) (e : error) :
  ReadPacket b0 pcap = Returns (pcap', pk, n, Some e) ->
  lasterr pcap' = classification pcap (OpRead b0) e.
Proof.
  intros Hr. unfold classification, header_rejected. unfold ReadPacket in Hr.
  destruct (reslice b0 0) as [s1|] eqn:E1; cbn [bind] in Hr; [|discriminate].
  apply reslice_inv in E1. subst s1.
  destruct (reslice _ minPacketSize) as [s2|] eqn:E2; cbn [bind] in Hr;
    [|discriminate].
  apply reslice_inv in E2. cbn [backing] in E2. subst s2.
  destruct (read_into (rd pcap) _ (offset pcap)) as [[b1 n1] [e1|]].
  { injection Hr as <- _ _ <-. destruct e1; reflexivity. }
  cbn [h rd offset count with_offset] in Hr.
  destruct (h pcap) as [hd|]; cbn [deref bind] in Hr; [|discriminate].
  destruct (unmarshalPacketHeader (elems b1) (snapLen hd))
    as [[[ph k] [e'|]]|]; cbn [bind] in Hr; try discriminate.
  { injection Hr as <- _ _ _. reflexivity. }
  destruct ph as [ph|]; [|discriminate].
  destruct (reslice b1 (plen ph)) as [s3|]; cbn [bind] in Hr; [|discriminate].
  destruct (read_into (rd pcap) s3 _) as [[b2 n2] [e2|]]; [|discriminate].
  injection Hr as <- _ _ <-. destruct e2; reflexivity.
Qed.

(** A failed write records the code the taxonomy gives its failure. *)
Lemma WritePacket_class (b0 : slice) (pcap pcap' : PCAP F) (p : Packet)
    (n : Z) (e : error) :
  WritePacket b0 pcap p = Returns (pcap', n, Some e) ->
  lasterr pcap' = classification pcap (OpWrite b0 p) e.
Proof.
  intros Hw. unfold classification. unfold WritePacket in Hw.
  destruct (h pcap) as [hd|]; cbn [deref bind] in Hw; [|discriminate].
  change (len (Data p) + minPacketSize) with (len (Data p) + 10) in Hw.
  destruct (len (Data p) + 10 >? snapLen hd).
  { injection Hw as <- _ _. reflexivity. }
  returned Hw; try discriminate Hw; injection Hw as <- _ _; reflexivity.
Qed.

(** C4: [LastError] after a read or write. A call that returns an
    error leaves the code of that failure, whatever the last error was
    before: for a write, [ErrSizeOverflow] when the payload with the ten
    header bytes exceeds the snap length and [ErrWrite] otherwise; for a
    read, [ErrInvalidHeader] when the ten bytes at the cursor fail the
    packet header decoder, and otherwise [ErrNoMorePacket] when the
    error returned is [io.EOF] and [ErrRead] when it is any other. A
    call that returns without error leaves the last error as it was. *)
Theorem LastError_after_step (pcap pcap' : PCAP F) (o : op)
    (err : option error) :
  step pcap o = Returns (pcap', err) ->
  (err = None -> LastError pcap' = LastError pcap) /\
  (err <> None ->
   In (LastError pcap') failure_codes /\ LastError pcap' <> ErrOk /\
   forall e0, exists pcap'',
     step (with_lasterr pcap e0) o = Returns (pcap'', err) /\
     LastError pcap'' = LastError pcap') /\
  (forall e, err = Some e -> LastError pcap' = classification pcap o e).
Proof.
  intros Hs. unfold LastError.
  assert (Hcodes : forall c, In c failure_codes -> c <> ErrOk).
  { intros c Hc. cbn in Hc.
    repeat (destruct Hc as [<-|Hc]; [discriminate|]). contradiction. }
  destruct o as [b0|b0 p]; cbn [step] in *.
  - destruct (ReadPacket b0 pcap) as [[[[q pk] n] e]|] eqn:E;
      cbn [bind] in Hs; [|discriminate].
    injection Hs as <- <-.
    destruct (ReadPacket_lasterr _ _ _ _ _ _ E) as [Hok Hfail].
    split; [exact Hok|]. split.
    + intros Hn. specialize (Hfail Hn).
      split; [exact Hfail|]. split; [exact (Hcodes _ Hfail)|].
      intros e0. rewrite ReadPacket_forgets, E.
      destruct e as [e|]; [|contradiction].
      eexists. split; reflexivity.
    + intros e' ->. exact (ReadPacket_class _ _ _ _ _ _ E).
  - destruct (WritePacket b0 pcap p) as [[[q n] e]|] eqn:E;
      cbn [bind] in Hs; [|discriminate].
    injection Hs as <- <-.
    destruct (WritePacket_lasterr _ _ _ _ _ _ E) as [Hok Hfail].
    split; [exact Hok|]. split.
    + intros Hn. specialize (Hfail Hn).
      split; [exact Hfail|]. split; [exact (Hcodes _ Hfail)|].
      intros e0. rewrite WritePacket_forgets, E.
      destruct e as [e|]; [|contradiction].
      eexists. split; reflexivity.
    + intros e' ->. exact (WritePacket_class _ _ _ _ _ _ E).
Qed.

(** *** The frame [WritePacket] hands to the store *)

Lemma overlay_cons (x : byte) (l bs : list byte) (off : Z) :
  0 < off -> overlay (x :: l) off bs = x :: overlay l (off - 1) bs.
Proof.
  intros Hoff. unfold overlay.
  replace (Z.to_nat off) with (S (Z.to_nat (off - 1))) by lia.
  replace (Z.to_nat (off + len bs)) with (S (Z.to_nat (off - 1 + len bs)))
    by (pose proof (len_nonneg bs); lia).
  reflexivity.
Qed.

Lemma reslice_ok (s : slice) (n : Z) :
  0 <= n <= cap s -> reslice s n = Returns (mkslice (backing s) n).
Proof.
  intros [H0 H1]. unfold reslice.
  destruct (Z.leb_spec 0 n); [|lia].
  destruct (Z.leb_spec n (cap s)); [|lia]. reflexivity.
Qed.

Lemma store_index_ok (s : slice) (i : Z) (v : byte) :
  0 <= i < slen s ->
  store_index s i v = Returns (mkslice (overlay (backing s) i [v]) (slen s)).
Proof.
  intros [H0 H1]. unfold store_index.
  destruct (Z.leb_spec 0 i); [|lia].
  destruct (Z.ltb_spec i (slen s)); [|lia]. reflexivity.
Qed.

Lemma PutUint32_ok (s : slice) (off v : Z) :
  0 <= off -> off + 4 <= slen s ->
  binary.PutUint32 s off v =
    Returns (mkslice (overlay (backing s) off (binary.bytes32 v)) (slen s)).
Proof.
  intros H0 H1. unfold binary.PutUint32.
  destruct (Z.leb_spec 0 off); [|lia].
  destruct (Z.leb_spec off (slen s)); [|lia].
  destruct (Z.leb_spec 4 (slen s - off)); [|lia]. reflexivity.
Qed.

Lemma copy_from_ok (s : slice) (off : Z) (src : list byte) :
  0 <= off <= slen s ->
  copy_from s off src =
    Returns (mkslice (overlay (backing s) off
                        (firstn (Z.to_nat (Z.min (slen s - off) (len src))) src))
                     (slen s)).
Proof.
  intros [H0 H1]. unfold copy_from.
  destruct (Z.leb_spec 0 off); [|lia].
  destruct (Z.leb_spec off (slen s)); [|lia]. reflexivity.
Qed.

Lemma WritePacket_frame (b0 : slice) (pcap : PCAP F) (hd : fileHeader)
    (p : Packet) :
  pooled b0 ->
  h pcap = Some hd ->
  len (Data p) + 10 <= snapLen hd ->
  len (Data p) + 10 <= MaxSnapLength ->
  Len p = len (Data p) ->
  WritePacket b0 pcap p =
    let '(rd', n, err) := Write (rd pcap) (frame p) in
    match err with
    | Some e => Returns (with_lasterr (with_rd pcap rd') ErrWrite, 0, Some e)
    | None => Returns (with_fsize (with_rd pcap rd') (int64 (fsize pcap + n)),
                       n, None)
    end.
Proof.
  intros [Hcap Hslen] Hh Hfits Hmax HLen.
  pose proof (len_nonneg (Data p)) as HL.
  unfold WritePacket. rewrite Hh. cbn [deref bind].
  destruct (Z.gtb_spec (len (Data p) + minPacketSize) (snapLen hd)) as [Hgt|_];
    [unfold minPacketSize in Hgt; lia|].
  change MaxSnapLength with 16383 in *.
  rewrite HLen. unfold minPacketSize.
  rewrite uint32_small by (unfold is_uint32; lia).
  rewrite reslice_ok by lia. cbn [bind].
  rewrite reslice_ok by (unfold cap in *; cbn [backing]; lia). cbn [bind].
  rewrite !store_index_ok by (cbn [slen]; lia). cbn [bind slen backing].
  rewrite store_index_ok by (cbn [slen]; lia). cbn [bind slen backing].
  rewrite PutUint32_ok by (cbn [slen]; lia). cbn [bind slen backing].
  rewrite PutUint32_ok by (cbn [slen]; lia). cbn [bind slen backing].
  rewrite copy_from_ok by (cbn [slen]; lia). cbn [bind slen backing].
  replace (0 + 2 + 4 + 4) with 10 by reflexivity.
  replace (0 + 2 + 4) with 6 by reflexivity.
  replace (0 + 2) with 2 by reflexivity.
  replace (10 + len (Data p) - 10) with (len (Data p)) by lia.
  rewrite Z.min_id.
  replace (Z.to_nat (len (Data p))) with (length (Data p)) by (unfold len; lia).
  rewrite firstn_all.
  match goal with
  | |- context [elems ?b] =>
      replace (elems b) with (frame p); [reflexivity|]
  end.
  unfold elems, frame, binary.bytes32. cbn [slen backing app].
  rewrite overlay_front. cbn [length app].
  repeat (rewrite overlay_cons by lia;
          match goal with
          | |- context [overlay _ (?k - 1) _] =>
              let v := eval compute in (k - 1) in change (k - 1) with v
          end;
          try (rewrite overlay_front; cbn [length app])).
  rewrite HLen.
  replace (Z.to_nat (10 + len (Data p))) with (10 + length (Data p))%nat
    by (unfold len; lia).
  cbn [Nat.add firstn]. rewrite firstn_exact by reflexivity. reflexivity.
Qed.

End SessionProperties.

Lemma WritePacket_overflow_witness :
  exists pcap' e,
    WritePacket packetPool_New fresh_session packet_too_big
      = Returns (pcap', 0, Some e) /\
    LastError pcap' = ErrSizeOverflow /\
    rd pcap' = rd fresh_session /\ fsize pcap' = fsize fresh_session /\
    offset pcap' = offset fresh_session /\ count pcap' = count fresh_session /\
    h pcap' = h fresh_session /\ isClosed pcap' = isClosed fresh_session.
Proof.
  apply (WritePacket_overflow packetPool_New fresh_session
           (mkFileHeader lpcapmx 1 0 MaxSnapLength LinkTypeEthernet2)
           packet_too_big).
  - reflexivity.
  - vm_compute. reflexivity.
Defined.

Lemma WritePacket_long_Len_panics_witness :
  (exists why, WritePacket packetPool_New fresh_session packet_long_len = Panics why) /\
  (10 + Len packet_long_len < 2 ^ 32 ->
   WritePacket packetPool_New fresh_session packet_long_len
     = Panics "slice bounds out of range").
Proof.
  apply (WritePacket_long_Len_panics packetPool_New fresh_session
           (mkFileHeader lpcapmx 1 0 MaxSnapLength LinkTypeEthernet2)
           packet_long_len).
  - split; vm_compute; [reflexivity | split; discriminate].
  - reflexivity.
  - vm_compute. discriminate.
  - split; vm_compute; [discriminate | reflexivity].
  - vm_compute. reflexivity.
Defined.

Lemma WritePacket_after_Close_panics_witness :
  isClosed (fst (Close fresh_session)) = true /\
  h (fst (Close fresh_session)) = None /\
  WritePacket packetPool_New (fst (Close fresh_session)) packet_abc =
    Panics "invalid memory address or nil pointer dereference" /\
  snd (Close (fst (Close fresh_session))) = Some (errors_New "file is already closed").
Proof.
  apply (WritePacket_after_Close_panics packetPool_New fresh_session packet_abc).
  reflexivity.
Defined.

(** ** Reading a frame back from a file *)

Lemma frame_split (p : Packet) : frame p = frame_header p ++ Data p.
Proof. reflexivity. Qed.

Lemma len_frame_header (p : Packet) : len (frame_header p) = 10.
Proof. reflexivity. Qed.

(** [ReadAt] on an open, readable file, where the bytes asked for are
    all there. *)
Lemma File_ReadAt_within (f : File) (pre mid post : list byte) :
  closed f = false -> readable f = true ->
  content f = pre ++ mid ++ post ->
  File_ReadAt f (len mid) (len pre) = (mid, None).
Proof.
  intros Hc Hr Hcontent. unfold File_ReadAt. rewrite Hc, Hr, Hcontent.
  pose proof (len_nonneg pre). pose proof (len_nonneg mid).
  destruct (Z.ltb_spec (len pre) 0); [lia|].
  destruct (Z.leb_spec (len mid) 0) as [Hz|Hpos].
  - destruct mid; [reflexivity|]. unfold len in Hz. cbn [length] in Hz. lia.
  - cbn [negb].
    replace (Z.to_nat (len pre)) with (length pre) by (unfold len; lia).
    replace (Z.to_nat (len mid)) with (length mid) by (unfold len; lia).
    rewrite skipn_exact by reflexivity. rewrite firstn_exact by reflexivity.
    destruct (Z.ltb_spec (len mid) (len mid)); [lia|reflexivity].
Qed.

Lemma read_into_within (f : File) (b : slice) (pre mid post : list byte) :
  closed f = false -> readable f = true ->
  content f = pre ++ mid ++ post ->
  slen b = len mid -> slen b <= cap b ->
  exists bk,
    read_into f b (len pre) = (mkslice bk (slen b), len mid, None) /\
    len bk = cap b /\ firstn (length mid) bk = mid.
Proof.
  intros Hc Hr Hcontent Hslen Hcap. unfold read_into.
  cbv [ReadAt File_ReaderWriterCloser]. rewrite Hslen.
  rewrite (File_ReadAt_within f pre mid post Hc Hr Hcontent).
  replace (Z.to_nat (len mid)) with (length mid) by (unfold len; lia).
  rewrite firstn_all, overlay_front.
  eexists. split; [reflexivity|]. split.
  - unfold cap, len in *. rewrite length_app, length_skipn. lia.
  - apply firstn_exact. reflexivity.
Qed.

(** The packet header decoder on the header bytes of a frame. *)
Lemma unmarshalPacketHeader_frame_header (p : Packet) (maxLen : Z) :
  is_packet_class (PacketType p) ->
  is_uint32 (Timestamp p) -> Timestamp p <> 0 ->
  is_uint32 (Len p) -> Len p <= maxLen ->
  unmarshalPacketHeader (frame_header p) maxLen =
    Returns (Some (mkPacketHeader (Index p) (PacketType p) (Timestamp p) (Len p)),
             0, None).
Proof.
  intros Hclass Hts Hnz HLen Hmax.
  unfold unmarshalPacketHeader, frame_header, index.
  cbn [app nth_error bind].
  assert (Hpt : negb (byte.unsigned (PacketType p) =? PacketTypeBroadcast)
                && negb (byte.unsigned (PacketType p) =? PacketTypeUnicast)
                && negb (byte.unsigned (PacketType p) =? PacketTypeMulticast)
                = false).
  { destruct Hclass as [E|[E|E]]; rewrite E; reflexivity. }
  rewrite Hpt.
  rewrite from_skipn by (unfold len; simpl; lia).
  change (Z.to_nat 2) with 2%nat. cbn [skipn bind].
  rewrite (Uint32_bytes32 (Timestamp p) (binary.bytes32 (Len p)) Hts).
  cbn [bind].
  destruct (Z.eqb_spec (Timestamp p) 0); [contradiction|].
  rewrite from_skipn by (unfold len; simpl; lia).
  change (Z.to_nat 6) with 6%nat. cbn [skipn bind app binary.bytes32].
  change (binary.Uint32 _) with (binary.Uint32 (binary.bytes32 (Len p) ++ [])).
  rewrite (Uint32_bytes32 (Len p) [] HLen). cbn [bind].
  destruct (Z.gtb_spec (Len p) maxLen); [lia|reflexivity].
Qed.

(** Reading where a frame lies: the packet comes back as it was written
    and the cursor moves behind the frame. *)
Lemma ReadPacket_frame (b1 : slice) (pcap : PCAP File) (hd : fileHeader)
    (p : Packet) (pre post : list byte) :
  pooled b1 ->
  h pcap = Some hd ->
  closed (rd pcap) = false -> readable (rd pcap) = true ->
  content (rd pcap) = pre ++ frame p ++ post ->
  offset pcap = len pre -> len pre < 2 ^ 62 ->
  is_packet_class (PacketType p) ->
  is_uint32 (Timestamp p) -> Timestamp p <> 0 ->
  Len p = len (Data p) ->
  len (Data p) <= snapLen hd ->
  len (Data p) <= MaxSnapLength ->
  ReadPacket b1 pcap =
    Returns (with_offset
               (with_count (with_offset pcap (len pre + 10))
                           (int32 (count pcap + 1)))
               (len pre + 10 + len (Data p)),
             Some p, 10 + len (Data p), None).
Proof.
  intros [Hcap Hslen] Hh Hc Hr Hcontent Hoff Hpre Hclass Hts Hnz HLen Hsnap Hmax.
  pose proof (len_nonneg pre) as Hpre0.
  pose proof (len_nonneg (Data p)) as HL0.
  change MaxSnapLength with 16383 in *.
  unfold ReadPacket.
  rewrite reslice_ok by lia. cbn [bind].
  rewrite reslice_ok by (unfold cap in *; cbn [backing]; unfold minPacketSize; lia).
  cbn [bind backing]. rewrite Hoff.
  rewrite frame_split, <- app_assoc in Hcontent.
  destruct (read_into_within (rd pcap)
              (mkslice (backing b1) minPacketSize)
              pre (frame_header p) (Data p ++ post) Hc Hr Hcontent)
    as (bk & Hread & Hbk & Hfirst);
    [reflexivity | unfold cap in *; cbn [slen backing]; unfold minPacketSize; lia |].
  rewrite Hread. cbn [slen]. rewrite len_frame_header.
  rewrite int64_small by lia.
  cbn [h with_offset offset rd count]. rewrite Hh. cbn [deref bind].
  unfold elems. cbn [slen backing]. change (Z.to_nat minPacketSize) with 10%nat.
  change 10%nat with (length (frame_header p)) at 1. rewrite Hfirst.
  rewrite (unmarshalPacketHeader_frame_header p (snapLen hd) Hclass Hts Hnz)
    by (unfold is_uint32; lia).
  cbn [bind plen ifindex ptype timestamp].
  rewrite reslice_ok by (unfold cap in *; cbn [backing] in *; lia).
  cbn [bind backing].
  rewrite app_assoc in Hcontent.
  replace (len pre + 10) with (len (pre ++ frame_header p))
    by (rewrite len_app, len_frame_header; reflexivity).
  destruct (read_into_within (rd pcap) (mkslice bk (Len p))
              (pre ++ frame_header p) (Data p) post Hc Hr Hcontent)
    as (bk' & Hread' & _ & Hfirst');
    [cbn [slen]; exact HLen | unfold cap in *; cbn [slen backing] in *; lia |].
  rewrite Hread'. cbn [slen backing offset with_count with_offset].
  rewrite !len_app, len_frame_header.
  rewrite int64_small by lia.
  replace (Z.to_nat (Len p)) with (length (Data p)) by (unfold len in HLen; lia).
  rewrite Hfirst'. unfold minPacketSize.
  destruct p as [i pt ts l d]. cbn [Index PacketType Timestamp Len Data] in *.
  subst l. reflexivity.
Qed.

Lemma write_at_after (pre rest b : list byte) (pos : Z) :
  len pre = pos ->
  write_at (pre ++ rest) pos b = pre ++ b ++ skipn (length b) rest.
Proof.
  intros Hpos. unfold write_at.
  replace (Z.to_nat (pos - len (pre ++ rest))) with 0%nat
    by (rewrite len_app; pose proof (len_nonneg rest); lia).
  cbn [repeat]. rewrite app_nil_r. apply overlay_after. exact Hpos.
Qed.

Lemma len_frame (p : Packet) : len (frame p) = 10 + len (Data p).
Proof. rewrite frame_split, len_app, len_frame_header. reflexivity. Qed.

(** Write, then read, with the payload bytes handed over as a value: a
    packet of one of the three classes, with a nonzero timestamp, whose
    payload is at most the snap length less ten and whose [Len] field is
    the length of its payload, comes back as it was written. *)
Lemma roundtrip_by_value (path : path_state)
    (pcap : PCAP File) (hd : fileHeader) (b0 b1 : slice) (p : Packet) :
  Create path = Returns (Some pcap, None) ->
  h pcap = Some hd ->
  pooled b0 -> pooled b1 ->
  is_packet_class (PacketType p) ->
  len (Data p) <= snapLen hd - 10 ->
  is_uint32 (Timestamp p) -> Timestamp p <> 0 ->
  Len p = len (Data p) ->
  exists pcap1 pcap2,
    WritePacket b0 pcap p = Returns (pcap1, 10 + len (Data p), None) /\
    ReadPacket b1 pcap1 = Returns (pcap2, Some p, 10 + len (Data p), None) /\
    Len_ pcap2 = 1 /\ Next pcap2 = false.
Proof.
  intros Hc Hh Hb0 Hb1 Hclass Hfits Hts Hnz HLen.
  pose proof (len_nonneg (Data p)) as HL0.
  pose proof (Create_spec path pcap Hc) as Hp. clear Hc. subst pcap.
  cbn [h] in Hh. injection Hh as <-. cbn [snapLen] in Hfits.
  change MaxSnapLength with 16383 in *.
  set (rest := skipn 14 (prior_content path)).
  match goal with
  | |- context [WritePacket b0 ?q p] =>
      rewrite (WritePacket_frame b0 q
                 (mkFileHeader lpcapmx 1 0 16383 LinkTypeEthernet2) p Hb0 eq_refl)
        by (exact HLen
            || (cbn [snapLen]; change MaxSnapLength with 16383; lia))
  end.
  cbv [Write File_ReaderWriterCloser File_Write rd closed writable readable
       content fpos negb].
  rewrite (write_at_after created_header rest (frame p) 14 eq_refl).
  cbn [with_rd with_fsize fsize h rd count offset isClosed lasterr].
  rewrite len_frame, int64_small by lia.
  eexists. eexists. split; [reflexivity|].
  split; [|split].
  - apply (ReadPacket_frame b1 _
             (mkFileHeader lpcapmx 1 0 16383 LinkTypeEthernet2) p
             created_header (skipn (length (frame p)) rest) Hb1);
      try assumption; try reflexivity;
      cbn [snapLen]; change MaxSnapLength with 16383; lia.
  - reflexivity.
  - unfold Next. cbn [offset fsize with_offset with_count with_fsize].
    change (len created_header) with 14. apply Z.ltb_ge. lia.
Qed.

(** ** Slices that share an array *)

Lemma length_set_array (m : Mem.heap) (a : nat) (v : list byte) :
  length (Mem.set_array m a v) = length m.
Proof.
  revert a. induction m as [|x m IH]; intros [|a]; cbn; try reflexivity.
  rewrite IH. reflexivity.
Qed.

Lemma array_set_same (m : Mem.heap) (a : nat) (v : list byte) :
  (a < length m)%nat -> Mem.array (Mem.set_array m a v) a = v.
Proof.
  unfold Mem.array. revert a.
  induction m as [|x m IH]; intros [|a] Ha; cbn in *; try lia; try reflexivity.
  apply IH. lia.
Qed.

Lemma array_set_other (m : Mem.heap) (a a' : nat) (v : list byte) :
  a' <> a -> Mem.array (Mem.set_array m a v) a' = Mem.array m a'.
Proof.
  unfold Mem.array. revert a a'.
  induction m as [|x m IH]; intros [|a] [|a'] Hne; cbn; try reflexivity;
    try congruence.
  apply IH. congruence.
Qed.

Lemma overlay_len (l bs : list byte) (off : Z) :
  0 <= off -> off + len bs <= len l -> len (overlay l off bs) = len l.
Proof.
  intros H0 Hle. unfold overlay, len in *.
  rewrite !length_app, length_firstn, length_skipn. lia.
Qed.

Lemma put_array_other (m : Mem.heap) (r : Mem.sref) (s : slice) (a : nat) :
  a <> Mem.arr r -> Mem.array (Mem.put m r s) a = Mem.array m a.
Proof. intros Hne. unfold Mem.put. apply array_set_other. exact Hne. Qed.

Lemma put_array_len (m : Mem.heap) (r : Mem.sref) (s : slice) (a : nat) :
  Mem.wf m r -> cap s = Mem.rcap r ->
  len (Mem.array (Mem.put m r s) a) = len (Mem.array m a).
Proof.
  intros (Ha & Hoff & Hlen & Hcap) Hs.
  destruct (Nat.eq_dec a (Mem.arr r)) as [->|Hne].
  - unfold Mem.put. rewrite array_set_same by exact Ha.
    unfold cap, len in *. rewrite !length_app, length_firstn, length_skipn. lia.
  - rewrite put_array_other by exact Hne. reflexivity.
Qed.

Lemma put_length (m : Mem.heap) (r : Mem.sref) (s : slice) :
  length (Mem.put m r s) = length m.
Proof. apply length_set_array. Qed.

Lemma view_put_other (m : Mem.heap) (r r' : Mem.sref) (s : slice) :
  Mem.arr r' <> Mem.arr r -> Mem.view (Mem.put m r s) r' = Mem.view m r'.
Proof.
  intros Hne. unfold Mem.view. rewrite put_array_other by exact Hne.
  reflexivity.
Qed.

Lemma view_put_same (m : Mem.heap) (r : Mem.sref) (s : slice) :
  Mem.wf m r -> cap s = Mem.rcap r ->
  Mem.view (Mem.put m r s) (Mem.resliced r s) = s.
Proof.
  intros (Ha & Hoff & Hlen & Hcap) Hs. unfold Mem.view, Mem.put, Mem.resliced.
  cbn [Mem.arr Mem.soff Mem.rlen Mem.rcap].
  rewrite array_set_same by exact Ha.
  rewrite skipn_exact
    by (rewrite length_firstn; unfold len in *; lia).
  rewrite firstn_exact by (unfold cap, len in *; lia).
  destruct s. reflexivity.
Qed.

Lemma cap_view (m : Mem.heap) (r : Mem.sref) :
  Mem.wf m r -> cap (Mem.view m r) = Mem.rcap r.
Proof.
  intros (Ha & Hoff & Hlen & Hcap). unfold cap, Mem.view. cbn [backing].
  unfold len in *. rewrite length_firstn, length_skipn. lia.
Qed.

Lemma len_bytes (m : Mem.heap) (r : Mem.sref) :
  Mem.wf m r -> len (Mem.bytes m r) = Mem.rlen r.
Proof.
  intros Hwf. pose proof (cap_view m r Hwf) as Hc.
  destruct Hwf as (Ha & Hoff & Hlen & Hcap).
  unfold Mem.bytes, elems. unfold cap in Hc. 
  change (slen (Mem.view m r)) with (Mem.rlen r).
  unfold len in *. rewrite length_firstn. lia.
Qed.

Lemma stores_to_refl (a : nat) (m : Mem.heap) : Mem.stores_to a m m.
Proof. split; [|split]; reflexivity. Qed.

Lemma stores_to_trans (a : nat) (m1 m2 m3 : Mem.heap) :
  Mem.stores_to a m1 m2 -> Mem.stores_to a m2 m3 -> Mem.stores_to a m1 m3.
Proof.
  intros (L1 & S1 & O1) (L2 & S2 & O2). split; [|split].
  - congruence.
  - intros a'. rewrite S2. apply S1.
  - intros a' Hne. rewrite O2 by exact Hne. apply O1. exact Hne.
Qed.

Lemma put_stores_to (m : Mem.heap) (r : Mem.sref) (s : slice) :
  Mem.wf m r -> cap s = Mem.rcap r ->
  Mem.stores_to (Mem.arr r) m (Mem.put m r s).
Proof.
  intros Hwf Hs. split; [|split].
  - apply put_length.
  - intros a'. apply put_array_len; assumption.
  - intros a' Hne. apply put_array_other. exact Hne.
Qed.

Lemma stores_to_wf (a : nat) (m m' : Mem.heap) (r : Mem.sref) :
  Mem.stores_to a m m' -> Mem.wf m r -> Mem.wf m' r.
Proof.
  intros (L & S & _) (Ha & Hoff & Hlen & Hcap). unfold Mem.wf.
  rewrite L, S. auto.
Qed.

Lemma stores_to_pooled (a : nat) (m m' : Mem.heap) (r : Mem.sref) :
  Mem.stores_to a m m' -> Mem.pooled m r -> Mem.pooled m' r.
Proof.
  intros Hst (Hwf & Hrest). split; [|exact Hrest].
  exact (stores_to_wf a m m' r Hst Hwf).
Qed.

Lemma stores_to_view (a : nat) (m m' : Mem.heap) (r : Mem.sref) :
  Mem.stores_to a m m' -> Mem.arr r <> a -> Mem.view m' r = Mem.view m r.
Proof.
  intros (_ & _ & O) Hne. unfold Mem.view. rewrite O by exact Hne. reflexivity.
Qed.

(** The operations on a slice keep its capacity and keep the length
    within it. *)
Lemma reslice_cap (s s' : slice) (n : Z) :
  reslice s n = Returns s' -> cap s' = cap s /\ 0 <= slen s' <= cap s'.
Proof.
  unfold reslice.
  destruct (Z.leb_spec 0 n); destruct (Z.leb_spec n (cap s));
    cbn [andb]; try discriminate.
  intros [= <-]. unfold cap in *. cbn [backing slen]. lia.
Qed.

Lemma store_index_cap (s s' : slice) (i : Z) (v : byte) :
  store_index s i v = Returns s' -> 0 <= slen s <= cap s ->
  cap s' = cap s /\ 0 <= slen s' <= cap s'.
Proof.
  unfold store_index.
  destruct (Z.leb_spec 0 i); destruct (Z.ltb_spec i (slen s));
    cbn [andb]; try discriminate.
  intros [= <-] Hfit. unfold cap in *. cbn [backing slen].
  rewrite overlay_len; [lia | lia | change (len [v]) with 1; lia].
Qed.

Lemma PutUint32_cap (s s' : slice) (off v : Z) :
  binary.PutUint32 s off v = Returns s' -> 0 <= slen s <= cap s ->
  cap s' = cap s /\ 0 <= slen s' <= cap s'.
Proof.
  unfold binary.PutUint32.
  destruct (Z.leb_spec 0 off); destruct (Z.leb_spec off (slen s));
    cbn [andb]; try discriminate.
  destruct (Z.leb_spec 4 (slen s - off)); try discriminate.
  intros [= <-] Hfit. unfold cap in *. cbn [backing slen].
  rewrite overlay_len;
    [lia | lia | change (len (binary.bytes32 v)) with 4; lia].
Qed.

Lemma copy_from_cap (s s' : slice) (off : Z) (src : list byte) :
  copy_from s off src = Returns s' -> 0 <= slen s <= cap s ->
  cap s' = cap s /\ 0 <= slen s' <= cap s'.
Proof.
  unfold copy_from.
  destruct (Z.leb_spec 0 off); destruct (Z.leb_spec off (slen s));
    cbn [andb]; try discriminate.
  intros [= <-] Hfit. unfold cap in *. cbn [backing slen].
  rewrite overlay_len; [lia | lia |].
  unfold len in *. rewrite length_firstn. lia.
Qed.

Lemma read_into_cap {F : Type} `{ReaderWriterCloser F}
    (f : F) (b b' : slice) (off n : Z) (err : option error) :
  read_into f b off = (b', n, err) -> 0 <= slen b <= cap b ->
  cap b' = cap b /\ 0 <= slen b' <= cap b'.
Proof.
  unfold read_into. destruct (ReadAt f (slen b) off) as [got e].
  intros [= <- _ _] Hfit. unfold cap in *. cbn [backing slen].
  rewrite overlay_len; [lia | lia |].
  unfold len in *. rewrite length_firstn. lia.
Qed.

Section MemoryCalls.
Context {F : Type} `{ReaderWriterCloser F}.

(** [WritePacket] stores to the array of the pooled buffer only. *)
Lemma Mem_WritePacket_heap (m m' : Mem.heap) (b0 : Mem.sref)
    (pcap pcap' : PCAP F) (p : Mem.Packet) (n : Z) (err : option error) :
  Mem.wf m b0 ->
  Mem.WritePacket m b0 pcap p = Returns (m', pcap', n, err) ->
  Mem.stores_to (Mem.arr b0) m m'.
Proof.
  intros Hwf Hw. unfold Mem.WritePacket in Hw.
  destruct (h pcap) as [hd|]; cbn [deref bind] in Hw; [|discriminate].
  destruct (_ >? _).
  { injection Hw as <- _ _ _. apply stores_to_refl. }
  pose proof (cap_view m b0 Hwf) as C0.
  destruct (reslice (Mem.view m b0) 0) as [s1|] eqn:E1; cbn [bind] in Hw;
    [|discriminate].
  apply reslice_cap in E1. destruct E1 as [C1 F1].
  destruct (reslice s1 _) as [s2|] eqn:E2; cbn [bind] in Hw; [|discriminate].
  apply reslice_cap in E2. destruct E2 as [C2 F2].
  destruct (store_index s2 0 _) as [s3|] eqn:E3; cbn [bind] in Hw;
    [|discriminate].
  apply store_index_cap in E3; [|exact F2]. destruct E3 as [C3 F3].
  destruct (store_index s3 1 _) as [s4|] eqn:E4; cbn [bind] in Hw;
    [|discriminate].
  apply store_index_cap in E4; [|exact F3]. destruct E4 as [C4 F4].
  destruct (binary.PutUint32 s4 _ _) as [s5|] eqn:E5; cbn [bind] in Hw;
    [|discriminate].
  apply PutUint32_cap in E5; [|exact F4]. destruct E5 as [C5 F5].
  destruct (binary.PutUint32 s5 _ _) as [s6|] eqn:E6; cbn [bind] in Hw;
    [|discriminate].
  apply PutUint32_cap in E6; [|exact F5]. destruct E6 as [C6 F6].
  destruct (copy_from s6 _ _) as [s7|] eqn:E7; cbn [bind] in Hw;
    [|discriminate].
  apply copy_from_cap in E7; [|exact F6]. destruct E7 as [C7 F7].
  assert (S1 : Mem.stores_to (Mem.arr b0) m (Mem.put m b0 s6))
    by (apply put_stores_to; [exact Hwf | congruence]).
  assert (S2 : Mem.stores_to (Mem.arr b0) m (Mem.put (Mem.put m b0 s6) b0 s7)).
  { eapply stores_to_trans; [exact S1|].
    apply put_stores_to; [exact (stores_to_wf _ _ _ _ S1 Hwf) | congruence]. }
  destruct (Write (rd pcap) (elems s7)) as [[rd' k] [e|]];
    injection Hw as <- _ _ _; exact S2.
Qed.

(** Where the payload does not lie in the array of the pooled buffer,
    [WritePacket] does to the session and to the store what it does with
    payload bytes read off beforehand. *)
Lemma Mem_WritePacket_value (m : Mem.heap) (b0 : Mem.sref) (pcap : PCAP F)
    (p : Mem.Packet) :
  Mem.wf m (Mem.Data p) -> Mem.arr (Mem.Data p) <> Mem.arr b0 ->
  outcome_map Mem.written_result (Mem.WritePacket m b0 pcap p)
    = WritePacket (Mem.view m b0) pcap (Mem.value m p).
Proof.
  intros Hwf Hne. unfold Mem.WritePacket, WritePacket.
  destruct (h pcap) as [hd|]; cbn [deref bind outcome_map]; [|reflexivity].
  cbn [Data Mem.value]. rewrite (len_bytes m (Mem.Data p) Hwf).
  destruct (_ >? _); [reflexivity|].
  destruct (reslice (Mem.view m b0) 0) as [s1|]; cbn [bind outcome_map];
    [|reflexivity].
  cbn [Len Index PacketType Timestamp].
  destruct (reslice s1 _) as [s2|]; cbn [bind outcome_map]; [|reflexivity].
  destruct (store_index s2 0 _) as [s3|]; cbn [bind outcome_map]; [|reflexivity].
  destruct (store_index s3 1 _) as [s4|]; cbn [bind outcome_map]; [|reflexivity].
  destruct (binary.PutUint32 s4 _ _) as [s5|]; cbn [bind outcome_map];
    [|reflexivity].
  destruct (binary.PutUint32 s5 _ _) as [s6|]; cbn [bind outcome_map];
    [|reflexivity].
  unfold Mem.bytes at 1. rewrite (view_put_other m b0 (Mem.Data p) s6 Hne).
  fold (Mem.bytes m (Mem.Data p)).
  destruct (copy_from s6 _ _) as [s7|]; cbn [bind outcome_map]; [|reflexivity].
  destruct (Write (rd pcap) (elems s7)) as [[rd' k] [e|]]; reflexivity.
Qed.

(** [ReadPacket] stores to the array of the pooled buffer only. *)
Lemma Mem_ReadPacket_heap (m m' : Mem.heap) (b0 : Mem.sref)
    (pcap pcap' : PCAP F) (p : Mem.ptr) (q : option Mem.Packet) (n : Z)
    (err : option error) :
  Mem.wf m b0 ->
  Mem.ReadPacket m b0 pcap p = Returns (m', pcap', q, n, err) ->
  Mem.stores_to (Mem.arr b0) m m'.
Proof.
  intros Hwf Hr. unfold Mem.ReadPacket in Hr.
  pose proof (cap_view m b0 Hwf) as C0.
  destruct (reslice (Mem.view m b0) 0) as [s1|] eqn:E1; cbn [bind] in Hr;
    [|discriminate].
  apply reslice_cap in E1. destruct E1 as [C1 F1].
  destruct (reslice s1 _) as [s2|] eqn:E2; cbn [bind] in Hr; [|discriminate].
  apply reslice_cap in E2. destruct E2 as [C2 F2].
  destruct (read_into (rd pcap) s2 (offset pcap)) as [[s3 n3] e3] eqn:E3.
  apply read_into_cap in E3; [|exact F2]. destruct E3 as [C3 F3].
  assert (S1 : Mem.stores_to (Mem.arr b0) m (Mem.put m b0 s3))
    by (apply put_stores_to; [exact Hwf | congruence]).
  destruct e3 as [e3|].
  { injection Hr as <- _ _ _ _. exact S1. }
  cbn [h rd offset count with_offset] in Hr.
  destruct (h pcap) as [hd|]; cbn [deref bind] in Hr; [|discriminate].
  destruct (unmarshalPacketHeader (elems s3) (snapLen hd))
    as [[[ph k] [e'|]]|]; cbn [bind] in Hr; try discriminate.
  { injection Hr as <- _ _ _ _. exact S1. }
  destruct ph as [ph|]; [|discriminate].
  destruct (reslice s3 (plen ph)) as [s4|] eqn:E4; cbn [bind] in Hr;
    [|discriminate].
  apply reslice_cap in E4. destruct E4 as [C4 F4].
  destruct (read_into (rd pcap) s4 _) as [[s5 n5] e5] eqn:E5.
  apply read_into_cap in E5; [|exact F4]. destruct E5 as [C5 F5].
  assert (S2 : Mem.stores_to (Mem.arr b0) m (Mem.put (Mem.put m b0 s3) b0 s5)).
  { eapply stores_to_trans; [exact S1|].
    apply put_stores_to; [exact (stores_to_wf _ _ _ _ S1 Hwf) | congruence]. }
  destruct e5 as [e5|].
  { injection Hr as <- _ _ _ _. exact S2. }
  destruct p as [|a]; [discriminate|].
  injection Hr as <- _ _ _ _. exact S2.
Qed.

(** Through a pointer that is not nil, [ReadPacket] does to the session
    what it does when the packet is handed back by value, and the packet
    it stores shows, when the call returns, the bytes it read. *)
Lemma Mem_ReadPacket_value (m : Mem.heap) (b0 : Mem.sref) (pcap : PCAP F)
    (a : nat) :
  Mem.wf m b0 ->
  outcome_map Mem.read_result (Mem.ReadPacket m b0 pcap (Mem.addr a))
    = ReadPacket (Mem.view m b0) pcap.
Proof.
  intros Hwf. unfold Mem.ReadPacket, ReadPacket.
  pose proof (cap_view m b0 Hwf) as C0.
  destruct (reslice (Mem.view m b0) 0) as [s1|] eqn:E1;
    cbn [bind outcome_map]; [|reflexivity].
  apply reslice_cap in E1. destruct E1 as [C1 F1].
  destruct (reslice s1 _) as [s2|] eqn:E2; cbn [bind outcome_map];
    [|reflexivity].
  apply reslice_cap in E2. destruct E2 as [C2 F2].
  destruct (read_into (rd pcap) s2 (offset pcap)) as [[s3 n3] e3] eqn:E3.
  apply read_into_cap in E3; [|exact F2]. destruct E3 as [C3 F3].
  assert (S1 : Mem.stores_to (Mem.arr b0) m (Mem.put m b0 s3))
    by (apply put_stores_to; [exact Hwf | congruence]).
  destruct e3 as [e3|]; [reflexivity|].
  cbn [h rd offset count with_offset].
  destruct (h pcap) as [hd|]; cbn [deref bind outcome_map]; [|reflexivity].
  destruct (unmarshalPacketHeader (elems s3) (snapLen hd))
    as [[[ph k] [e'|]]|]; cbn [bind outcome_map]; try reflexivity.
  destruct ph as [ph|]; [|reflexivity].
  destruct (reslice s3 (plen ph)) as [s4|] eqn:E4; cbn [bind outcome_map];
    [|reflexivity].
  apply reslice_cap in E4. destruct E4 as [C4 F4].
  destruct (read_into (rd pcap) s4 _) as [[s5 n5] e5] eqn:E5.
  apply read_into_cap in E5; [|exact F4]. destruct E5 as [C5 F5].
  destruct e5 as [e5|]; [reflexivity|].
  cbn [outcome_map]. unfold Mem.read_result, Mem.value.
  cbn [option_map Mem.Index Mem.PacketType Mem.Timestamp Mem.Len Mem.Data].
  unfold Mem.bytes.
  rewrite (view_put_same (Mem.put m b0 s3) b0 s5)
    by (exact (stores_to_wf _ _ _ _ S1 Hwf) || congruence).
  reflexivity.
Qed.

(** Through a nil pointer the call fails where it would have stored
    the packet, and not before. *)
Lemma Mem_ReadPacket_nil (m : Mem.heap) (b0 : Mem.sref) (pcap : PCAP F)
    (a : nat) :
  Mem.ReadPacket m b0 pcap Mem.nilptr =
    match Mem.ReadPacket m b0 pcap (Mem.addr a) with
    | Returns (_, _, _, _, None) =>
        Panics "invalid memory address or nil pointer dereference"
    | r => r
    end.
Proof.
  unfold Mem.ReadPacket.
  destruct (reslice (Mem.view m b0) 0) as [s1|]; cbn [bind]; [|reflexivity].
  destruct (reslice s1 _) as [s2|]; cbn [bind]; [|reflexivity].
  destruct (read_into (rd pcap) s2 (offset pcap)) as [[s3 n3] [e3|]];
    [reflexivity|].
  cbn [h rd offset count with_offset].
  destruct (h pcap) as [hd|]; cbn [deref bind]; [|reflexivity].
  destruct (unmarshalPacketHeader (elems s3) (snapLen hd))
    as [[[ph k] [e'|]]|]; cbn [bind]; try reflexivity.
  destruct ph as [ph|]; [|reflexivity].
  destruct (reslice s3 (plen ph)) as [s4|]; cbn [bind]; [|reflexivity].
  destruct (read_into (rd pcap) s4 _) as [[s5 n5] [e5|]]; reflexivity.
Qed.

End MemoryCalls.

Lemma pooled_view (m : Mem.heap) (r : Mem.sref) :
  Mem.pooled m r -> pooled (Mem.view m r).
Proof.
  intros (Hwf & _ & Hcap). pose proof (cap_view m r Hwf) as C.
  destruct Hwf as (_ & _ & Hlen & _). split; [congruence|].
  rewrite C. exact Hlen.
Qed.

Section MemoryResults.
Context {F : Type} `{ReaderWriterCloser F}.

Lemma Mem_WritePacket_of_value (m : Mem.heap) (b0 : Mem.sref)
    (pcap pcap1 : PCAP F) (p : Mem.Packet) (n : Z) (err : option error) :
  Mem.wf m b0 -> Mem.wf m (Mem.Data p) ->
  Mem.arr (Mem.Data p) <> Mem.arr b0 ->
  WritePacket (Mem.view m b0) pcap (Mem.value m p) = Returns (pcap1, n, err) ->
  exists m1,
    Mem.WritePacket m b0 pcap p = Returns (m1, pcap1, n, err) /\
    Mem.stores_to (Mem.arr b0) m m1.
Proof.
  intros Hb0 Hwf Hne Hw.
  rewrite <- (Mem_WritePacket_value m b0 pcap p Hwf Hne) in Hw.
  destruct (Mem.WritePacket m b0 pcap p) as [[[[m1 q] k] e]|] eqn:E;
    cbn [outcome_map Mem.written_result] in Hw; [|discriminate].
  injection Hw as <- <- <-. exists m1. split; [reflexivity|].
  exact (Mem_WritePacket_heap m m1 b0 pcap q p k e Hb0 E).
Qed.

Lemma Mem_ReadPacket_of_value (m : Mem.heap) (b0 : Mem.sref)
    (pcap pcap1 : PCAP F) (a : nat) (v : PacketValue) (n : Z)
    (err : option error) :
  Mem.wf m b0 ->
  ReadPacket (Mem.view m b0) pcap = Returns (pcap1, Some v, n, err) ->
  exists m1 q,
    Mem.ReadPacket m b0 pcap (Mem.addr a) = Returns (m1, pcap1, Some q, n, err) /\
    Mem.value m1 q = v /\ Mem.stores_to (Mem.arr b0) m m1.
Proof.
  intros Hb0 Hr.
  rewrite <- (Mem_ReadPacket_value m b0 pcap a Hb0) in Hr.
  destruct (Mem.ReadPacket m b0 pcap (Mem.addr a)) as [[[[[m1 q] o] k] e]|] eqn:E;
    cbn [outcome_map] in Hr; [|discriminate].
  unfold Mem.read_result in Hr. destruct o as [pk|]; cbn [option_map] in Hr;
    [|discriminate].
  injection Hr as <- <- <- <-. exists m1, pk. split; [reflexivity|].
  split; [reflexivity|].
  exact (Mem_ReadPacket_heap m m1 b0 pcap q (Mem.addr a) (Some pk) k e Hb0 E).
Qed.

End MemoryResults.

(** C5: on a session [Create] returned, a packet of one of the three
    classes, with a nonzero timestamp, whose payload is at most the snap
    length less ten, whose [Len] field is the length of its payload, and
    whose payload does not lie in the array of the pooled buffer
    [WritePacket] obtains, is written by [WritePacket] and read back by
    [ReadPacket], through a pointer that is not nil, with the same
    interface index, class, timestamp and length, and with the payload
    bytes it had when it was written; both calls return ten plus the
    payload length. *)
Theorem WritePacket_ReadPacket_roundtrip (path : path_state)
    (pcap : PCAP File) (hd : fileHeader) (m : Mem.heap) (b0 b1 : Mem.sref)
    (p : Mem.Packet) (dst : nat) :
  Create path = Returns (Some pcap, None) ->
  h pcap = Some hd ->
  Mem.pooled m b0 -> Mem.pooled m b1 ->
  Mem.wf m (Mem.Data p) ->
  Mem.arr (Mem.Data p) <> Mem.arr b0 ->
  is_packet_class (Mem.PacketType p) ->
  Mem.rlen (Mem.Data p) <= snapLen hd - 10 ->
  is_uint32 (Mem.Timestamp p) -> Mem.Timestamp p <> 0 ->
  Mem.Len p = Mem.rlen (Mem.Data p) ->
  exists m1 pcap1 m2 pcap2 q,
    Mem.WritePacket m b0 pcap p
      = Returns (m1, pcap1, 10 + Mem.rlen (Mem.Data p), None) /\
    Mem.ReadPacket m1 b1 pcap1 (Mem.addr dst)
      = Returns (m2, pcap2, Some q, 10 + Mem.rlen (Mem.Data p), None) /\
    Mem.Index q = Mem.Index p /\ Mem.PacketType q = Mem.PacketType p /\
    Mem.Timestamp q = Mem.Timestamp p /\ Mem.Len q = Mem.Len p /\
    Mem.bytes m2 (Mem.Data q) = Mem.bytes m (Mem.Data p) /\
    Len_ pcap2 = 1 /\ Next pcap2 = false.
Proof.
  intros Hc Hh Hb0 Hb1 Hwf Hne Hclass Hfits Hts Hnz HLen.
  pose proof (len_bytes m (Mem.Data p) Hwf) as HL.
  assert (Hv : forall b, pooled b ->
            exists pcap1 pcap2,
              WritePacket (Mem.view m b0) pcap (Mem.value m p)
                = Returns (pcap1, 10 + Mem.rlen (Mem.Data p), None) /\
              ReadPacket b pcap1
                = Returns (pcap2, Some (Mem.value m p),
                           10 + Mem.rlen (Mem.Data p), None) /\
              Len_ pcap2 = 1 /\ Next pcap2 = false).
  { intros b Hb. rewrite <- HL.
    apply (roundtrip_by_value path pcap hd (Mem.view m b0) b (Mem.value m p));
      try assumption; cbn [Mem.value PacketType Timestamp Len Data];
      try assumption; try (rewrite HL; assumption).
    apply pooled_view. exact Hb0. }
  destruct (Hv (Mem.view m b1) (pooled_view m b1 Hb1)) as (pcap1 & _ & Hw & _).
  destruct (Mem_WritePacket_of_value m b0 pcap pcap1 p _ _
              (proj1 Hb0) Hwf Hne Hw) as (m1 & HW & S1).
  pose proof (stores_to_pooled _ _ _ _ S1 Hb1) as Hb1'.
  destruct (Hv (Mem.view m1 b1) (pooled_view m1 b1 Hb1'))
    as (pcap1' & pcap2 & Hw' & Hr & Hlen & Hnext).
  rewrite Hw in Hw'. injection Hw' as <-.
  destruct (Mem_ReadPacket_of_value m1 b1 pcap1 pcap2 dst _ _ _
              (proj1 Hb1') Hr) as (m2 & q & HR & Hq & _).
  exists m1, pcap1, m2, pcap2, q.
  split; [exact HW|]. split; [exact HR|].
  unfold Mem.value in Hq. injection Hq as Hi Hp Ht Hl Hd.
  do 5 (split; [assumption|]). split; assumption.
Qed.

Lemma WritePacket_ReadPacket_roundtrip_witness :
  exists m1 pcap1 m2 pcap2 q,
    Mem.WritePacket sample_heap pool_buffer fresh_session abc_on_heap
      = Returns (m1, pcap1, 10 + Mem.rlen (Mem.Data abc_on_heap), None) /\
    Mem.ReadPacket m1 pool_buffer pcap1 (Mem.addr 0)
      = Returns (m2, pcap2, Some q, 10 + Mem.rlen (Mem.Data abc_on_heap), None) /\
    Mem.Index q = Mem.Index abc_on_heap /\
    Mem.PacketType q = Mem.PacketType abc_on_heap /\
    Mem.Timestamp q = Mem.Timestamp abc_on_heap /\
    Mem.Len q = Mem.Len abc_on_heap /\
    Mem.bytes m2 (Mem.Data q) = Mem.bytes sample_heap (Mem.Data abc_on_heap) /\
    Len_ pcap2 = 1 /\ Next pcap2 = false.
Proof.
  assert (Hpool : Mem.pooled sample_heap pool_buffer).
  { unfold Mem.pooled, Mem.wf. repeat split; vm_compute;
      try reflexivity; try discriminate; lia. }
  apply (WritePacket_ReadPacket_roundtrip NoFile fresh_session
           (mkFileHeader lpcapmx 1 0 MaxSnapLength LinkTypeEthernet2)
           sample_heap pool_buffer pool_buffer abc_on_heap 0%nat).
  - vm_compute. reflexivity.
  - reflexivity.
  - exact Hpool.
  - exact Hpool.
  - unfold Mem.wf. repeat split; vm_compute;
      try reflexivity; try discriminate; lia.
  - cbn. discriminate.
  - left. reflexivity.
  - vm_compute. discriminate.
  - split; vm_compute; [discriminate | reflexivity].
  - discriminate.
  - reflexivity.
Defined.

(** Two packets for which the round trip fails. A broadcast packet
    with a nonzero timestamp and one byte of payload, whose [Len] field
    says zero, comes back without its payload, and the read returns 10,
    not 11. And a packet that [ReadPacket] has just filled, with [Len]
    its payload length and the payload [61 62 63] in the pooled array:
    written to a fresh session with the same pooled buffer, it is read
    back with the payload [04 02 4d], the first bytes of its own
    header. *)
Lemma WritePacket_ReadPacket_roundtrip_counterexample :
  (is_packet_class (Mem.PacketType short_len_on_heap) /\
   Mem.rlen (Mem.Data short_len_on_heap) <= MaxSnapLength - 10 /\
   Mem.Timestamp short_len_on_heap <> 0 /\
   Mem.arr (Mem.Data short_len_on_heap) <> Mem.arr pool_buffer /\
   exists pcap m1 pcap1 m2 pcap2 q n,
     Create NoFile = Returns (Some pcap, None) /\
     Mem.WritePacket sample_heap pool_buffer pcap short_len_on_heap
       = Returns (m1, pcap1, 10, None) /\
     Mem.ReadPacket m1 pool_buffer pcap1 (Mem.addr 0)
       = Returns (m2, pcap2, Some q, n, None) /\
     Mem.bytes m2 (Mem.Data q)
       <> Mem.bytes sample_heap (Mem.Data short_len_on_heap) /\
     n <> 10 + Mem.rlen (Mem.Data short_len_on_heap)) /\
  (exists pcap0 m01 pcap01 m pcap02 p,
     Create NoFile = Returns (Some pcap0, None) /\
     Mem.WritePacket sample_heap pool_buffer pcap0 abc_on_heap
       = Returns (m01, pcap01, 13, None) /\
     Mem.ReadPacket m01 pool_buffer pcap01 (Mem.addr 0)
       = Returns (m, pcap02, Some p, 13, None) /\
     is_packet_class (Mem.PacketType p) /\
     Mem.rlen (Mem.Data p) <= MaxSnapLength - 10 /\
     Mem.Timestamp p <> 0 /\
     Mem.Len p = Mem.rlen (Mem.Data p) /\
     Mem.arr (Mem.Data p) = Mem.arr pool_buffer /\
     Mem.bytes m (Mem.Data p) = [Byte.x61; Byte.x62; Byte.x63] /\
     exists pcap m1 pcap1 m2 pcap2 q,
       Create NoFile = Returns (Some pcap, None) /\
       Mem.WritePacket m pool_buffer pcap p = Returns (m1, pcap1, 13, None) /\
       Mem.ReadPacket m1 pool_buffer pcap1 (Mem.addr 0)
         = Returns (m2, pcap2, Some q, 13, None) /\
       Mem.bytes m2 (Mem.Data q) = [Byte.x04; Byte.x02; Byte.x4d] /\
       Mem.bytes m2 (Mem.Data q) <> Mem.bytes m (Mem.Data p)).
Proof.
  split.
  - split; [left; reflexivity|].
    split; [vm_compute; discriminate|].
    split; [discriminate|].
    split; [cbn; discriminate|].
    do 7 eexists.
    split; [apply Create_NoFile|].
    split; [vm_compute; reflexivity|].
    split; [vm_compute; reflexivity|].
    split; vm_compute; discriminate.
  - do 6 eexists.
    split; [apply Create_NoFile|].
    split; [vm_compute; reflexivity|].
    split; [vm_compute; reflexivity|].
    split; [left; reflexivity|].
    split; [vm_compute; discriminate|].
    split; [discriminate|].
    split; [reflexivity|].
    split; [reflexivity|].
    split; [vm_compute; reflexivity|].
    do 6 eexists.
    split; [apply Create_NoFile|].
    split; [vm_compute; reflexivity|].
    split; [vm_compute; reflexivity|].
    split; [vm_compute; reflexivity|].
    vm_compute. discriminate.
Qed.

(** A read at the end of a fresh file fails and records
    [ErrNoMorePacket]; the write after it succeeds, and the last error
    is still [ErrNoMorePacket]. *)
Lemma LastError_after_step_counterexample :
  exists pcap pcap1 pcap2,
    Create NoFile = Returns (Some pcap, None) /\
    step pcap (OpRead packetPool_New) = Returns (pcap1, Some io_EOF) /\
    step pcap1 (OpWrite packetPool_New packet_abc) = Returns (pcap2, None) /\
    LastError pcap2 = ErrNoMorePacket /\ LastError pcap2 <> ErrOk.
Proof.
  do 3 eexists.
  split; [apply Create_NoFile|].
  split; [vm_compute; reflexivity|].
  split; [vm_compute; reflexivity|].
  split; [reflexivity|]. vm_compute. discriminate.
Qed.

Lemma LastError_after_step_witness :
  (Some io_EOF = None ->
   LastError (with_lasterr fresh_session ErrNoMorePacket) = LastError fresh_session) /\
  (Some io_EOF <> None ->
   In (LastError (with_lasterr fresh_session ErrNoMorePacket)) failure_codes /\
   LastError (with_lasterr fresh_session ErrNoMorePacket) <> ErrOk /\
   forall e0, exists pcap'',
     step (with_lasterr fresh_session e0) (OpRead packetPool_New)
       = Returns (pcap'', Some io_EOF) /\
     LastError pcap'' = LastError (with_lasterr fresh_session ErrNoMorePacket)) /\
  (forall e, Some io_EOF = Some e ->
   LastError (with_lasterr fresh_session ErrNoMorePacket)
     = classification fresh_session (OpRead packetPool_New) e).
Proof.
  apply (LastError_after_step fresh_session
           (with_lasterr fresh_session ErrNoMorePacket)
           (OpRead packetPool_New) (Some io_EOF)).
  vm_compute. reflexivity.
Defined.

(** After [Close], a read on a file does not come to the header: the
    closed file refuses the read, which is recorded as [ErrRead]. *)
Lemma ReadPacket_after_Close_File (b0 : slice) (pcap : PCAP File) :
  pooled b0 -> isClosed pcap = false -> closed (rd pcap) = false ->
  ReadPacket b0 (fst (Close pcap)) =
    Returns (with_lasterr (fst (Close pcap)) ErrRead, None, 0,
             Some (os_PathError "read" "file already closed")).
Proof.
  intros [Hcap Hslen] Hopen Hc. unfold Close. rewrite Hopen.
  cbv [CloseStore File_ReaderWriterCloser File_Close].
  cbn [rd with_h with_count with_offset with_isClosed with_lasterr with_fsize].
  rewrite Hc. cbn [fst]. unfold ReadPacket.
  change MaxSnapLength with 16383 in Hcap.
  rewrite reslice_ok by lia. cbn [bind].
  rewrite reslice_ok by (unfold cap in *; cbn [backing]; unfold minPacketSize; lia).
  cbn [bind]. reflexivity.
Qed.

(** * More of the package *)

(** ** The text of an error code *)

Lemma strconv_Itoa_not_named (z : Z) : ~ In (strconv_Itoa z) error_names.
Proof.
  unfold strconv_Itoa, error_names.
  destruct (Z.to_int z) as [d|d]; destruct d; cbn;
    intros Hin; repeat (destruct Hin as [Hin|Hin]; [discriminate Hin|]);
    exact Hin.
Qed.

(** X1: [ErrorCode.Error()] gives each of the six constants its own
    name, and gives a name to nothing else: any other value, a
    combination of flags included, is printed as a decimal number. *)
Theorem ErrorCode_Error_names (e : ErrorCode) :
  (ErrorCode_Error e = "Ok" <-> e = ErrOk) /\
  (ErrorCode_Error e = "Read Error" <-> e = ErrRead) /\
  (ErrorCode_Error e = "Write Error" <-> e = ErrWrite) /\
  (ErrorCode_Error e = "Invalid Packet Header" <-> e = ErrInvalidHeader) /\
  (ErrorCode_Error e = "Size Overflow" <-> e = ErrSizeOverflow) /\
  (ErrorCode_Error e = "No More Packets" <-> e = ErrNoMorePacket) /\
  (In (ErrorCode_Error e) error_names \/ ErrorCode_Error e = strconv_Itoa e).
Proof.
  pose proof (strconv_Itoa_not_named e) as Hn.
  unfold ErrorCode_Error.
  destruct (Z.eqb_spec e ErrOk) as [->|N0];
    [repeat split; intros; try discriminate; try reflexivity; left; cbn; auto|].
  destruct (Z.eqb_spec e ErrRead) as [->|N1];
    [repeat split; intros; try discriminate; try reflexivity; left; cbn; auto|].
  destruct (Z.eqb_spec e ErrWrite) as [->|N2];
    [repeat split; intros; try discriminate; try reflexivity; left; cbn; auto|].
  destruct (Z.eqb_spec e ErrInvalidHeader) as [->|N3];
    [repeat split; intros; try discriminate; try reflexivity; left; cbn; auto 6|].
  destruct (Z.eqb_spec e ErrSizeOverflow) as [->|N4];
    [repeat split; intros; try discriminate; try reflexivity; left; cbn; auto 6|].
  destruct (Z.eqb_spec e ErrNoMorePacket) as [->|N5];
    [repeat split; intros; try discriminate; try reflexivity; left; cbn; auto 7|].
  repeat split;
    try (intros Hx;
         first [ contradiction | exfalso; apply Hn; rewrite Hx; cbn; auto 7 ]).
  right. reflexivity.
Qed.

(** ** The packet header codec, both ways *)

(** The decoder on ten bytes either fails at one of its three offsets
    or returns a header within the bound; it does not panic. *)
Lemma unmarshalPacketHeader_returns (b : list byte) (maxLen : Z) :
  length b = 10%nat ->
  (exists k e, unmarshalPacketHeader b maxLen = Returns (None, k, Some e) /\
               0 <= k <= 6) \/
  (exists ph, unmarshalPacketHeader b maxLen = Returns (Some ph, 0, None) /\
              0 <= plen ph <= maxLen /\ is_uint32 (plen ph) /\
              is_uint32 (timestamp ph) /\ timestamp ph <> 0 /\
              is_packet_class (ptype ph) /\
              b = [ifindex ph; ptype ph] ++ binary.bytes32 (timestamp ph)
                    ++ binary.bytes32 (plen ph)).
Proof.
  intros Hlen. explode b Hlen.
  unfold unmarshalPacketHeader, index. cbn [nth_error bind].
  destruct (negb (byte.unsigned b0 =? PacketTypeBroadcast)
            && negb (byte.unsigned b0 =? PacketTypeUnicast)
            && negb (byte.unsigned b0 =? PacketTypeMulticast)) eqn:Ept.
  { left. do 2 eexists. split; [reflexivity|lia]. }
  repeat decode_step.
  destruct (Z.eqb_spec (le_combine [b1; b2; b3; b4]) 0) as [Et|Nt].
  { left. do 2 eexists. split; [reflexivity|lia]. }
  repeat decode_step.
  destruct (Z.gtb_spec (le_combine [b5; b6; b7; b8]) maxLen) as [Hl|Hl].
  { left. do 2 eexists. split; [reflexivity|lia]. }
  right. eexists. split; [reflexivity|].
  cbn [plen timestamp ptype ifindex].
  pose proof (le_combine_bound [b1; b2; b3; b4]) as Bt.
  pose proof (le_combine_bound [b5; b6; b7; b8]) as Bl.
  cbn [length] in Bt, Bl. change (2 ^ (8 * Z.of_nat 4)) with (2 ^ 32) in *.
  unfold is_uint32.
  repeat split; try lia; try exact Nt.
  - unfold is_packet_class.
    destruct (Z.eqb_spec (byte.unsigned b0) PacketTypeBroadcast); [tauto|].
    destruct (Z.eqb_spec (byte.unsigned b0) PacketTypeUnicast); [tauto|].
    destruct (Z.eqb_spec (byte.unsigned b0) PacketTypeMulticast); [tauto|].
    discriminate Ept.
  - change (binary.bytes32 (le_combine [b1; b2; b3; b4]))
      with (le_split (length [b1; b2; b3; b4]) (le_combine [b1; b2; b3; b4])).
    change (binary.bytes32 (le_combine [b5; b6; b7; b8]))
      with (le_split (length [b5; b6; b7; b8]) (le_combine [b5; b6; b7; b8])).
    rewrite !split_le_combine. reflexivity.
Qed.

(** X2: the packet header decoder undoes the header layout
    [WritePacket] writes: on the ten header bytes of a packet of a known
    class, with a nonzero timestamp and a length within the bound,
    followed by anything, it returns that packet's interface index,
    class, timestamp and length. *)
Theorem frame_header_decodes (p : Packet) (rest : list byte) (maxLen : Z) :
  is_packet_class (PacketType p) ->
  is_uint32 (Timestamp p) -> Timestamp p <> 0 ->
  is_uint32 (Len p) -> Len p <= maxLen ->
  unmarshalPacketHeader (frame_header p ++ rest) maxLen =
    Returns (Some (mkPacketHeader (Index p) (PacketType p) (Timestamp p) (Len p)),
             0, None).
Proof.
  intros Hclass Hts Hnz HLen Hmax.
  unfold unmarshalPacketHeader, frame_header, index.
  cbn [app nth_error bind].
  assert (Hpt : negb (byte.unsigned (PacketType p) =? PacketTypeBroadcast)
                && negb (byte.unsigned (PacketType p) =? PacketTypeUnicast)
                && negb (byte.unsigned (PacketType p) =? PacketTypeMulticast)
                = false).
  { destruct Hclass as [E|[E|E]]; rewrite E; reflexivity. }
  rewrite Hpt.
  rewrite from_skipn
    by (unfold len; pose proof (length_app (binary.bytes32 (Timestamp p)) (binary.bytes32 (Len p) ++ rest)); simpl; lia).
  change (Z.to_nat 2) with 2%nat. cbn [skipn bind].
  rewrite <- app_assoc.
  rewrite (Uint32_bytes32 (Timestamp p) (binary.bytes32 (Len p) ++ rest) Hts).
  cbn [bind].
  destruct (Z.eqb_spec (Timestamp p) 0); [contradiction|].
  rewrite from_skipn by (unfold len; simpl; lia).
  change (Z.to_nat 6) with 6%nat. cbn [skipn bind app binary.bytes32].
  change (binary.Uint32 _) with (binary.Uint32 (binary.bytes32 (Len p) ++ rest)).
  rewrite (Uint32_bytes32 (Len p) rest HLen). cbn [bind].
  destruct (Z.gtb_spec (Len p) maxLen); [lia|reflexivity].
Qed.

Lemma frame_header_decodes_witness :
  unmarshalPacketHeader (frame_header packet_abc ++ Data packet_abc) MaxSnapLength =
    Returns (Some (mkPacketHeader (Index packet_abc) (PacketType packet_abc)
                                  (Timestamp packet_abc) (Len packet_abc)),
             0, None).
Proof.
  apply (frame_header_decodes packet_abc (Data packet_abc) MaxSnapLength).
  - left. reflexivity.
  - split; vm_compute; [discriminate | reflexivity].
  - discriminate.
  - split; vm_compute; [discriminate | reflexivity].
  - vm_compute. discriminate.
Defined.

(** X3: ten bytes the packet header decoder accepts are exactly the
    header layout of what it returns, with a known class, a nonzero
    timestamp and a length within the bound; so two accepted inputs
    with the same result are the same bytes. *)
Theorem unmarshalPacketHeader_accepts_layout (b : list byte) (maxLen : Z)
    (ph : packetHeader) (d : list byte) :
  length b = 10%nat ->
  unmarshalPacketHeader b maxLen = Returns (Some ph, 0, None) ->
  b = frame_header (mkPacket (ifindex ph) (ptype ph) (timestamp ph) (plen ph) d) /\
  is_packet_class (ptype ph) /\ timestamp ph <> 0 /\
  is_uint32 (timestamp ph) /\ 0 <= plen ph <= maxLen.
Proof.
  intros Hlen Hok.
  destruct (unmarshalPacketHeader_returns b maxLen Hlen)
    as [(k & e & Hfail & _)|(ph' & Hok' & Hl & _ & Hts & Hnz & Hclass & Hb)].
  - rewrite Hfail in Hok. discriminate.
  - rewrite Hok' in Hok. injection Hok as <-.
    unfold frame_header, is_uint32 in *. cbn [Index PacketType Timestamp Len].
    repeat split; try assumption; lia.
Qed.

Lemma unmarshalPacketHeader_accepts_layout_witness :
  sample_packet_header =
    frame_header (mkPacket Byte.x04 Byte.x02 77 3 []) /\
  is_packet_class Byte.x02 /\ 77 <> 0 /\ is_uint32 77 /\ 0 <= 3 <= MaxSnapLength.
Proof.
  apply (unmarshalPacketHeader_accepts_layout sample_packet_header MaxSnapLength
           (mkPacketHeader Byte.x04 Byte.x02 77 3) []).
  - reflexivity.
  - vm_compute. reflexivity.
Defined.

(** ** What WritePacket hands to the store *)

Section MoreSessionProperties.
Context {F : Type} `{ReaderWriterCloser F}.

(** The bytes of a write that gets past the overflow check with a
    [Len] a pooled buffer can take: the header, then [Len] bytes taken
    from the payload and, where the payload runs out, from what the
    buffer held behind it. *)
Lemma WritePacket_written (b0 : slice) (pcap : PCAP F) (hd : fileHeader)
    (p : Packet) :
  pooled b0 ->
  h pcap = Some hd ->
  len (Data p) + 10 <= snapLen hd ->
  0 <= Len p <= MaxSnapLength - 10 ->
  WritePacket b0 pcap p =
    let '(rd', n, err) :=
      Write (rd pcap)
            (frame_header p ++
             firstn (Z.to_nat (Len p))
                    (Data p ++ skipn (10 + length (Data p)) (backing b0))) in
    match err with
    | Some e => Returns (with_lasterr (with_rd pcap rd') ErrWrite, 0, Some e)
    | None => Returns (with_fsize (with_rd pcap rd') (int64 (fsize pcap + n)),
                       n, None)
    end.
Proof.
  intros [Hcap Hslen] Hh Hfits HLen.
  pose proof (len_nonneg (Data p)) as HL.
  unfold WritePacket. rewrite Hh. cbn [deref bind].
  destruct (Z.gtb_spec (len (Data p) + minPacketSize) (snapLen hd)) as [Hgt|_];
    [unfold minPacketSize in Hgt; lia|].
  change MaxSnapLength with 16383 in *.
  unfold minPacketSize.
  rewrite uint32_small by (unfold is_uint32; lia).
  rewrite reslice_ok by lia. cbn [bind].
  rewrite reslice_ok by (unfold cap in *; cbn [backing]; lia). cbn [bind].
  rewrite !store_index_ok by (cbn [slen]; lia). cbn [bind slen backing].
  rewrite store_index_ok by (cbn [slen]; lia). cbn [bind slen backing].
  rewrite PutUint32_ok by (cbn [slen]; lia). cbn [bind slen backing].
  rewrite PutUint32_ok by (cbn [slen]; lia). cbn [bind slen backing].
  rewrite copy_from_ok by (cbn [slen]; lia). cbn [bind slen backing].
  replace (0 + 2 + 4 + 4) with 10 by reflexivity.
  replace (0 + 2 + 4) with 6 by reflexivity.
  replace (0 + 2) with 2 by reflexivity.
  replace (10 + Len p - 10) with (Len p) by lia.
  match goal with
  | |- context [elems ?b] =>
      match goal with
      | |- context [Write _ ?bytes] =>
          lazymatch bytes with
          | elems _ => fail
          | _ => replace (elems b) with bytes; [reflexivity|]
          end
      end
  end.
  unfold elems, frame_header, binary.bytes32. cbn [slen backing app].
  rewrite overlay_front. cbn [length app].
  repeat (rewrite overlay_cons by lia;
          match goal with
          | |- context [overlay _ (?k - 1) _] =>
              let v := eval compute in (k - 1) in change (k - 1) with v
          end;
          try (rewrite overlay_front; cbn [length app])).
  replace (Z.to_nat (10 + Len p)) with (10 + Z.to_nat (Len p))%nat by lia.
  cbn [Nat.add firstn]. do 10 f_equal.
  rewrite !skipn_skipn.
  destruct (Z.le_gt_cases (Len p) (len (Data p))) as [Hshort|Hlong].
  - rewrite Z.min_l by lia.
    assert (Hn : (Z.to_nat (Len p) <= length (Data p))%nat)
      by (unfold len in Hshort; lia).
    rewrite (firstn_app (Z.to_nat (Len p)) (Data p)).
    replace (Z.to_nat (Len p) - length (Data p))%nat with 0%nat by lia.
    rewrite firstn_O, app_nil_r.
    symmetry. apply firstn_exact. rewrite length_firstn. lia.
  - rewrite Z.min_r by lia.
    replace (Z.to_nat (len (Data p))) with (length (Data p)) by (unfold len; lia).
    rewrite firstn_all. f_equal. f_equal. f_equal. lia.
Qed.

(** A write that gets past the overflow check, with a [Len] that fits
    a pooled buffer and the payload bytes handed over as a value. *)
Lemma WritePacket_by_value_payload (b0 : slice) (pcap : PCAP F)
    (hd : fileHeader) (p : Packet) :
  pooled b0 ->
  h pcap = Some hd ->
  len (Data p) + 10 <= snapLen hd ->
  0 <= Len p <= MaxSnapLength - 10 ->
  exists sent,
    WritePacket b0 pcap p =
      (let '(rd', n, err) := Write (rd pcap) (frame_header p ++ sent) in
       match err with
       | Some e => Returns (with_lasterr (with_rd pcap rd') ErrWrite, 0, Some e)
       | None => Returns (with_fsize (with_rd pcap rd') (int64 (fsize pcap + n)),
                          n, None)
       end) /\
    len sent = Len p /\
    (Len p <= len (Data p) -> sent = firstn (Z.to_nat (Len p)) (Data p)) /\
    (len (Data p) <= Len p ->
     sent = Data p ++ firstn (Z.to_nat (Len p - len (Data p)))
                             (skipn (10 + length (Data p)) (backing b0))).
Proof.
  intros Hpool Hh Hfits HLen.
  pose proof Hpool as [Hcap Hslen].
  pose proof (len_nonneg (Data p)) as HL.
  change MaxSnapLength with 16383 in *. unfold cap, len in *.
  eexists. split; [apply (WritePacket_written b0 pcap hd p Hpool Hh Hfits HLen)|].
  split; [|split].
  - rewrite length_firstn, length_app, length_skipn. lia.
  - intros Hshort. rewrite firstn_app.
    replace (Z.to_nat (Len p) - length (Data p))%nat with 0%nat by lia.
    rewrite firstn_O. apply app_nil_r.
  - intros Hlong. rewrite firstn_app.
    rewrite firstn_all2 by lia. f_equal. f_equal. lia.
Qed.

(** X4: a write that gets past the overflow check, with a [Len] that
    fits a pooled buffer and a payload that does not lie in the array of
    that buffer, hands the store exactly ten plus [Len] bytes and stores
    to the array of the pooled buffer only. Where [Len] is at most the
    payload length the payload is cut to [Len] bytes; where [Len] is
    more, the payload is followed by the bytes the pooled buffer held
    at those positions from an earlier use. *)
Theorem WritePacket_payload (m : Mem.heap) (b0 : Mem.sref) (pcap : PCAP F)
    (hd : fileHeader) (p : Mem.Packet) :
  Mem.pooled m b0 ->
  Mem.wf m (Mem.Data p) ->
  Mem.arr (Mem.Data p) <> Mem.arr b0 ->
  h pcap = Some hd ->
  Mem.rlen (Mem.Data p) + 10 <= snapLen hd ->
  0 <= Mem.Len p <= MaxSnapLength - 10 ->
  exists sent m',
    Mem.WritePacket m b0 pcap p =
      (let '(rd', n, err) :=
         Write (rd pcap) (frame_header (Mem.value m p) ++ sent) in
       match err with
       | Some e =>
           Returns (m', with_lasterr (with_rd pcap rd') ErrWrite, 0, Some e)
       | None =>
           Returns (m', with_fsize (with_rd pcap rd') (int64 (fsize pcap + n)),
                    n, None)
       end) /\
    Mem.stores_to (Mem.arr b0) m m' /\
    len sent = Mem.Len p /\
    (Mem.Len p <= Mem.rlen (Mem.Data p) ->
     sent = firstn (Z.to_nat (Mem.Len p)) (Mem.bytes m (Mem.Data p))) /\
    (Mem.rlen (Mem.Data p) <= Mem.Len p ->
     sent = Mem.bytes m (Mem.Data p) ++
            firstn (Z.to_nat (Mem.Len p - Mem.rlen (Mem.Data p)))
                   (skipn (10 + Z.to_nat (Mem.rlen (Mem.Data p)))
                          (backing (Mem.view m b0)))).
Proof.
  intros Hpool Hwf Hne Hh Hfits HLen.
  pose proof (len_bytes m (Mem.Data p) Hwf) as HL.
  destruct (WritePacket_by_value_payload (Mem.view m b0) pcap hd (Mem.value m p)
              (pooled_view m b0 Hpool) Hh)
    as (sent & Hw & Hsent & Hshort & Hlong);
    cbn [Mem.value Data Len]; [rewrite HL; exact Hfits | exact HLen |].
  cbn [Mem.value Data Len] in Hsent, Hshort, Hlong.
  rewrite HL in Hshort, Hlong.
  replace (length (Mem.bytes m (Mem.Data p)))
    with (Z.to_nat (Mem.rlen (Mem.Data p))) in Hlong
    by (unfold len in HL; lia).
  rewrite <- (Mem_WritePacket_value m b0 pcap p Hwf Hne) in Hw.
  destruct (Mem.WritePacket m b0 pcap p) as [[[[m' q] k] e]|] eqn:E;
    cbn [outcome_map Mem.written_result] in Hw.
  - exists sent, m'.
    split; [|split; [exact (Mem_WritePacket_heap m m' b0 pcap q p k e
                              (proj1 Hpool) E)|
             split; [exact Hsent | split; assumption]]].
    destruct (Write (rd pcap) (frame_header (Mem.value m p) ++ sent))
      as [[rd' n'] [e'|]]; injection Hw as -> -> ->; reflexivity.
  - destruct (Write (rd pcap) (frame_header (Mem.value m p) ++ sent))
      as [[rd' n'] [e'|]]; discriminate.
Qed.

(** X5: on a session that holds a header, with a pooled buffer and a
    [Len] of at most [MaxSnapLength] - 10, [WritePacket] returns: it
    does not panic, whatever the payload and whatever the store
    answers. *)
Theorem WritePacket_returns (b0 : slice) (pcap : PCAP F) (hd : fileHeader)
    (p : Packet) :
  pooled b0 ->
  h pcap = Some hd ->
  0 <= Len p <= MaxSnapLength - 10 ->
  exists pcap' n err, WritePacket b0 pcap p = Returns (pcap', n, err).
Proof.
  intros Hpool Hh HLen.
  destruct (Z.le_gt_cases (len (Data p) + 10) (snapLen hd)) as [Hfits|Hbig].
  - rewrite (WritePacket_written b0 pcap hd p Hpool Hh Hfits HLen).
    destruct (Write _ _) as [[rd' n] [e|]]; do 3 eexists; reflexivity.
  - unfold WritePacket. rewrite Hh. cbn [deref bind].
    destruct (Z.gtb_spec (len (Data p) + minPacketSize) (snapLen hd)) as [_|Hle];
      [|unfold minPacketSize in Hle; lia].
    do 3 eexists. reflexivity.
Qed.

(** ** Reads that return *)

(** Whatever a store answers, the buffer a read filled keeps its
    length and capacity, and the count is within the length. *)
Lemma read_into_shape (f : F) (b : slice) (off : Z) :
  0 <= slen b <= cap b ->
  exists bk n err,
    read_into f b off = (mkslice bk (slen b), n, err) /\
    len bk = cap b /\ 0 <= n <= slen b.
Proof.
  intros Hb. unfold read_into.
  destruct (ReadAt f (slen b) off) as [got err].
  rewrite overlay_front. do 3 eexists. split; [reflexivity|].
  unfold cap, len in *.
  rewrite length_app, length_skipn, length_firstn. lia.
Qed.

(** With the packet handed back by value, a read on a session whose
    header has a snap length of at most [MaxSnapLength] returns. *)
Lemma ReadPacket_by_value_returns (b0 : slice) (pcap : PCAP F) (hd : fileHeader) :
  pooled b0 ->
  h pcap = Some hd ->
  snapLen hd <= MaxSnapLength ->
  exists pcap' pk n err, ReadPacket b0 pcap = Returns (pcap', pk, n, err).
Proof.
  intros [Hcap Hslen] Hh Hsnap.
  change MaxSnapLength with 16383 in *.
  unfold ReadPacket.
  rewrite reslice_ok by lia. cbn [bind].
  rewrite reslice_ok by (unfold cap in *; cbn [backing]; unfold minPacketSize; lia).
  cbn [bind backing].
  destruct (read_into_shape (rd pcap) (mkslice (backing b0) minPacketSize)
              (offset pcap))
    as (bk & n & err & Hr & Hbk & Hn);
    [unfold cap in *; cbn [slen backing]; unfold minPacketSize; lia|].
  rewrite Hr. cbn [slen] in *.
  destruct err as [e|]; [do 4 eexists; reflexivity|].
  cbn [h with_offset]. rewrite Hh. cbn [deref bind].
  assert (Hten : length (elems (mkslice bk minPacketSize)) = 10%nat).
  { unfold elems. cbn [slen backing]. rewrite length_firstn.
    unfold cap, len, minPacketSize in *. cbn [backing] in Hbk. lia. }
  destruct (unmarshalPacketHeader_returns _ (snapLen hd) Hten)
    as [(k & e & Hfail & _)|(ph & Hok & Hl & _)].
  - rewrite Hfail. cbn [bind]. do 4 eexists. reflexivity.
  - rewrite Hok. cbn [bind].
    rewrite reslice_ok
      by (unfold cap, len in *; cbn [backing] in *; lia).
    cbn [bind]. clear Hr.
    match goal with
    | |- context [read_into ?a ?b ?c] =>
        destruct (read_into a b c) as [[b2 n2] [e|]]
    end; do 4 eexists; reflexivity.
Qed.

(** X6: on a session whose header has a snap length of at most
    [MaxSnapLength], with a pooled buffer and a pointer that is not nil,
    [ReadPacket] returns: it does not panic, whatever the store answers.
    With a nil pointer the call returns the same where the read fails,
    and where the read succeeds it panics at the store through the
    pointer. *)
Theorem ReadPacket_returns (m : Mem.heap) (b0 : Mem.sref) (pcap : PCAP F)
    (hd : fileHeader) (a : nat) :
  Mem.pooled m b0 ->
  h pcap = Some hd ->
  snapLen hd <= MaxSnapLength ->
  exists m' pcap' q n err,
    Mem.ReadPacket m b0 pcap (Mem.addr a) = Returns (m', pcap', q, n, err) /\
    (err <> None ->
     Mem.ReadPacket m b0 pcap Mem.nilptr = Returns (m', pcap', q, n, err)) /\
    (err = None ->
     Mem.ReadPacket m b0 pcap Mem.nilptr
       = Panics "invalid memory address or nil pointer dereference").
Proof.
  intros Hpool Hh Hsnap.
  destruct (ReadPacket_by_value_returns (Mem.view m b0) pcap hd
              (pooled_view m b0 Hpool) Hh Hsnap) as (pcap' & pk & n & err & Hr).
  rewrite <- (Mem_ReadPacket_value m b0 pcap a (proj1 Hpool)) in Hr.
  rewrite (Mem_ReadPacket_nil m b0 pcap a).
  destruct (Mem.ReadPacket m b0 pcap (Mem.addr a)) as [[[[[m' q] o] k] e]|];
    cbn [outcome_map] in Hr; [|discriminate].
  exists m', q, o, k, e. split; [reflexivity|].
  destruct e as [e|]; split; intros He; congruence.
Qed.

(** ** What an operation leaves alone *)

(** X18: a read leaves the store and the tracked size as they were, and
    counts a packet exactly when it succeeds; a write leaves the cursor
    and the packet count as they were; neither changes the header the
    session holds nor whether it is closed. *)
Theorem step_leaves_alone (pcap pcap' : PCAP F) (o : op) (err : option error) :
  step pcap o = Returns (pcap', err) ->
  h pcap' = h pcap /\ isClosed pcap' = isClosed pcap /\
  match o with
  | OpRead _ =>
      rd pcap' = rd pcap /\ fsize pcap' = fsize pcap /\
      (err <> None -> count pcap' = count pcap) /\
      (err = None -> count pcap' = int32 (count pcap + 1))
  | OpWrite _ _ =>
      offset pcap' = offset pcap /\ count pcap' = count pcap
  end.
Proof.
  intros Hs. destruct o as [b0|b0 p]; cbn [step] in Hs.
  - destruct (ReadPacket b0 pcap) as [[[[q pk] n] e]|] eqn:E;
      cbn [bind] in Hs; [|discriminate].
    injection Hs as <- <-.
    unfold ReadPacket in E. returned E; try discriminate E;
      injection E as <- _ _ <-;
      cbn [h isClosed rd fsize count with_lasterr with_offset with_count];
      repeat split; intros; congruence.
  - destruct (WritePacket b0 pcap p) as [[[q n] e]|] eqn:E;
      cbn [bind] in Hs; [|discriminate].
    injection Hs as <- <-.
    unfold WritePacket in E. returned E; try discriminate E;
      injection E as <- _ _;
      cbn [h isClosed offset count with_lasterr with_rd with_fsize];
      repeat split; reflexivity.
Qed.

(** ** Closing *)

(** X15: [Close] on an open session hands the store's own close error
    back, closes the store once, and leaves a session with no header,
    packet count 0, cursor and tracked size 0 (so [Next] is false) and
    last error [ErrOk]. A second [Close] returns the error that the file
    is already closed and changes nothing: the store is not closed a
    second time. *)
Theorem Close_once (pcap : PCAP F) :
  isClosed pcap = false ->
  Close pcap = (mkPCAP None (fst (CloseStore (rd pcap))) 0 0 true ErrOk 0,
                snd (CloseStore (rd pcap))) /\
  Len_ (fst (Close pcap)) = 0 /\ Next (fst (Close pcap)) = false /\
  LastError (fst (Close pcap)) = ErrOk /\
  Close (fst (Close pcap)) =
    (fst (Close pcap), Some (errors_New "file is already closed")).
Proof.
  intros Hopen.
  assert (E : Close pcap =
              (mkPCAP None (fst (CloseStore (rd pcap))) 0 0 true ErrOk 0,
               snd (CloseStore (rd pcap)))).
  { unfold Close. rewrite Hopen.
    cbn [rd with_h with_count with_offset with_isClosed with_lasterr with_fsize].
    destruct (CloseStore (rd pcap)) as [rd' err]. reflexivity. }
  rewrite E. cbn [fst]. repeat split.
Qed.

End MoreSessionProperties.

Lemma WritePacket_payload_witness :
  exists sent m',
    Mem.WritePacket used_heap pool_buffer fresh_session over_len_on_heap =
      (let '(rd', n, err) :=
         Write (rd fresh_session)
               (frame_header (Mem.value used_heap over_len_on_heap) ++ sent) in
       match err with
       | Some e =>
           Returns (m', with_lasterr (with_rd fresh_session rd') ErrWrite, 0,
                    Some e)
       | None =>
           Returns (m', with_fsize (with_rd fresh_session rd')
                          (int64 (fsize fresh_session + n)), n, None)
       end) /\
    Mem.stores_to (Mem.arr pool_buffer) used_heap m' /\
    len sent = Mem.Len over_len_on_heap /\
    (Mem.Len over_len_on_heap <= Mem.rlen (Mem.Data over_len_on_heap) ->
     sent = firstn (Z.to_nat (Mem.Len over_len_on_heap))
                   (Mem.bytes used_heap (Mem.Data over_len_on_heap))) /\
    (Mem.rlen (Mem.Data over_len_on_heap) <= Mem.Len over_len_on_heap ->
     sent = Mem.bytes used_heap (Mem.Data over_len_on_heap) ++
            firstn (Z.to_nat (Mem.Len over_len_on_heap
                              - Mem.rlen (Mem.Data over_len_on_heap)))
                   (skipn (10 + Z.to_nat (Mem.rlen (Mem.Data over_len_on_heap)))
                          (backing (Mem.view used_heap pool_buffer)))).
Proof.
  apply (WritePacket_payload used_heap pool_buffer fresh_session
           created_fileHeader over_len_on_heap).
  - unfold Mem.pooled, Mem.wf. repeat split; vm_compute;
      try reflexivity; try discriminate; lia.
  - unfold Mem.wf. repeat split; vm_compute;
      try reflexivity; try discriminate; lia.
  - cbn. discriminate.
  - reflexivity.
  - vm_compute. discriminate.
  - split; vm_compute; discriminate.
Defined.

Lemma WritePacket_returns_witness :
  exists pcap' n err,
    WritePacket packetPool_New fresh_session packet_over_len
      = Returns (pcap', n, err).
Proof.
  apply (WritePacket_returns packetPool_New fresh_session created_fileHeader
           packet_over_len).
  - split; vm_compute; [reflexivity | split; discriminate].
  - reflexivity.
  - split; vm_compute; discriminate.
Defined.

Lemma ReadPacket_returns_witness :
  exists m' pcap' q n err,
    Mem.ReadPacket sample_heap pool_buffer fresh_session (Mem.addr 0)
      = Returns (m', pcap', q, n, err) /\
    (err <> None ->
     Mem.ReadPacket sample_heap pool_buffer fresh_session Mem.nilptr
       = Returns (m', pcap', q, n, err)) /\
    (err = None ->
     Mem.ReadPacket sample_heap pool_buffer fresh_session Mem.nilptr
       = Panics "invalid memory address or nil pointer dereference").
Proof.
  apply (ReadPacket_returns sample_heap pool_buffer fresh_session
           created_fileHeader 0%nat).
  - unfold Mem.pooled, Mem.wf. repeat split; vm_compute;
      try reflexivity; try discriminate; lia.
  - reflexivity.
  - vm_compute. discriminate.
Defined.

Lemma step_leaves_alone_witness :
  h (with_lasterr fresh_session ErrNoMorePacket) = h fresh_session /\
  isClosed (with_lasterr fresh_session ErrNoMorePacket) = isClosed fresh_session /\
  rd (with_lasterr fresh_session ErrNoMorePacket) = rd fresh_session /\
  fsize (with_lasterr fresh_session ErrNoMorePacket) = fsize fresh_session /\
  (Some io_EOF <> None ->
   count (with_lasterr fresh_session ErrNoMorePacket) = count fresh_session) /\
  (Some io_EOF = None ->
   count (with_lasterr fresh_session ErrNoMorePacket)
     = int32 (count fresh_session + 1)).
Proof.
  apply (step_leaves_alone fresh_session
           (with_lasterr fresh_session ErrNoMorePacket)
           (OpRead packetPool_New) (Some io_EOF)).
  vm_compute. reflexivity.
Defined.

Lemma Close_once_witness :
  Close fresh_session =
    (mkPCAP None (fst (CloseStore (rd fresh_session))) 0 0 true ErrOk 0,
     snd (CloseStore (rd fresh_session))) /\
  Len_ (fst (Close fresh_session)) = 0 /\
  Next (fst (Close fresh_session)) = false /\
  LastError (fst (Close fresh_session)) = ErrOk /\
  Close (fst (Close fresh_session)) =
    (fst (Close fresh_session), Some (errors_New "file is already closed")).
Proof.
  apply (Close_once fresh_session). reflexivity.
Defined.

(** ** Reads on a file: the ways they end *)

Lemma File_ReadAt_eof (f : File) (n off : Z) :
  closed f = false -> readable f = true ->
  0 <= off -> 0 < n -> len (content f) < off + n ->
  snd (File_ReadAt f n off) = Some io_EOF.
Proof.
  intros Hc Hr Hoff Hn Hshort. unfold File_ReadAt. rewrite Hc, Hr.
  destruct (Z.ltb_spec off 0); [lia|].
  destruct (Z.leb_spec n 0); [lia|]. cbn [negb].
  destruct (Z.ltb_spec (len (firstn (Z.to_nat n)
                                 (skipn (Z.to_nat off) (content f)))) n)
    as [_|Hfull]; [reflexivity|].
  unfold len in *. rewrite length_firstn, length_skipn in Hfull. lia.
Qed.

Lemma reslice_beyond (s : slice) (n : Z) :
  cap s < n -> reslice s n = Panics "slice bounds out of range".
Proof.
  intros Hn. unfold reslice.
  destruct (Z.leb_spec n (cap s)); [lia|]. rewrite andb_false_r. reflexivity.
Qed.

(** A read on a file that holds ten bytes at the cursor: the cursor
    moves behind them and the decoder sees them. *)
Lemma ReadPacket_header_read (b1 : slice) (pcap : PCAP File) (hd : fileHeader)
    (hdr pre post : list byte) :
  pooled b1 ->
  h pcap = Some hd ->
  closed (rd pcap) = false -> readable (rd pcap) = true ->
  content (rd pcap) = pre ++ hdr ++ post -> length hdr = 10%nat ->
  offset pcap = len pre -> len pre < 2 ^ 62 ->
  ReadPacket b1 pcap =
    (r <- unmarshalPacketHeader hdr (snapLen hd) ;;
     let '(ph, erroffset, err) := r in
     match err, ph with
     | Some e, _ =>
         Returns (with_lasterr (with_offset pcap (len pre + 10)) ErrInvalidHeader,
                  None, 0,
                  Some (ParseError (int64 (erroffset + (len pre + 10))) e))
     | None, None => Panics "invalid memory address or nil pointer dereference"
     | None, Some ph =>
         b <- reslice (mkslice (hdr ++ skipn 10 (backing b1)) minPacketSize)
                      (plen ph) ;;
         let '(b, n, err) := read_into (rd pcap) b (len pre + 10) in
         match err with
         | Some e =>
             Returns (with_lasterr (with_offset pcap (len pre + 10))
                                   (read_failure e), None, 0, Some e)
         | None =>
             Returns (with_offset
                        (with_count (with_offset pcap (len pre + 10))
                                    (int32 (count pcap + 1)))
                        (int64 (len pre + 10 + n)),
                      Some (mkPacket (ifindex ph) (ptype ph) (timestamp ph)
                                     (plen ph) (elems b)),
                      minPacketSize + n, None)
         end
     end).
Proof.
  intros [Hcap Hslen] Hh Hc Hr Hcontent Hten Hoff Hpre.
  pose proof (len_nonneg pre) as Hpre0.
  change MaxSnapLength with 16383 in *.
  unfold ReadPacket.
  rewrite reslice_ok by lia. cbn [bind].
  rewrite reslice_ok by (unfold cap in *; cbn [backing]; unfold minPacketSize; lia).
  cbn [bind backing]. rewrite Hoff.
  unfold read_into at 1. cbv [ReadAt File_ReaderWriterCloser]. cbn [slen].
  replace minPacketSize with (len hdr) at 1 by (unfold len; rewrite Hten; reflexivity).
  rewrite (File_ReadAt_within (rd pcap) pre hdr post Hc Hr Hcontent).
  change (Z.to_nat minPacketSize) with 10%nat.
  rewrite (firstn_all2 hdr) by lia. cbn [backing].
  rewrite overlay_front, Hten.
  replace (len hdr) with 10 by (unfold len; rewrite Hten; reflexivity).
  rewrite int64_small by lia.
  cbn [h with_offset offset rd count]. rewrite Hh. cbn [deref bind].
  unfold elems at 1. cbn [slen backing]. change (Z.to_nat minPacketSize) with 10%nat.
  rewrite firstn_exact by (symmetry; exact Hten).
  reflexivity.
Qed.

Lemma cap_after_header (b1 : slice) (hdr : list byte) (n : Z) :
  pooled b1 -> length hdr = 10%nat ->
  cap (mkslice (hdr ++ skipn 10 (backing b1)) n) = MaxSnapLength.
Proof.
  intros [Hcap _] Hten. change MaxSnapLength with 16383 in *.
  unfold cap, len in *. cbn [backing].
  rewrite length_app, length_skipn. lia.
Qed.

(** X8: with fewer than ten bytes left at the cursor, [ReadPacket] on an
    open file returns 0 and [io.EOF], records [ErrNoMorePacket], and
    leaves the cursor, the packet count and everything else alone. *)
Theorem ReadPacket_at_end (b0 : slice) (pcap : PCAP File) :
  pooled b0 ->
  closed (rd pcap) = false -> readable (rd pcap) = true ->
  0 <= offset pcap ->
  len (content (rd pcap)) < offset pcap + 10 ->
  ReadPacket b0 pcap =
    Returns (with_lasterr pcap ErrNoMorePacket, None, 0, Some io_EOF).
Proof.
  intros [Hcap Hslen] Hc Hr Hoff Hend.
  change MaxSnapLength with 16383 in *.
  unfold ReadPacket.
  rewrite reslice_ok by lia. cbn [bind].
  rewrite reslice_ok by (unfold cap in *; cbn [backing]; unfold minPacketSize; lia).
  cbn [bind backing]. unfold read_into.
  cbv [ReadAt File_ReaderWriterCloser]. cbn [slen].
  pose proof (File_ReadAt_eof (rd pcap) minPacketSize (offset pcap) Hc Hr Hoff)
    as Heof.
  destruct (File_ReadAt (rd pcap) minPacketSize (offset pcap)) as [got err].
  cbn [snd] in Heof. rewrite Heof by (unfold minPacketSize; lia).
  reflexivity.
Qed.

Lemma ReadPacket_at_end_witness :
  ReadPacket packetPool_New fresh_session =
    Returns (with_lasterr fresh_session ErrNoMorePacket, None, 0, Some io_EOF).
Proof.
  apply (ReadPacket_at_end packetPool_New fresh_session).
  - split; vm_compute; [reflexivity | split; discriminate].
  - reflexivity.
  - reflexivity.
  - vm_compute. discriminate.
  - vm_compute. reflexivity.
Defined.

(** X9: where the file ends inside the payload a valid packet header
    declares, [ReadPacket] returns 0 and [io.EOF] and records
    [ErrNoMorePacket]; no packet is delivered or counted, but the cursor
    has moved past the ten header bytes and stays there. *)
Theorem ReadPacket_truncated_payload (b1 : slice) (pcap : PCAP File)
    (hd : fileHeader) (p : Packet) (pre part : list byte) :
  pooled b1 ->
  h pcap = Some hd ->
  closed (rd pcap) = false -> readable (rd pcap) = true ->
  content (rd pcap) = pre ++ frame_header p ++ part ->
  offset pcap = len pre -> len pre < 2 ^ 62 ->
  is_packet_class (PacketType p) ->
  is_uint32 (Timestamp p) -> Timestamp p <> 0 ->
  0 <= Len p <= snapLen hd -> Len p <= MaxSnapLength ->
  len part < Len p ->
  ReadPacket b1 pcap =
    Returns (with_lasterr (with_offset pcap (len pre + 10)) ErrNoMorePacket,
             None, 0, Some io_EOF).
Proof.
  intros Hpool Hh Hc Hr Hcontent Hoff Hpre Hclass Hts Hnz HLen Hmax Hshort.
  pose proof Hpool as [Hcap Hslen].
  pose proof (len_nonneg pre) as Hpre0. pose proof (len_nonneg part) as Hp0.
  change MaxSnapLength with 16383 in *.
  rewrite (ReadPacket_header_read b1 pcap hd (frame_header p) pre part
             Hpool Hh Hc Hr Hcontent eq_refl Hoff Hpre).
  rewrite (unmarshalPacketHeader_frame_header p (snapLen hd) Hclass Hts Hnz)
    by (unfold is_uint32; lia).
  cbn [bind plen].
  rewrite reslice_ok
    by (rewrite (cap_after_header b1 (frame_header p)) by (assumption || reflexivity);
        change MaxSnapLength with 16383; lia).
  cbn [bind backing]. unfold read_into.
  cbv [ReadAt File_ReaderWriterCloser]. cbn [slen].
  assert (Heof : snd (File_ReadAt (rd pcap) (Len p) (len pre + 10)) = Some io_EOF).
  { apply File_ReadAt_eof; try assumption; try lia.
    rewrite Hcontent, !len_app, len_frame_header. lia. }
  destruct (File_ReadAt (rd pcap) (Len p) (len pre + 10)) as [got err].
  cbn [snd] in Heof. rewrite Heof. reflexivity.
Qed.

Lemma ReadPacket_truncated_payload_witness :
  ReadPacket packetPool_New truncated_session =
    Returns (with_lasterr (with_offset truncated_session (len created_header + 10))
                          ErrNoMorePacket,
             None, 0, Some io_EOF).
Proof.
  apply (ReadPacket_truncated_payload packetPool_New truncated_session
           created_fileHeader packet_abc created_header [Byte.x61]).
  - split; vm_compute; [reflexivity | split; discriminate].
  - reflexivity.
  - reflexivity.
  - reflexivity.
  - reflexivity.
  - reflexivity.
  - vm_compute. reflexivity.
  - left. reflexivity.
  - split; vm_compute; [discriminate | reflexivity].
  - discriminate.
  - split; vm_compute; discriminate.
  - vm_compute. discriminate.
  - vm_compute. reflexivity.
Defined.

(** X10: where the ten bytes at the cursor fail the packet header
    decoder at in-header offset [k], [ReadPacket] returns 0 and a
    [ParseError] that wraps the decoder's error, records
    [ErrInvalidHeader], counts no packet, and leaves the cursor behind
    the ten bytes. The offset in the [ParseError] is [k] past that new
    cursor, that is ten bytes past the field that failed. *)
Theorem ReadPacket_invalid_header (b1 : slice) (pcap : PCAP File)
    (hd : fileHeader) (hdr pre post : list byte) (k : Z) (e : error) :
  pooled b1 ->
  h pcap = Some hd ->
  closed (rd pcap) = false -> readable (rd pcap) = true ->
  content (rd pcap) = pre ++ hdr ++ post -> length hdr = 10%nat ->
  offset pcap = len pre -> len pre < 2 ^ 62 ->
  unmarshalPacketHeader hdr (snapLen hd) = Returns (None, k, Some e) ->
  ReadPacket b1 pcap =
    Returns (with_lasterr (with_offset pcap (len pre + 10)) ErrInvalidHeader,
             None, 0, Some (ParseError (len pre + 10 + k) e)).
Proof.
  intros Hpool Hh Hc Hr Hcontent Hten Hoff Hpre Hdec.
  pose proof (len_nonneg pre) as Hpre0.
  rewrite (ReadPacket_header_read b1 pcap hd hdr pre post
             Hpool Hh Hc Hr Hcontent Hten Hoff Hpre).
  destruct (unmarshalPacketHeader_returns hdr (snapLen hd) Hten)
    as [(k' & e' & Hfail & Hk)|(ph & Hok & _)].
  - rewrite Hdec in Hfail. injection Hfail as <- <-.
    rewrite Hdec. cbn [bind]. rewrite int64_small by lia.
    do 4 f_equal. lia.
  - rewrite Hdec in Hok. discriminate.
Qed.

Lemma ReadPacket_invalid_header_witness :
  ReadPacket packetPool_New garbage_session =
    Returns (with_lasterr (with_offset garbage_session (len created_header + 10))
                          ErrInvalidHeader,
             None, 0,
             Some (ParseError (len created_header + 10 + 0)
                              (errors_New "undefined packet type"))).
Proof.
  apply (ReadPacket_invalid_header packetPool_New garbage_session
           created_fileHeader (repeat Byte.x00 10) created_header []).
  - split; vm_compute; [reflexivity | split; discriminate].
  - reflexivity.
  - reflexivity.
  - reflexivity.
  - reflexivity.
  - reflexivity.
  - reflexivity.
  - vm_compute. reflexivity.
  - vm_compute. reflexivity.
Defined.

(** X7: where a valid packet header declares a length above
    [MaxSnapLength] that the session's snap length allows, [ReadPacket]
    panics: it reslices the pooled buffer beyond its capacity. *)
Theorem ReadPacket_wide_length_panics (b1 : slice) (pcap : PCAP File)
    (hd : fileHeader) (p : Packet) (pre post : list byte) :
  pooled b1 ->
  h pcap = Some hd ->
  closed (rd pcap) = false -> readable (rd pcap) = true ->
  content (rd pcap) = pre ++ frame_header p ++ post ->
  offset pcap = len pre -> len pre < 2 ^ 62 ->
  is_packet_class (PacketType p) ->
  is_uint32 (Timestamp p) -> Timestamp p <> 0 ->
  is_uint32 (Len p) ->
  MaxSnapLength < Len p <= snapLen hd ->
  ReadPacket b1 pcap = Panics "slice bounds out of range".
Proof.
  intros Hpool Hh Hc Hr Hcontent Hoff Hpre Hclass Hts Hnz HLen Hwide.
  pose proof Hpool as [Hcap Hslen].
  change MaxSnapLength with 16383 in *.
  rewrite (ReadPacket_header_read b1 pcap hd (frame_header p) pre post
             Hpool Hh Hc Hr Hcontent eq_refl Hoff Hpre).
  rewrite (unmarshalPacketHeader_frame_header p (snapLen hd) Hclass Hts Hnz HLen)
    by lia.
  cbn [bind plen].
  rewrite reslice_beyond
    by (rewrite (cap_after_header b1 (frame_header p)) by (assumption || reflexivity);
        change MaxSnapLength with 16383; lia).
  reflexivity.
Qed.

Lemma ReadPacket_wide_length_panics_witness :
  Open (RegularFile (wide_snap_header ++ frame_header packet_wide))
    = Returns (Some wide_session, None) /\
  ReadPacket packetPool_New wide_session = Panics "slice bounds out of range".
Proof.
  split; [vm_compute; reflexivity|].
  apply (ReadPacket_wide_length_panics packetPool_New wide_session
           (mkFileHeader lpcapmx 1 1 65535 0) packet_wide wide_snap_header []).
  - split; vm_compute; [reflexivity | split; discriminate].
  - reflexivity.
  - reflexivity.
  - reflexivity.
  - vm_compute. reflexivity.
  - reflexivity.
  - vm_compute. reflexivity.
  - left. reflexivity.
  - split; vm_compute; [discriminate | reflexivity].
  - discriminate.
  - split; vm_compute; [discriminate | reflexivity].
  - split; vm_compute; [reflexivity | discriminate].
Defined.

(** ** Opening *)

Lemma field_firstn (c : list byte) (off n m : nat) :
  (off + n <= m)%nat -> field (firstn m c) off n = field c off n.
Proof.
  intros Hm. unfold field. rewrite skipn_firstn_comm, firstn_firstn.
  replace (Nat.min n (m - off)) with n by lia. reflexivity.
Qed.

Lemma Open_cases (c : list byte) :
  14 <= len c ->
  Open (RegularFile c) =
    if negb (field c 0 2 =? lpcapmx)
    then Returns (None, Some (ParseError 0
           (errors_New "cannot parse PCAP file, invalid magix number")))
    else if field c 2 2 =? 0
    then Returns (None, Some (ParseError 2
           (errors_New "cannot parse PCAP file, invalid major version (is nil)")))
    else if field c 4 2 =? 0
    then Returns (None, Some (ParseError 4
           (errors_New "cannot parse PCAP file, invalid minor version (is nil)")))
    else if negb (field c 10 4 =? LinkTypeEthernet2)
            && negb (field c 10 4 =? LinkTypeEthernet80211)
    then Returns (None, Some (ParseError 10
           (errors_New "cannot parse PCAP file, link type is undefined")))
    else Returns (Some (opened c), None).
Proof.
  intros Hc. rewrite (Open_RegularFile c Hc).
  rewrite unmarshalFileHeader_cases
    by (rewrite length_firstn; unfold len in Hc; lia).
  rewrite !field_firstn by lia.
  destruct (negb (field c 0 2 =? lpcapmx)); [reflexivity|].
  destruct (field c 2 2 =? 0); [reflexivity|].
  destruct (field c 4 2 =? 0); [reflexivity|].
  destruct (negb (field c 10 4 =? LinkTypeEthernet2)
            && negb (field c 10 4 =? LinkTypeEthernet80211)); reflexivity.
Qed.

Lemma Open_iff (path : path_state) (pcap : PCAP File) :
  Open path = Returns (Some pcap, None) <->
  exists c,
    path = RegularFile c /\ 14 <= len c /\
    field c 0 2 = lpcapmx /\ field c 2 2 <> 0 /\ field c 4 2 <> 0 /\
    (field c 10 4 = LinkTypeEthernet2 \/ field c 10 4 = LinkTypeEthernet80211) /\
    pcap = opened c.
Proof.
  split.
  - intros Ho. destruct path as [|c|e]; try discriminate Ho.
    destruct (Z.lt_ge_cases (len c) 14) as [Hs|Hc].
    { unfold Open in Ho. cbn [os_Open content] in Ho.
      destruct (Z.ltb_spec (len c) minFileSize) as [_|Hge];
        [discriminate Ho | unfold minFileSize in Hge; lia]. }
    rewrite (Open_cases c Hc) in Ho.
    destruct (Z.eqb_spec (field c 0 2) lpcapmx) as [Emx|]; [|discriminate Ho].
    destruct (Z.eqb_spec (field c 2 2) 0) as [|Nmaj]; [discriminate Ho|].
    destruct (Z.eqb_spec (field c 4 2) 0) as [|Nmin]; [discriminate Ho|].
    cbn [negb] in Ho.
    exists c.
    destruct (Z.eqb_spec (field c 10 4) LinkTypeEthernet2) as [E2|N2];
      destruct (Z.eqb_spec (field c 10 4) LinkTypeEthernet80211) as [E8|N8];
      cbn [negb andb] in Ho; try discriminate Ho;
      injection Ho as <-; repeat split; auto.
  - intros (c & -> & Hc & Emx & Nmaj & Nmin & Hlink & ->).
    rewrite (Open_cases c Hc).
    destruct (Z.eqb_spec (field c 0 2) lpcapmx); [|contradiction].
    destruct (Z.eqb_spec (field c 2 2) 0); [contradiction|].
    destruct (Z.eqb_spec (field c 4 2) 0); [contradiction|].
    cbn [negb].
    destruct (Z.eqb_spec (field c 10 4) LinkTypeEthernet2);
      destruct (Z.eqb_spec (field c 10 4) LinkTypeEthernet80211);
      cbn [negb andb]; try reflexivity.
    destruct Hlink; contradiction.
Qed.

(** X12: [Open] returns a session exactly for a regular file of at
    least fourteen bytes that starts with the magic number, nonzero
    major and minor versions and a link-type word of [LinkTypeEthernet2]
    or [LinkTypeEthernet80211]. The session then has its cursor at 14,
    the file's length as tracked size, no packet counted, last error
    [ErrOk], a read-only handle, and a header with the versions and snap
    length of the file and the link type [LinkTypeNull]. *)
Theorem Open_session (path : path_state) (pcap : PCAP File) :
  Open path = Returns (Some pcap, None) <->
  exists c,
    path = RegularFile c /\ 14 <= len c /\
    field c 0 2 = lpcapmx /\ field c 2 2 <> 0 /\ field c 4 2 <> 0 /\
    (field c 10 4 = LinkTypeEthernet2 \/ field c 10 4 = LinkTypeEthernet80211) /\
    pcap = opened c /\
    offset pcap = 14 /\ fsize pcap = len c /\ Len_ pcap = 0 /\
    LastError pcap = ErrOk /\ LinkType_ pcap = Returns LinkTypeNull /\
    writable (rd pcap) = false.
Proof.
  rewrite Open_iff. split.
  - intros (c & Hp & Hc & Hmx & Hmaj & Hmin & Hlink & ->).
    exists c. repeat split; assumption.
  - intros (c & Hp & Hc & Hmx & Hmaj & Hmin & Hlink & Hs & _).
    exists c. repeat split; assumption.
Qed.

(** X13: [Open] does not panic and returns a session or an error,
    never both. A file shorter than fourteen bytes is turned down with
    the error that it is too small, before anything is decoded; a longer
    file that is turned down gets a [ParseError] at offset 0, 2, 4 or
    10. *)
Theorem Open_returns (c : list byte) :
  (len c < 14 ->
   Open (RegularFile c) =
     Returns (None, Some (errors_New "file length too small, cannot read file header"))) /\
  (14 <= len c ->
   Open (RegularFile c) = Returns (Some (opened c), None) \/
   exists k e, Open (RegularFile c) = Returns (None, Some (ParseError k e)) /\
               In k [0; 2; 4; 10]).
Proof.
  split.
  - intros Hs. unfold Open. cbn [os_Open content].
    destruct (Z.ltb_spec (len c) minFileSize) as [_|Hge];
      [reflexivity | unfold minFileSize in Hge; lia].
  - intros Hc. rewrite (Open_cases c Hc).
    destruct (negb (field c 0 2 =? lpcapmx));
      [right; do 2 eexists; split; [reflexivity | cbn; auto]|].
    destruct (field c 2 2 =? 0);
      [right; do 2 eexists; split; [reflexivity | cbn; auto]|].
    destruct (field c 4 2 =? 0);
      [right; do 2 eexists; split; [reflexivity | cbn; auto]|].
    destruct (negb (field c 10 4 =? LinkTypeEthernet2)
              && negb (field c 10 4 =? LinkTypeEthernet80211));
      [right; do 2 eexists; split; [reflexivity | cbn; auto]|].
    left. reflexivity.
Qed.

Lemma Open_returns_witness :
  Open (RegularFile [Byte.x3e; Byte.x4f]) =
    Returns (None, Some (errors_New "file length too small, cannot read file header")) /\
  (Open (RegularFile readable_header) = Returns (Some (opened readable_header), None) \/
   exists k e, Open (RegularFile readable_header)
                 = Returns (None, Some (ParseError k e)) /\ In k [0; 2; 4; 10]).
Proof.
  split.
  - apply (Open_returns [Byte.x3e; Byte.x4f]). vm_compute. reflexivity.
  - apply (Open_returns readable_header). vm_compute. discriminate.
Defined.

(** X14: a session [Open] returned cannot be written to. With a pooled
    buffer and a [Len] of at most [MaxSnapLength] - 10, [WritePacket]
    returns 0 and an error and leaves the file, the tracked size and the
    cursor as they were. Which code it records is decided by the payload
    and the snap length of the header [Open] decoded: [ErrSizeOverflow]
    where the payload with the ten header bytes exceeds the snap length,
    and otherwise [ErrWrite], with the error of the read-only handle. *)
Theorem WritePacket_on_opened_fails (path : path_state) (pcap : PCAP File)
    (b0 : slice) (p : Packet) :
  Open path = Returns (Some pcap, None) ->
  pooled b0 ->
  0 <= Len p <= MaxSnapLength - 10 ->
  exists pcap' e hd,
    h pcap = Some hd /\
    WritePacket b0 pcap p = Returns (pcap', 0, Some e) /\
    (len (Data p) + 10 > snapLen hd -> LastError pcap' = ErrSizeOverflow) /\
    (len (Data p) + 10 <= snapLen hd ->
     LastError pcap' = ErrWrite /\
     e = os_PathError "write" "bad file descriptor") /\
    rd pcap' = rd pcap /\ fsize pcap' = fsize pcap /\
    offset pcap' = offset pcap.
Proof.
  intros Ho Hpool HLen.
  apply Open_iff in Ho. destruct Ho as (c & _ & _ & _ & _ & _ & _ & ->).
  set (hd := mkFileHeader (field c 0 2) (field c 2 2) (field c 4 2)
                          (field c 6 4) LinkTypeNull).
  destruct (Z.le_gt_cases (len (Data p) + 10) (snapLen hd)) as [Hfits|Hbig].
  - rewrite (WritePacket_written b0 (opened c) hd p Hpool eq_refl Hfits HLen).
    do 2 eexists. exists hd. split; [reflexivity|]. split; [reflexivity|].
    split; [intros Hgt; lia|].
    split; [intros _; split; reflexivity|].
    split; [reflexivity|]. split; reflexivity.
  - unfold WritePacket. cbn [opened h deref bind]. fold hd.
    destruct (Z.gtb_spec (len (Data p) + minPacketSize) (snapLen hd)) as [_|Hle];
      [|unfold minPacketSize in Hle; lia].
    do 2 eexists. exists hd. split; [reflexivity|]. split; [reflexivity|].
    split; [intros _; reflexivity|].
    split; [intros Hle; lia|].
    split; [reflexivity|]. split; reflexivity.
Qed.

Lemma WritePacket_on_opened_fails_witness :
  exists pcap' e hd,
    h (opened readable_header) = Some hd /\
    WritePacket packetPool_New (opened readable_header) packet_abc
      = Returns (pcap', 0, Some e) /\
    (len (Data packet_abc) + 10 > snapLen hd ->
     LastError pcap' = ErrSizeOverflow) /\
    (len (Data packet_abc) + 10 <= snapLen hd ->
     LastError pcap' = ErrWrite /\
     e = os_PathError "write" "bad file descriptor") /\
    rd pcap' = rd (opened readable_header) /\
    fsize pcap' = fsize (opened readable_header) /\
    offset pcap' = offset (opened readable_header).
Proof.
  apply (WritePacket_on_opened_fails (RegularFile readable_header)
           (opened readable_header) packetPool_New packet_abc).
  - vm_compute. reflexivity.
  - split; vm_compute; [reflexivity | split; discriminate].
  - split; vm_compute; discriminate.
Defined.

(** ** Creating *)

(** X16: [Create] does not truncate. On a path that can be opened it
    returns a session whose file starts with the fourteen header bytes
    and keeps whatever an existing file held from offset 14 on; the
    session's cursor and tracked size are 14 all the same, so [Next] is
    false, and its link type is [LinkTypeEthernet2]. On a path that
    cannot be opened it returns that error and no session. *)
Theorem Create_keeps_tail (path : path_state) :
  match path with
  | Unopenable e => Create path = Returns (None, Some e)
  | _ =>
      exists pcap,
        Create path = Returns (Some pcap, None) /\
        content (rd pcap) = created_header ++ skipn 14 (prior_content path) /\
        len (content (rd pcap)) = Z.max 14 (len (prior_content path)) /\
        offset pcap = 14 /\ fsize pcap = 14 /\ Next pcap = false /\
        Len_ pcap = 0 /\ LastError pcap = ErrOk /\
        LinkType_ pcap = Returns LinkTypeEthernet2
  end.
Proof.
  assert (Hlen : forall c : list byte,
             len (created_header ++ skipn 14 c) = Z.max 14 (len c)).
  { intros c. unfold len. rewrite length_app, length_skipn.
    change (length created_header) with 14%nat. lia. }
  destruct path as [|c|e].
  - eexists. split; [apply Create_NoFile|]. cbn [rd content prior_content].
    rewrite <- (Hlen []). repeat split.
  - eexists. split.
    + rewrite Create_unfold. cbn [os_OpenFile_RDWR_CREATE].
      cbv [Write File_ReaderWriterCloser File_Write closed writable negb
           content fpos readable].
      rewrite write_at_front. reflexivity.
    + cbn [rd content prior_content]. rewrite <- (Hlen c). repeat split.
  - reflexivity.
Qed.

(** ** Writing a sequence of packets and reading it back *)

Lemma int32_small (z : Z) : - 2 ^ 31 <= z < 2 ^ 31 -> int32 z = z.
Proof. intros Hz. unfold int32. rewrite Z.mod_small; lia. Qed.

Lemma frames_cons (p : Packet) (ps : list Packet) :
  frames (p :: ps) = frame p ++ frames ps.
Proof. reflexivity. Qed.

Lemma len_frames_bound (ps : list Packet) :
  Forall valid_packet ps -> 0 <= len (frames ps) <= MaxSnapLength * len ps.
Proof.
  change MaxSnapLength with 16383.
  induction 1 as [|p ps Hp _ IH].
  - cbn. lia.
  - rewrite frames_cons, len_app, len_frame.
    destruct Hp as (_ & _ & _ & _ & Hfit). change MaxSnapLength with 16383 in Hfit.
    pose proof (len_nonneg (Data p)).
    unfold len in *. cbn [length]. lia.
Qed.

(** One valid packet more on a session made by [Create]. *)
Lemma WritePacket_appends (b0 : slice) (pcap : PCAP File) (p : Packet)
    (X : list byte) (o c : Z) :
  written pcap X o c -> pooled b0 -> valid_packet p -> len X < 2 ^ 62 ->
  exists pcap',
    WritePacket b0 pcap p = Returns (pcap', 10 + len (Data p), None) /\
    written pcap' (X ++ frame p) o c.
Proof.
  intros (Hh & Hc & Hr & Hw & (post & Hcontent) & Hpos & Hsize & Ho & Hcount)
         Hpool (Hclass & Hts & Hnz & HLen & Hfit) HX.
  pose proof (len_nonneg (Data p)) as HL0. pose proof (len_nonneg X) as HX0.
  change MaxSnapLength with 16383 in *.
  rewrite (WritePacket_frame b0 pcap created_fileHeader p Hpool Hh)
    by (exact HLen || (cbn [snapLen created_fileHeader];
                       change MaxSnapLength with 16383; lia)).
  cbv [Write File_ReaderWriterCloser File_Write]. rewrite Hc, Hw. cbn [negb].
  rewrite Hcontent, Hpos, (write_at_after X post (frame p) (len X) eq_refl).
  rewrite len_frame, Hsize, int64_small by lia.
  eexists. split; [reflexivity|].
  unfold written.
  cbn [h rd closed readable writable content fpos fsize offset count
       with_fsize with_rd].
  rewrite len_app, len_frame.
  repeat split; try assumption.
  exists (skipn (length (frame p)) post). rewrite <- app_assoc. reflexivity.
Qed.

(** One valid packet more on a session made by [Create], from a
    payload outside the array of the pooled buffer. *)
Lemma Mem_WritePacket_appends (m : Mem.heap) (b0 : Mem.sref)
    (pcap : PCAP File) (p : Mem.Packet) (X : list byte) (o c : Z) :
  written pcap X o c -> Mem.pooled m b0 ->
  Mem.wf m (Mem.Data p) -> Mem.arr (Mem.Data p) <> Mem.arr b0 ->
  valid_packet (Mem.value m p) -> len X < 2 ^ 62 ->
  exists m' pcap',
    Mem.WritePacket m b0 pcap p
      = Returns (m', pcap', 10 + len (Data (Mem.value m p)), None) /\
    written pcap' (X ++ frame (Mem.value m p)) o c /\
    Mem.stores_to (Mem.arr b0) m m'.
Proof.
  intros Hwr Hpool Hwf Hne Hvalid HX.
  destruct (WritePacket_appends (Mem.view m b0) pcap (Mem.value m p) X o c
              Hwr (pooled_view m b0 Hpool) Hvalid HX) as (pcap' & Hw & Hwr').
  destruct (Mem_WritePacket_of_value m b0 pcap pcap' p _ _
              (proj1 Hpool) Hwf Hne Hw) as (m' & HW & Hst).
  exists m', pcap'. split; [exact HW|]. split; assumption.
Qed.

Lemma Mem_WritePackets_appends (ws : list (Mem.sref * Mem.Packet))
    (m : Mem.heap) (pcap : PCAP File) (X : list byte) (o c : Z) :
  written pcap X o c ->
  Forall (fun w => Mem.pooled m (fst w) /\ Mem.wf m (Mem.Data (snd w)) /\
                   valid_packet (Mem.value m (snd w))) ws ->
  (forall w w', In w ws -> In w' ws ->
                Mem.arr (Mem.Data (snd w')) <> Mem.arr (fst w)) ->
  len X + MaxSnapLength * len ws < 2 ^ 62 ->
  exists m' pcap',
    Mem.WritePackets m pcap ws = Returns (m', pcap') /\
    written pcap' (X ++ frames (map (fun w => Mem.value m (snd w)) ws)) o c /\
    (forall r, Mem.pooled m r -> Mem.pooled m' r).
Proof.
  revert m pcap X.
  induction ws as [|[b0 p] ws IH]; intros m pcap X Hwr Hall Hapart Hbound.
  - exists m, pcap. split; [reflexivity|]. cbn [map frames concat].
    rewrite app_nil_r. split; [exact Hwr | auto].
  - apply Forall_cons_iff in Hall. destruct Hall as [(Hpool & Hwf & Hvalid) Hrest].
    cbn [fst snd] in *.
    change MaxSnapLength with 16383 in *.
    assert (Hlen : len ((b0, p) :: ws) = 1 + len ws)
      by (unfold len; cbn [length]; lia).
    pose proof (len_nonneg ws) as Hws. pose proof (len_nonneg X) as HX0.
    assert (Hne : Mem.arr (Mem.Data p) <> Mem.arr b0)
      by (apply (Hapart (b0, p) (b0, p)); left; reflexivity).
    destruct (Mem_WritePacket_appends m b0 pcap p X o c Hwr Hpool Hwf Hne Hvalid)
      as (m1 & pcap1 & Hw1 & Hwr1 & Hst); [lia|].
    assert (Hsame : forall w, In w ws ->
              Mem.value m1 (snd w) = Mem.value m (snd w)).
    { intros w Hin. unfold Mem.value, Mem.bytes.
      rewrite (stores_to_view _ _ _ (Mem.Data (snd w)) Hst); [reflexivity|].
      apply (Hapart (b0, p) w); [left; reflexivity | right; exact Hin]. }
    destruct (IH m1 pcap1 (X ++ frame (Mem.value m p)) Hwr1)
      as (m' & pcap' & Hws' & Hwr' & Hkeep).
    { rewrite Forall_forall in Hrest |- *. intros w Hin.
      destruct (Hrest w Hin) as (Hp' & Hwf' & Hv').
      split; [exact (stores_to_pooled _ _ _ _ Hst Hp')|].
      split; [exact (stores_to_wf _ _ _ _ Hst Hwf')|].
      rewrite (Hsame w Hin). exact Hv'. }
    { intros w w' Hin Hin'. apply Hapart; right; assumption. }
    { rewrite len_app, len_frame.
      destruct Hvalid as (_ & _ & _ & _ & Hfit).
      change MaxSnapLength with 16383 in Hfit. lia. }
    exists m', pcap'. split; [|split].
    + cbn [Mem.WritePackets]. rewrite Hw1. cbn [bind]. exact Hws'.
    + cbn [map snd]. rewrite frames_cons, app_assoc.
      rewrite (map_ext_in _ _ ws Hsame) in Hwr'. exact Hwr'.
    + intros r Hr. apply Hkeep. exact (stores_to_pooled _ _ _ _ Hst Hr).
Qed.

(** The read loop over frames that lie in the file from the cursor to
    the tracked size: each packet shows, when its call returns, the
    bytes of its frame. *)
Lemma Mem_ReadWhileNext_frames (ps : list PacketValue) (bs : list Mem.sref)
    (m : Mem.heap) (pcap : PCAP File) (pre post : list byte) (c : Z)
    (dst : nat) :
  h pcap = Some created_fileHeader ->
  closed (rd pcap) = false -> readable (rd pcap) = true ->
  content (rd pcap) = pre ++ frames ps ++ post ->
  offset pcap = len pre -> fsize pcap = len pre + len (frames ps) ->
  count pcap = c -> 0 <= c -> c + len ps < 2 ^ 31 ->
  fsize pcap < 2 ^ 62 ->
  Forall valid_packet ps -> Forall (Mem.pooled m) bs ->
  (length ps <= length bs)%nat ->
  exists m' pcap',
    Mem.ReadWhileNext m pcap bs (Mem.addr dst) = Returns (m', pcap', ps, None) /\
    count pcap' = c + len ps /\ offset pcap' = fsize pcap' /\
    fsize pcap' = fsize pcap.
Proof.
  revert bs m pcap pre c.
  induction ps as [|p ps IH];
    intros bs m pcap pre c Hh Hc Hr Hcontent Hoff Hsize Hcount Hc0 Hcb Hfb
           Hvalid Hpools Hbs.
  - cbn [frames map concat] in *. change (len (@nil byte)) with 0 in Hsize.
    change (len (@nil PacketValue)) with 0.
    assert (HN : Next pcap = false) by (unfold Next; apply Z.ltb_ge; lia).
    exists m, pcap. split; [|lia].
    destruct bs as [|b0 bs]; cbn [Mem.ReadWhileNext]; [|rewrite HN]; reflexivity.
  - destruct bs as [|b1 bs]; [cbn [length] in Hbs; lia|].
    apply Forall_cons_iff in Hvalid. destruct Hvalid as [Hp Hps].
    apply Forall_cons_iff in Hpools. destruct Hpools as [Hb1 Hbs'].
    pose proof Hp as (Hclass & Hts & Hnz & HLen & Hfit).
    pose proof (len_nonneg pre) as Hpre0.
    pose proof (len_nonneg (Data p)) as HL0.
    pose proof (len_nonneg (frames ps)) as HF0.
    pose proof (len_nonneg ps) as Hps0.
    assert (Hlen : len (p :: ps) = 1 + len ps)
      by (unfold len; cbn [length]; lia).
    rewrite frames_cons, len_app, len_frame in Hsize.
    rewrite frames_cons, <- app_assoc in Hcontent.
    change MaxSnapLength with 16383 in *.
    assert (HN : Next pcap = true) by (unfold Next; apply Z.ltb_lt; lia).
    assert (HR : ReadPacket (Mem.view m b1) pcap =
                 Returns (with_offset
                            (with_count (with_offset pcap (len pre + 10))
                                        (int32 (count pcap + 1)))
                            (len pre + 10 + len (Data p)),
                          Some p, 10 + len (Data p), None)).
    { apply (ReadPacket_frame (Mem.view m b1) pcap created_fileHeader p pre
               (frames ps ++ post) (pooled_view m b1 Hb1) Hh Hc Hr Hcontent Hoff);
        try assumption; try lia;
        cbn [snapLen created_fileHeader]; change MaxSnapLength with 16383; lia. }
    destruct (Mem_ReadPacket_of_value m b1 pcap _ dst _ _ _ (proj1 Hb1) HR)
      as (m1 & q & HRm & Hq & Hst).
    set (pc := with_offset
                (with_count (with_offset pcap (len pre + 10))
                            (int32 (count pcap + 1)))
                (len pre + 10 + len (Data p))) in *.
    destruct (IH bs m1 pc (pre ++ frame p) (c + 1))
      as (m' & pcap' & Hloop & Hcnt & Hend & Hfs);
      try assumption; subst pc;
      cbn [h rd offset fsize count with_offset with_count];
      try assumption; try lia.
    + rewrite Hcontent, app_assoc. reflexivity.
    + rewrite len_app, len_frame. lia.
    + rewrite len_app, len_frame. lia.
    + rewrite Hcount. apply int32_small. lia.
    + eapply Forall_impl; [|exact Hbs']. intros r. apply stores_to_pooled with (1 := Hst).
    + cbn [length] in Hbs. lia.
    + exists m', pcap'. split; [|split; [lia|split; [exact Hend|exact Hfs]]].
      cbn [Mem.ReadWhileNext]. rewrite HN, HRm. cbn [bind].
      rewrite Hq, Hloop. reflexivity.
Qed.

(** X11: on a session [Create] returned, valid packets whose payloads
    lie outside the arrays of the pooled buffers, written one after the
    other with [WritePacket], are read back by the loop
    [for pcap.Next() { pcap.ReadPacket(p) }] on the same session, all of
    them and in the order written: each packet shows, when its call
    returns and before the next call, the fields and the payload bytes
    that were written. [Next] is true before each of these reads and
    false after the last, and [Len] is then the number of packets. *)
Theorem WritePackets_ReadWhileNext (path : path_state) (pcap : PCAP File)
    (m : Mem.heap) (ws : list (Mem.sref * Mem.Packet)) (bs : list Mem.sref)
    (dst : nat) :
  Create path = Returns (Some pcap, None) ->
  Forall (fun w => Mem.pooled m (fst w) /\ Mem.wf m (Mem.Data (snd w)) /\
                   valid_packet (Mem.value m (snd w))) ws ->
  (forall w w', In w ws -> In w' ws ->
                Mem.arr (Mem.Data (snd w')) <> Mem.arr (fst w)) ->
  Forall (Mem.pooled m) bs ->
  (length ws <= length bs)%nat ->
  len ws < 2 ^ 31 ->
  exists m1 pcap1 m2 pcap2,
    Mem.WritePackets m pcap ws = Returns (m1, pcap1) /\
    Mem.ReadWhileNext m1 pcap1 bs (Mem.addr dst)
      = Returns (m2, pcap2, map (fun w => Mem.value m (snd w)) ws, None) /\
    Len_ pcap2 = len ws /\ Next pcap2 = false.
Proof.
  intros Hc Hall Hapart Hpools Hbs HK.
  pose proof (len_nonneg ws) as HK0.
  assert (Hwr : written pcap created_header 14 0).
  { rewrite (Create_spec path pcap Hc). unfold written.
    cbn [h rd closed readable writable content fpos fsize offset count].
    repeat split. eexists. reflexivity. }
  destruct (Mem_WritePackets_appends ws m pcap created_header 14 0 Hwr Hall Hapart)
    as (m1 & pcap1 & Hws & Hwr1 & Hkeep).
  { change (len created_header) with 14. change MaxSnapLength with 16383. lia. }
  destruct Hwr1 as (Hh & Hcl & Hr & _ & (post & Hcontent) & _ & Hsize & Ho & Hcnt).
  set (vs := map (fun w => Mem.value m (snd w)) ws : list Packet) in *.
  assert (Hvalid : Forall valid_packet vs).
  { apply Forall_map. eapply Forall_impl; [|exact Hall].
    intros w (_ & _ & Hv). exact Hv. }
  pose proof (len_frames_bound vs Hvalid) as Hfb.
  assert (Hlm : @len Packet vs = len ws)
    by (unfold len, vs; rewrite length_map; reflexivity).
  rewrite Hlm in Hfb. change MaxSnapLength with 16383 in Hfb.
  rewrite len_app in Hsize. change (len created_header) with 14 in Hsize.
  rewrite <- app_assoc in Hcontent.
  destruct (Mem_ReadWhileNext_frames vs bs m1 pcap1 created_header post 0 dst)
    as (m2 & pcap2 & Hloop & Hcount & Hend & _);
    unfold PacketValue in *; try assumption; try lia.
  - eapply Forall_impl; [|exact Hpools]. exact Hkeep.
  - unfold vs. rewrite length_map. exact Hbs.
  - exists m1, pcap1, m2, pcap2. split; [exact Hws|]. split; [exact Hloop|].
    split.
    + unfold Len_. rewrite Hcount, Hlm. lia.
    + unfold Next. rewrite Hend. apply Z.ltb_irrefl.
Qed.

Lemma WritePackets_ReadWhileNext_witness :
  exists m1 pcap1 m2 pcap2,
    Mem.WritePackets sample_heap fresh_session
      [(pool_buffer, abc_on_heap); (pool_buffer, abc_on_heap)]
      = Returns (m1, pcap1) /\
    Mem.ReadWhileNext m1 pcap1 [pool_buffer; pool_buffer; pool_buffer]
                      (Mem.addr 0)
      = Returns (m2, pcap2,
                 map (fun w => Mem.value sample_heap (snd w))
                     [(pool_buffer, abc_on_heap); (pool_buffer, abc_on_heap)],
                 None) /\
    Len_ pcap2 = len [(pool_buffer, abc_on_heap); (pool_buffer, abc_on_heap)] /\
    Next pcap2 = false.
Proof.
  assert (Hpool : Mem.pooled sample_heap pool_buffer).
  { unfold Mem.pooled, Mem.wf. repeat split; vm_compute;
      try reflexivity; try discriminate; lia. }
  assert (Habc : Mem.wf sample_heap (Mem.Data abc_on_heap) /\
                 valid_packet (Mem.value sample_heap abc_on_heap)).
  { split.
    - unfold Mem.wf. repeat split; vm_compute;
        try reflexivity; try discriminate; lia.
    - split; [left; reflexivity|].
      split; [split; vm_compute; [discriminate | reflexivity]|].
      split; [discriminate|]. split; [reflexivity|]. vm_compute. discriminate. }
  apply (WritePackets_ReadWhileNext NoFile fresh_session sample_heap
           [(pool_buffer, abc_on_heap); (pool_buffer, abc_on_heap)]
           [pool_buffer; pool_buffer; pool_buffer] 0%nat).
  - vm_compute. reflexivity.
  - repeat (apply Forall_cons; [cbn [fst snd]; split; assumption|]).
    apply Forall_nil.
  - intros w w' [<-|[<-|[]]] [<-|[<-|[]]]; cbn; discriminate.
  - repeat (apply Forall_cons; [assumption|]). apply Forall_nil.
  - cbn [length]. lia.
  - vm_compute. reflexivity.
Defined.

(** ** The cursor, the tracked size and the file *)

Lemma File_ReadAt_ok (f : File) (n off : Z) (got : list byte) :
  File_ReadAt f n off = (got, None) ->
  0 <= off /\
  ((n <= 0 /\ got = []) \/
   (0 < n /\ len got = n /\ off + n <= len (content f))).
Proof.
  unfold File_ReadAt.
  destruct (Z.ltb_spec off 0); [discriminate|].
  destruct (Z.leb_spec n 0).
  { intros [= <-]. split; [lia|]. left. split; [lia|reflexivity]. }
  destruct (closed f); [discriminate|].
  destruct (negb (readable f)); [discriminate|].
  destruct (Z.ltb_spec (len (firstn (Z.to_nat n)
                               (skipn (Z.to_nat off) (content f)))) n)
    as [|Hfull]; [discriminate|].
  intros [= <-]. split; [lia|]. right.
  unfold len in *. rewrite length_firstn, length_skipn in *. lia.
Qed.

Lemma read_into_File_ok (f : File) (b b' : slice) (off n : Z) :
  read_into f b off = (b', n, None) ->
  0 <= slen b ->
  0 <= off /\
  ((slen b = 0 /\ n = 0) \/
   (0 < slen b /\ n = slen b /\ off + n <= len (content f))).
Proof.
  unfold read_into. cbv [ReadAt File_ReaderWriterCloser].
  destruct (File_ReadAt f (slen b) off) as [got err] eqn:E.
  intros [= _ <- ->] Hs.
  apply File_ReadAt_ok in E. destruct E as [Hoff [[Hz ->]|(Hpos & Hgot & Hin)]].
  - split; [exact Hoff|]. left. split; [lia|].
    rewrite firstn_nil. reflexivity.
  - split; [exact Hoff|]. right.
    rewrite firstn_all2 by (unfold len in Hgot; lia). lia.
Qed.

Lemma File_Write_result (f f' : File) (b : list byte) (n : Z)
    (err : option error) :
  File_Write f b = (f', n, err) ->
  (err <> None /\ f' = f) \/
  (err = None /\ writable f = true /\ n = len b /\
   content f' = write_at (content f) (fpos f) b /\
   fpos f' = fpos f + len b /\ writable f' = true).
Proof.
  unfold File_Write.
  destruct (closed f); [intros [= <- _ <-]; left; split; [discriminate|reflexivity]|].
  destruct (writable f) eqn:Hw; cbn [negb];
    [|intros [= <- _ <-]; left; split; [discriminate|reflexivity]].
  intros [= <- <- <-]. right. cbn [content fpos writable]. repeat split; assumption.
Qed.

Lemma len_elems (s : slice) : 0 <= slen s -> len (elems s) <= slen s.
Proof.
  intros Hs. unfold elems, len. rewrite length_firstn. lia.
Qed.

Lemma reslice_slen (s s' : slice) (n : Z) :
  reslice s n = Returns s' -> slen s' = n /\ 0 <= n.
Proof.
  unfold reslice. destruct (Z.leb_spec 0 n); cbn [andb]; [|discriminate].
  destruct (n <=? cap s); [|discriminate].
  intros [= <-]. split; [reflexivity|assumption].
Qed.

Lemma store_index_slen (s s' : slice) (i : Z) (v : byte) :
  store_index s i v = Returns s' -> slen s' = slen s.
Proof.
  unfold store_index. destruct ((0 <=? i) && (i <? slen s)); [|discriminate].
  intros [= <-]. reflexivity.
Qed.

Lemma PutUint32_slen (s s' : slice) (off v : Z) :
  binary.PutUint32 s off v = Returns s' -> slen s' = slen s.
Proof.
  unfold binary.PutUint32.
  destruct ((0 <=? off) && (off <=? slen s)); [|discriminate].
  destruct (4 <=? slen s - off); [|discriminate].
  intros [= <-]. reflexivity.
Qed.

Lemma copy_from_slen (s s' : slice) (off : Z) (src : list byte) :
  copy_from s off src = Returns s' -> slen s' = slen s.
Proof.
  unfold copy_from. destruct ((0 <=? off) && (off <=? slen s)); [|discriminate].
  intros [= <-]. reflexivity.
Qed.

Lemma read_into_Device_ok (d : Device) (b b' : slice) (off n : Z) :
  read_into d b off = (b', n, None) ->
  0 <= slen b ->
  0 <= off /\
  ((slen b = 0 /\ n = 0) \/
   (0 < slen b /\ n = slen b /\ off + n <= len (content (file d)))).
Proof. intros Hr. apply (read_into_File_ok (file d) b b' off n). exact Hr. Qed.

(** What a write does to the file on the device: all of it, none of
    it, or the first bytes of it. *)
Lemma Device_Write_result (d d' : Device) (b : list byte) (n : Z)
    (err : option error) :
  Device_Write d b = (d', n, err) ->
  (err = None /\ writable (file d) = true /\ n = len b /\
   content (file d') = write_at (content (file d)) (fpos (file d)) b /\
   fpos (file d') = fpos (file d) + len b /\ writable (file d') = true) \/
  (err <> None /\ file d' = file d) \/
  (err <> None /\ writable (file d) = true /\
   exists sent,
     content (file d') = write_at (content (file d)) (fpos (file d)) sent /\
     fpos (file d') = fpos (file d) + len sent /\ writable (file d') = true).
Proof.
  unfold Device_Write.
  destruct (closed (file d) || negb (writable (file d))) eqn:Hcw.
  - destruct (File_Write (file d) b) as [[f' k] e] eqn:EW.
    intros [= <- <- <-]. cbn [file].
    apply File_Write_result in EW.
    destruct EW as [[He ->]|(-> & Hw & -> & Hc & Hp & Hw')].
    + right. left. split; [exact He|reflexivity].
    + left. repeat split; assumption.
  - destruct (fails d (file d) b) as [[k e]|].
    + destruct (File_Write (file d) (firstn (Z.to_nat k) b)) as [[f' k'] e'] eqn:EW.
      intros [= <- <- <-]. cbn [file].
      apply File_Write_result in EW.
      destruct EW as [[He ->]|(-> & Hw & -> & Hc & Hp & Hw')].
      * right. left. split; [discriminate|reflexivity].
      * right. right. split; [discriminate|]. split; [exact Hw|].
        eexists. repeat split; eassumption.
    + destruct (File_Write (file d) b) as [[f' k] e] eqn:EW.
      intros [= <- <- <-]. cbn [file].
      apply File_Write_result in EW.
      destruct EW as [[He ->]|(-> & Hw & -> & Hc & Hp & Hw')].
      * right. left. split; [exact He|reflexivity].
      * left. repeat split; assumption.
Qed.

Lemma len_write_at_end (c b : list byte) :
  len (write_at c (len c) b) = len c + len b.
Proof.
  rewrite <- (app_nil_r c) at 1.
  rewrite (write_at_after c [] b (len c) eq_refl).
  rewrite skipn_nil, app_nil_r. apply len_app.
Qed.

Lemma ReadPacket_tracks_device (b0 : slice) (pcap pcap' : PCAP Device)
    (pk : option Packet) (n : Z) (err : option error) :
  tracks_device pcap -> fsize pcap < 2 ^ 62 ->
  ReadPacket b0 pcap = Returns (pcap', pk, n, err) ->
  tracks_device pcap' /\ fsize pcap' = fsize pcap /\ offset pcap <= offset pcap'.
Proof.
  intros (Hoff & Hsize & Hpos) Hbound Hr.
  unfold ReadPacket in Hr.
  destruct (reslice b0 0) as [s1|] eqn:E1; cbn [bind] in Hr; [|discriminate].
  destruct (reslice s1 minPacketSize) as [s2|] eqn:E2; cbn [bind] in Hr;
    [|discriminate].
  apply reslice_slen in E2. destruct E2 as [Hs2 _].
  destruct (read_into (rd pcap) s2 (offset pcap)) as [[b1 n1] [e1|]] eqn:R1.
  { injection Hr as <- _ _ _. unfold tracks_device.
    cbn [offset fsize rd with_lasterr]. repeat split; try assumption; lia. }
  apply read_into_Device_ok in R1; [|rewrite Hs2; unfold minPacketSize; lia].
  destruct R1 as [_ [[Hz _]|(_ & Hn1 & Hin1)]];
    [rewrite Hs2 in Hz; discriminate Hz|].
  rewrite Hs2 in Hn1. unfold minPacketSize in Hn1. subst n1.
  rewrite int64_small in Hr by lia.
  cbn [h rd offset count with_offset] in Hr.
  destruct (deref (h pcap)) as [hd|]; cbn [bind] in Hr; [|discriminate].
  destruct (unmarshalPacketHeader (elems b1) (snapLen hd))
    as [[[ph k] e]|]; cbn [bind] in Hr; [|discriminate].
  destruct e as [e|].
  { injection Hr as <- _ _ _. unfold tracks_device.
    cbn [offset fsize rd with_lasterr with_offset].
    repeat split; try assumption; lia. }
  destruct ph as [ph|]; [|discriminate].
  destruct (reslice b1 (plen ph)) as [s3|] eqn:E3; cbn [bind] in Hr;
    [|discriminate].
  apply reslice_slen in E3. destruct E3 as [Hs3 Hpl].
  destruct (read_into (rd pcap) s3 (offset pcap + 10)) as [[b2 n2] [e2|]] eqn:R2.
  { injection Hr as <- _ _ _. unfold tracks_device.
    cbn [offset fsize rd with_lasterr with_offset].
    repeat split; try assumption; lia. }
  apply read_into_Device_ok in R2; [|rewrite Hs3; exact Hpl].
  assert (Hn2 : 0 <= n2 /\
                offset pcap + 10 + n2 <= len (content (file (rd pcap))))
    by (destruct R2 as [_ [[_ ->]|(Hp & -> & Hin2)]]; lia).
  injection Hr as <- _ _ _.
  cbn [offset count with_count with_offset].
  rewrite int64_small by lia.
  unfold tracks_device. cbn [offset fsize rd with_count with_offset].
  repeat split; try assumption; lia.
Qed.

Lemma WritePacket_tracks_device (b0 : slice) (pcap pcap' : PCAP Device)
    (p : Packet) (n : Z) (err : option error) :
  tracks_device pcap -> fsize pcap < 2 ^ 62 ->
  WritePacket b0 pcap p = Returns (pcap', n, err) ->
  offset pcap' = offset pcap /\ fsize pcap <= fsize pcap' /\
  (tracks_device pcap' \/
   (err <> None /\ LastError pcap' = ErrWrite /\ fsize pcap' = fsize pcap /\
    fsize pcap' < len (content (file (rd pcap'))))) /\
  (err = None -> tracks_device pcap').
Proof.
  intros (Hoff & Hsize & Hpos) Hbound Hw.
  unfold WritePacket in Hw.
  destruct (deref (h pcap)) as [hd|]; cbn [bind] in Hw; [|discriminate].
  destruct (len (Data p) + minPacketSize >? snapLen hd).
  { injection Hw as <- _ <-.
    assert (Ht : tracks_device (with_lasterr pcap ErrSizeOverflow))
      by (unfold tracks_device; cbn [offset fsize rd with_lasterr];
          repeat split; try assumption; lia).
    cbn [offset fsize with_lasterr].
    split; [reflexivity|]. split; [lia|]. split; [left; exact Ht|discriminate]. }
  destruct (reslice b0 0) as [s1|] eqn:E1; cbn [bind] in Hw; [|discriminate].
  destruct (reslice s1 (uint32 (minPacketSize + Len p))) as [s2|] eqn:E2;
    cbn [bind] in Hw; [|discriminate].
  destruct (store_index s2 0 (Index p)) as [s3|] eqn:E3; cbn [bind] in Hw;
    [|discriminate].
  destruct (store_index s3 1 (PacketType p)) as [s4|] eqn:E4; cbn [bind] in Hw;
    [|discriminate].
  destruct (binary.PutUint32 s4 (0 + 2) (Timestamp p)) as [s5|] eqn:E5;
    cbn [bind] in Hw; [|discriminate].
  destruct (binary.PutUint32 s5 (0 + 2 + 4) (Len p)) as [s6|] eqn:E6;
    cbn [bind] in Hw; [|discriminate].
  destruct (copy_from s6 (0 + 2 + 4 + 4) (Data p)) as [s7|] eqn:E7;
    cbn [bind] in Hw; [|discriminate].
  apply reslice_slen in E2. destruct E2 as [Hs2 Hs2'].
  apply store_index_slen in E3, E4. apply PutUint32_slen in E5, E6.
  apply copy_from_slen in E7.
  assert (Hs7 : 0 <= slen s7 < 2 ^ 32).
  { rewrite E7, E6, E5, E4, E3, Hs2. apply Z.mod_pos_bound. lia. }
  pose proof (len_elems s7 (proj1 Hs7)) as Hsent.
  pose proof (len_nonneg (elems s7)) as Hsent0.
  destruct (Write (rd pcap) (elems s7)) as [[d' n0] err0] eqn:EW.
  cbv [Write Device_ReaderWriterCloser] in EW.
  apply Device_Write_result in EW.
  destruct EW as [(-> & Hwr & -> & Hcontent & Hfpos & Hwr')
                 |[[Herr Hsame]
                  |(Herr & Hwr & sent & Hcontent & Hfpos & Hwr')]].
  - injection Hw as <- _ <-.
    cbn [fsize offset with_rd with_fsize]. rewrite int64_small by lia.
    assert (Hlen : len (content (file d'))
                   = len (content (file (rd pcap))) + len (elems s7))
      by (rewrite Hcontent, (Hpos Hwr); apply len_write_at_end).
    pose proof (Hpos Hwr) as Hend.
    assert (Ht : tracks_device
                   (with_fsize (with_rd pcap d') (fsize pcap + len (elems s7))))
      by (unfold tracks_device; cbn [offset fsize rd with_fsize with_rd];
          repeat split; intros; lia).
    split; [reflexivity|]. split; [lia|]. split; [left; exact Ht|].
    intros _. exact Ht.
  - destruct err0 as [e|]; [|contradiction].
    injection Hw as <- _ <-.
    cbn [fsize offset with_rd with_lasterr].
    split; [reflexivity|]. split; [lia|]. split; [|discriminate].
    left. unfold tracks_device. cbn [offset fsize rd with_lasterr with_rd].
    rewrite Hsame. repeat split; try assumption; lia.
  - destruct err0 as [e|]; [|contradiction].
    injection Hw as <- _ <-.
    cbn [fsize offset with_rd with_lasterr].
    split; [reflexivity|]. split; [lia|]. split; [|discriminate].
    assert (Hlen : len (content (file d'))
                   = len (content (file (rd pcap))) + len sent)
      by (rewrite Hcontent, (Hpos Hwr); apply len_write_at_end).
    pose proof (Hpos Hwr) as Hend. pose proof (len_nonneg sent) as Hs0.
    destruct (Z.eq_dec (len sent) 0) as [Hz|Hnz].
    + left. unfold tracks_device. cbn [offset fsize rd with_lasterr with_rd].
      repeat split; intros; lia.
    + right. unfold LastError. cbn [lasterr fsize rd with_lasterr with_rd].
      split; [discriminate|]. split; [reflexivity|]. split; [reflexivity|]. lia.
Qed.

(** X17: on a session whose counters describe the file on its device
    (the cursor within the tracked size, the tracked size the length of
    the file, a writable handle at the end of the file) and whose file
    is shorter than 2^62 bytes, a [ReadPacket] or [WritePacket] that
    returns moves neither the cursor nor the tracked size back, and the
    counters describe the file afterwards, with [Next] true exactly
    while bytes of the file lie beyond the cursor, in every case but
    one: a [WritePacket] whose [Write] returns an error after the device
    has taken some of the bytes records [ErrWrite] and leaves the
    tracked size as it was, short of the file's length. Every read, and
    every write that returns no error, keeps the counters right. *)
Theorem step_tracks_file (pcap pcap' : PCAP Device) (o : op)
    (err : option error) :
  tracks_device pcap -> fsize pcap < 2 ^ 62 ->
  step pcap o = Returns (pcap', err) ->
  offset pcap <= offset pcap' /\ fsize pcap <= fsize pcap' /\
  (tracks_device pcap' /\
   (Next pcap' = true <-> offset pcap' < len (content (file (rd pcap')))) \/
   (exists b0 p, o = OpWrite b0 p) /\ err <> None /\
   LastError pcap' = ErrWrite /\
   offset pcap' = offset pcap /\ fsize pcap' = fsize pcap /\
   fsize pcap' < len (content (file (rd pcap')))) /\
  ((exists b0, o = OpRead b0) \/ err = None -> tracks_device pcap').
Proof.
  intros Ht Hb Hs.
  assert (HN : forall q : PCAP Device, tracks_device q ->
                 (Next q = true <-> offset q < len (content (file (rd q))))).
  { intros q (_ & Hsz & _). unfold Next. rewrite Hsz. apply Z.ltb_lt. }
  destruct o as [b0|b0 p]; cbn [step] in Hs.
  - destruct (ReadPacket b0 pcap) as [[[[q pk] n] e]|] eqn:E;
      cbn [bind] in Hs; [|discriminate].
    injection Hs as <- <-.
    destruct (ReadPacket_tracks_device _ _ _ _ _ _ Ht Hb E) as (Ht' & Hf & Ho).
    split; [lia|]. split; [lia|].
    split; [left; split; [exact Ht' | exact (HN q Ht')]|].
    intros _. exact Ht'.
  - destruct (WritePacket b0 pcap p) as [[[q n] e]|] eqn:E;
      cbn [bind] in Hs; [|discriminate].
    injection Hs as <- <-.
    destruct (WritePacket_tracks_device _ _ _ _ _ _ Ht Hb E)
      as (Ho & Hf & Hcase & Hok).
    split; [lia|]. split; [lia|]. split.
    + destruct Hcase as [Ht'|(He & Hl & Hfs & Hlt)].
      * left. split; [exact Ht' | exact (HN q Ht')].
      * right. split; [exists b0, p; reflexivity|].
        split; [exact He|]. split; [exact Hl|]. split; [exact Ho|].
        split; assumption.
    + intros [[b1 Hb1]|He]; [discriminate Hb1 | exact (Hok He)].
Qed.

Lemma step_tracks_file_witness :
  offset full_session <= offset torn_session /\
  fsize full_session <= fsize torn_session /\
  (tracks_device torn_session /\
   (Next torn_session = true <->
    offset torn_session < len (content (file (rd torn_session)))) \/
   (exists b0 p, OpWrite packetPool_New packet_abc = OpWrite b0 p) /\
   Some (os_PathError "write" "no space left on device") <> None /\
   LastError torn_session = ErrWrite /\
   offset torn_session = offset full_session /\
   fsize torn_session = fsize full_session /\
   fsize torn_session < len (content (file (rd torn_session)))) /\
  ((exists b0, OpWrite packetPool_New packet_abc = OpRead b0) \/
   Some (os_PathError "write" "no space left on device") = None ->
   tracks_device torn_session).
Proof.
  apply (step_tracks_file full_session torn_session
           (OpWrite packetPool_New packet_abc)
           (Some (os_PathError "write" "no space left on device"))).
  - split; [split; vm_compute; discriminate|].
    split; [reflexivity|]. intros _. reflexivity.
  - vm_compute. reflexivity.
  - vm_compute. reflexivity.
Defined.

(** The exception occurs: on a device that takes five bytes and then
    fails, the write of a packet leaves a file of 19 bytes and a tracked
    size of 14. *)
Lemma partial_write_loses_track :
  tracks_device full_session /\
  step full_session (OpWrite packetPool_New packet_abc)
    = Returns (torn_session,
               Some (os_PathError "write" "no space left on device")) /\
  fsize torn_session = 14 /\
  len (content (file (rd torn_session))) = 19 /\
  ~ tracks_device torn_session.
Proof.
  split.
  { split; [split; vm_compute; discriminate|].
    split; [reflexivity|]. intros _. reflexivity. }
  split; [vm_compute; reflexivity|].
  split; [reflexivity|]. split; [reflexivity|].
  intros (_ & Hsize & _). vm_compute in Hsize. discriminate Hsize.
Qed.


